(** * Coverage-grid cache manager: a shallow embedding and its properties

    The development follows [models.py] (cache-key derivation and the
    persistent cache tables of [DatabaseManager]) and [cache_manager.py]
    (the in-memory cache, the preload queue and the coordinator
    [CoverageGridCacheManager]).

    Conventions.
    - Python [str] values are [string]s whose characters are code points
      below 256; a [dict] is an association list in insertion order whose
      keys are pairwise distinct.
    - Time stamps are integers: microseconds since 0001-01-01 00:00:00, the
      least [datetime].  Every operation receives the instant [now] of the
      call, in UTC, as an argument.  The stamps of the in-memory cache, which
      the code takes from the local clock, are only compared with each
      other and are kept on this scale; a row stamped by [CURRENT_TIMESTAMP]
      holds its instant, and SQLite stores the whole seconds of it.  Where
      the code compares a local clock reading with such a row stamp
      ([cleanup_old_cache]) the offset of the server's time zone is an
      argument.
    - The locks of the manager are not modelled: every operation is one
      atomic, sequential step, and a worker thread is followed from one
      test of its loop to the next. *)

From Stdlib Require Import ZArith List String Ascii Bool Lia.
From Stdlib Require Import Permutation Sorted DecimalString QArith.
Import ListNotations.

Local Open Scope Z_scope.
Set Warnings "-register-all".

(* ================================================================= *)
(** ** hashlib.md5 (RFC 1321) on byte strings *)

Module MD5.

Definition mask32 : Z := 4294967295.
Definition w32 (x : Z) : Z := Z.land x mask32.
Definition add32 (x y : Z) : Z := w32 (x + y).
Definition not32 (x : Z) : Z := Z.lxor x mask32.
Definition rotl32 (x c : Z) : Z :=
  w32 (Z.lor (Z.shiftl x c) (Z.shiftr x (32 - c))).

Definition shifts : list Z :=
  [7; 12; 17; 22; 7; 12; 17; 22; 7; 12; 17; 22; 7; 12; 17; 22;
   5; 9; 14; 20; 5; 9; 14; 20; 5; 9; 14; 20; 5; 9; 14; 20;
   4; 11; 16; 23; 4; 11; 16; 23; 4; 11; 16; 23; 4; 11; 16; 23;
   6; 10; 15; 21; 6; 10; 15; 21; 6; 10; 15; 21; 6; 10; 15; 21].

Definition sines : list Z :=
  [3614090360; 3905402710; 606105819; 3250441966; 4118548399; 1200080426;
   2821735955; 4249261313; 1770035416; 2336552879; 4294925233; 2304563134;
   1804603682; 4254626195; 2792965006; 1236535329; 4129170786; 3225465664;
   643717713; 3921069994; 3593408605; 38016083; 3634488961; 3889429448;
   568446438; 3275163606; 4107603335; 1163531501; 2850285829; 4243563512;
   1735328473; 2368359562; 4294588738; 2272392833; 1839030562; 4259657740;
   2763975236; 1272893353; 4139469664; 3200236656; 681279174; 3936430074;
   3572445317; 76029189; 3654602809; 3873151461; 530742520; 3299628645;
   4096336452; 1126891415; 2878612391; 4237533241; 1700485571; 2399980690;
   4293915773; 2240044497; 1873313359; 4264355552; 2734768916; 1309151649;
   4149444226; 3174756917; 718787259; 3951481745].

Definition le_bytes (n : nat) (x : Z) : list Z :=
  map (fun i => Z.land (Z.shiftr x (8 * Z.of_nat i)) 255) (seq 0 n).

Definition pad (msg : list Z) : list Z :=
  let len := Z.of_nat (List.length msg) in
  (msg ++ [128] ++ repeat 0 (Z.to_nat ((55 - len) mod 64))
       ++ le_bytes 8 (8 * len))%list.

Definition word_at (block : list Z) (g : nat) : Z :=
  let b k := nth (4 * g + k) block 0 in
  b 0%nat + Z.shiftl (b 1%nat) 8 + Z.shiftl (b 2%nat) 16
  + Z.shiftl (b 3%nat) 24.

Definition regs : Type := (Z * Z * Z * Z)%type.

Definition round (block : list Z) (st : regs) (i : nat) : regs :=
  let '(a, b, c, d) := st in
  let '(f, g) :=
    if (i <? 16)%nat then
      (Z.lor (Z.land b c) (Z.land (not32 b) d), i)
    else if (i <? 32)%nat then
      (Z.lor (Z.land d b) (Z.land (not32 d) c), ((5 * i + 1) mod 16)%nat)
    else if (i <? 48)%nat then
      (Z.lxor (Z.lxor b c) d, ((3 * i + 5) mod 16)%nat)
    else
      (Z.lxor c (Z.lor b (not32 d)), ((7 * i) mod 16)%nat) in
  let f' := add32 (add32 (add32 f a) (nth i sines 0)) (word_at block g) in
  (d, add32 b (rotl32 f' (nth i shifts 0)), b, c).

Definition compress (st : regs) (block : list Z) : regs :=
  let '(a0, b0, c0, d0) := st in
  let '(a, b, c, d) := fold_left (round block) (seq 0 64) st in
  (add32 a0 a, add32 b0 b, add32 c0 c, add32 d0 d).

Definition blocks (bytes : list Z) : list (list Z) :=
  map (fun k => firstn 64 (skipn (64 * k) bytes))
      (seq 0 (List.length bytes / 64)).

Definition init : regs := (1732584193, 4023233417, 2562383102, 271733878).

Definition digest (msg : list Z) : list Z :=
  let '(a, b, c, d) := fold_left compress (blocks (pad msg)) init in
  (le_bytes 4 a ++ le_bytes 4 b ++ le_bytes 4 c ++ le_bytes 4 d)%list.

Definition hex_digit (n : Z) : ascii :=
  ascii_of_N (Z.to_N (if n <? 10 then 48 + n else 87 + n)).

Fixpoint hex_of_bytes (bs : list Z) : string :=
  match bs with
  | [] => EmptyString
  | b :: bs' =>
      String (hex_digit (b / 16)) (String (hex_digit (b mod 16))
                                          (hex_of_bytes bs'))
  end.

Definition bytes_of_string (s : string) : list Z :=
  map (fun c => Z.of_N (N_of_ascii c)) (list_ascii_of_string s).

(** [hashlib.md5(s.encode()).hexdigest()] for a string of ASCII
    characters. *)
Definition hexdigest (s : string) : string :=
  hex_of_bytes (digest (bytes_of_string s)).

End MD5.

(* ================================================================= *)
(** ** Python values: [sorted], JSON data *)

Section Sorting.

Context {A : Type} (le : A -> A -> bool).

Fixpoint insert_sorted (x : A) (l : list A) : list A :=
  match l with
  | [] => [x]
  | y :: l' => if le x y then x :: l else y :: insert_sorted x l'
  end.

Definition holds (a b : A) : Prop := le a b = true.

(** [sorted(l)], a stable sort: an element is placed before the elements
    that follow it in [l] and compare equal to it. *)
Fixpoint sorted (l : list A) : list A :=
  match l with
  | [] => []
  | x :: l' => insert_sorted x (sorted l')
  end.

End Sorting.

(** JSON-serialisable Python values; a [JDict] lists its items in
    insertion order. *)
Inductive json : Type :=
| JNull
| JBool (b : bool)
| JInt (n : Z)
| JStr (s : string)
| JList (l : list json)
| JDict (items : list (string * json)).

Definition dict : Type := list (string * json).

Module Json.

Local Open Scope string_scope.

Definition dquote : ascii := ascii_of_nat 34.
Definition backslash : ascii := ascii_of_nat 92.
Definition chars (l : list ascii) : string := string_of_list_ascii l.

Definition hex2 (n : Z) : string :=
  chars [MD5.hex_digit (n / 16); MD5.hex_digit (n mod 16)].

(** One character under [ensure_ascii=True]: the short escapes, then
    [\u00xx] for everything outside the printable range [' '..'~']. *)
Definition escape_char (c : ascii) : string :=
  let n := Z.of_N (N_of_ascii c) in
  if Z.eqb n 34 then chars [backslash; dquote]
  else if Z.eqb n 92 then chars [backslash; backslash]
  else if Z.eqb n 10 then chars [backslash] ++ "n"
  else if Z.eqb n 13 then chars [backslash] ++ "r"
  else if Z.eqb n 9 then chars [backslash] ++ "t"
  else if Z.eqb n 8 then chars [backslash] ++ "b"
  else if Z.eqb n 12 then chars [backslash] ++ "f"
  else if Z.ltb n 32 || Z.ltb 126 n then
    chars [backslash] ++ "u00" ++ hex2 n
  else chars [c].

Definition quote (s : string) : string :=
  chars [dquote]
  ++ concat "" (map escape_char (list_ascii_of_string s))
  ++ chars [dquote].

Definition string_of_Z (n : Z) : string :=
  NilZero.string_of_int (Z.to_int n).

Definition key_le {V : Type} (a b : string * V) : bool :=
  String.leb (fst a) (fst b).

Definition render_item (kv : string * string) : string :=
  quote (fst kv) ++ ": " ++ snd kv.

(** [json.dumps(j, sort_keys=True)] with the default separators.  The
    items of a dict are sorted by key; the values are serialised first
    and the pairs sorted afterwards, which is the same list (lemma
    [sorted_items_map]). *)
Fixpoint dumps (j : json) : string :=
  match j with
  | JNull => "null"
  | JBool true => "true"
  | JBool false => "false"
  | JInt n => string_of_Z n
  | JStr s => quote s
  | JList l => "[" ++ concat ", " (map dumps l) ++ "]"
  | JDict items =>
      "{" ++ concat ", "
               (map render_item
                    (sorted key_le
                            (map (fun kv => (fst kv, dumps (snd kv))) items)))
          ++ "}"
  end.

End Json.

(* ================================================================= *)
(** ** models.py: [generate_cache_key] *)

(** [additional_params or {}]: [None] and the empty dict are both falsy. *)
Definition or_empty (additional_params : option dict) : dict :=
  match additional_params with
  | None => []
  | Some [] => []
  | Some d => d
  end.

Definition generate_cache_key (city_name : string)
    (business_lines : list string) (vendor_filters : dict)
    (additional_params : option dict) : string :=
  let key_data :=
    JDict [("city"%string, JStr city_name);
           ("business_lines"%string,
             JList (map JStr (match business_lines with
                              | [] => []
                              | _ => sorted String.leb business_lines
                              end)));
           ("vendor_filters"%string, JDict vendor_filters);
           ("additional"%string, JDict (or_empty additional_params))] in
  let key_string := Json.dumps key_data in
  MD5.hexdigest key_string.

(* ================================================================= *)
(** ** Python dicts with string keys, in insertion order *)

Module PyDict.

Section Ops.

Context {V : Type}.

Definition t : Type := list (string * V).

(** [d.get(k)] / [k in d] *)
Fixpoint get (k : string) (d : t) : option V :=
  match d with
  | [] => None
  | (k', v) :: d' => if String.eqb k k' then Some v else get k d'
  end.

Definition mem (k : string) (d : t) : bool :=
  match get k d with Some _ => true | None => false end.

(** [d[k] = v]: an existing key keeps its position, a new key goes
    last. *)
Fixpoint set (k : string) (v : V) (d : t) : t :=
  match d with
  | [] => [(k, v)]
  | (k', v') :: d' =>
      if String.eqb k k' then (k, v) :: d' else (k', v') :: set k v d'
  end.

(** [del d[k]] *)
Fixpoint del (k : string) (d : t) : t :=
  match d with
  | [] => []
  | (k', v') :: d' =>
      if String.eqb k k' then d' else (k', v') :: del k d'
  end.

Definition keys (d : t) : list string := map fst d.

(** The invariant of a dict: no key occurs twice. *)
Definition wf (d : t) : Prop := NoDup (keys d).

End Ops.

Arguments t : clear implicits.

End PyDict.

(* ================================================================= *)
(** ** Results of Python calls that may raise *)

Inductive py_result (A : Type) : Type :=
| Returns (a : A)
| Raises.

Arguments Returns {A} a.
Arguments Raises {A}.

Definition py_bind {A B : Type} (r : py_result A) (k : A -> py_result B)
  : py_result B :=
  match r with
  | Returns a => k a
  | Raises => Raises
  end.

Notation "x <- r ;; k" := (py_bind r (fun x => k))
  (at level 61, r at next level, right associativity).

(* ================================================================= *)
(** ** Grid payloads *)

(** One scored grid point, as returned by
    [calculate_coverage_for_grid_vectorized]. *)
Record Coverage : Type := {
  lat : Q;
  lng : Q;
  total_vendors : Z;
  by_business_line : PyDict.t Z
}.

(** The keys added by the target-based analysis. *)
Record TargetMetrics : Type := {
  target_business_line : string;
  target_value : Z;
  actual_value : Z;
  performance_ratio : Q
}.

(** One entry of a processed grid ([point_data]). *)
Record PointData : Type := {
  pd_lat : Q;
  pd_lng : Q;
  pd_coverage : Coverage;
  pd_marketing_area : option string;
  pd_target : option TargetMetrics
}.

Definition Grid : Type := list PointData.

(** Truthiness of an [Optional[List]]: [None] and [[]] are falsy. *)
Definition truthy {A : Type} (r : option (list A)) : bool :=
  match r with
  | Some (_ :: _) => true
  | _ => false
  end.

(* ================================================================= *)
(** ** models.py: the cache tables of [DatabaseManager] *)

Record CoverageRow : Type := {
  cg_cache_key : string;
  cg_city_name : string;
  cg_business_line : string;
  cg_vendor_filters : dict;
  cg_grid_data : Grid;
  cg_point_count : Z;
  cg_created_at : Z;
  cg_last_accessed : Z
}.

Record HeatmapRow : Type := {
  hm_cache_key : string;
  hm_heatmap_type : string;
  hm_city_name : string;
  hm_date_range : string;
  hm_business_line : string;
  hm_zoom_level : Z;
  hm_heatmap_data : json;
  hm_created_at : Z
}.

Record Database : Type := {
  coverage_grid_cache : list CoverageRow;
  heatmap_cache : list HeatmapRow
}.

(** The instant of a call, in UTC, and whether SQLite answers during it (a
    failing connection makes every statement of the call raise). *)
Record Env : Type := {
  now : Z;
  sqlite_ok : bool
}.

Definition find_row (key : string) (rows : list CoverageRow)
  : option CoverageRow :=
  find (fun r => String.eqb (cg_cache_key r) key) rows.

Definition touch_row (key : string) (t : Z) (r : CoverageRow) : CoverageRow :=
  if String.eqb (cg_cache_key r) key then
    {| cg_cache_key := cg_cache_key r; cg_city_name := cg_city_name r;
       cg_business_line := cg_business_line r;
       cg_vendor_filters := cg_vendor_filters r;
       cg_grid_data := cg_grid_data r; cg_point_count := cg_point_count r;
       cg_created_at := cg_created_at r; cg_last_accessed := t |}
  else r.

(** [INSERT OR REPLACE]: the row holding the unique [cache_key] is deleted
    and the new row inserted; both time stamps take their default,
    [CURRENT_TIMESTAMP].  On an exception nothing is written and [False]
    is returned. *)
Definition cache_coverage_grid (env : Env) (db : Database)
    (cache_key city_name business_line : string) (vendor_filters : dict)
    (grid_data : Grid) : Database * bool :=
  if sqlite_ok env then
    ({| coverage_grid_cache :=
          filter (fun r => negb (String.eqb (cg_cache_key r) cache_key))
                 (coverage_grid_cache db)
          ++ [{| cg_cache_key := cache_key; cg_city_name := city_name;
                 cg_business_line := business_line;
                 cg_vendor_filters := vendor_filters;
                 cg_grid_data := grid_data;
                 cg_point_count := Z.of_nat (List.length grid_data);
                 cg_created_at := now env; cg_last_accessed := now env |}];
        heatmap_cache := heatmap_cache db |}, true)
  else (db, false).

(** A found row has its [last_accessed] updated and its payload returned;
    no row, or an exception, gives [None]. *)
Definition get_cached_coverage_grid (env : Env) (db : Database)
    (cache_key : string) : Database * option Grid :=
  if sqlite_ok env then
    match find_row cache_key (coverage_grid_cache db) with
    | Some r =>
        ({| coverage_grid_cache :=
              map (touch_row cache_key (now env)) (coverage_grid_cache db);
            heatmap_cache := heatmap_cache db |}, Some (cg_grid_data r))
    | None => (db, None)
    end
  else (db, None).

Definition day : Z := 86400 * 1000000.

(** What [cleanup_old_cache] leaves behind: the tables, the two row counts
    it logs, and the value it returns to its caller. *)
Record CleanupOutcome : Type := {
  cleaned_db : Database;
  logged_coverage_deleted : Z;
  logged_heatmap_deleted : Z;
  returned : option Z
}.

Definition second : Z := 1000000.

(** The text [CURRENT_TIMESTAMP] stores, ['YYYY-MM-DD HH:MM:SS'], as a time
    stamp: the whole seconds of the instant. *)
Definition whole_seconds (t : Z) : Z := t / second * second.

(** [timedelta(days=d)] is an [OverflowError] beyond this magnitude. *)
Definition max_timedelta_days : Z := 999999999.

(** The greatest [datetime], 9999-12-31 23:59:59.999999. *)
Definition datetime_max : Z := 3652059 * day - 1.

(** [datetime.now() - timedelta(days=days_old)]: the local clock reading
    less the retention, or an [OverflowError] when the retention or the
    difference is out of range. *)
Definition cleanup_cutoff (env : Env) (utc_offset days_old : Z)
  : py_result Z :=
  if (days_old <? - max_timedelta_days) || (max_timedelta_days <? days_old)
  then Raises
  else
    let cutoff_date := now env + utc_offset - days_old * day in
    if (cutoff_date <? 0) || (datetime_max <? cutoff_date) then Raises
    else Returns cutoff_date.

(** [utc_offset] is local time less UTC.  The cutoff is bound as the text
    ['YYYY-MM-DD HH:MM:SS.ffffff'] (without the fraction when it is zero)
    and compared, as text, with the stored stamps; on these fixed-width
    texts that is the comparison of the whole seconds of the stamp with the
    cutoff.  The function has no [return] statement: the counts are logged
    and the caller receives [None].  The cutoff is computed before the
    connection is opened, and an exception of either propagates. *)
Definition cleanup_old_cache (env : Env) (utc_offset : Z) (db : Database)
    (days_old : Z) : py_result CleanupOutcome :=
  cutoff_date <- cleanup_cutoff env utc_offset days_old ;;
  if sqlite_ok env then
    let old_cg r := whole_seconds (cg_last_accessed r) <? cutoff_date in
    let old_hm r := whole_seconds (hm_created_at r) <? cutoff_date in
    let kept_cg := filter (fun r => negb (old_cg r)) (coverage_grid_cache db) in
    let coverage_deleted :=
      Z.of_nat (List.length (filter old_cg (coverage_grid_cache db))) in
    let kept_hm := filter (fun r => negb (old_hm r)) (heatmap_cache db) in
    let heatmap_deleted :=
      Z.of_nat (List.length (filter old_hm (heatmap_cache db))) in
    Returns {| cleaned_db := {| coverage_grid_cache := kept_cg;
                                heatmap_cache := kept_hm |};
               logged_coverage_deleted := coverage_deleted;
               logged_heatmap_deleted := heatmap_deleted;
               returned := None |}
  else Raises.

Definition cleanup_default_days : Z := 7.

(* ================================================================= *)
(** ** cache_manager.py: tasks, priorities, common combinations *)

Record CoverageGridTask : Type := {
  city_name : string;
  business_lines : list string;
  vendor_filters : dict;
  priority : Z;
  created_at : Z
}.

(** An entry of [common_combinations]. *)
Record Combination : Type := {
  combo_city_name : string;
  combo_business_lines : list string;
  combo_vendor_filters : dict;
  combo_priority : Z
}.

(** [filters.get('grades') == ['A+']] *)
Definition grades_premium (filters : dict) : bool :=
  match PyDict.get "grades" filters with
  | Some (JList [JStr g]) => String.eqb g "A+"
  | _ => false
  end.

Definition _calculate_priority (city : string) (business_lines : list string)
    (filters : dict) : Z :=
  let priority := 3 in
  let priority := if String.eqb city "tehran" then priority - 1 else priority in
  let priority :=
    if existsb (String.eqb "restaurant") business_lines
    then priority - 1 else priority in
  let priority :=
    if (List.length business_lines =? 1)%nat then priority - 1 else priority in
  let priority := if grades_premium filters then priority - 1 else priority in
  Z.max 1 (Z.min 5 priority).

Definition filter_all : dict :=
  [("status_ids", JList [JInt 5]); ("grades", JList [JStr "A"; JStr "A+"]);
   ("visible", JInt 1); ("is_open", JNull)]%string.

Definition filter_premium : dict :=
  [("status_ids", JList [JInt 5]); ("grades", JList [JStr "A+"]);
   ("visible", JInt 1); ("is_open", JInt 1)]%string.

Definition filter_active : dict :=
  [("status_ids", JList [JInt 4; JInt 5]);
   ("grades", JList [JStr "A"; JStr "A+"; JStr "B"]);
   ("visible", JInt 1); ("is_open", JNull)]%string.

Definition _define_common_combinations : list Combination :=
  let cities := ["tehran"; "mashhad"; "shiraz"]%string in
  let business_lines :=
    [["restaurant"]; ["coffee"]; ["bakery"]; ["supermarket"];
     ["restaurant"; "coffee"]; ["restaurant"; "bakery"]]%string in
  let common_filters := [filter_all; filter_premium; filter_active] in
  flat_map (fun city =>
    flat_map (fun bl_combo =>
      map (fun filter_combo =>
             {| combo_city_name := city;
                combo_business_lines := bl_combo;
                combo_vendor_filters := filter_combo;
                combo_priority :=
                  _calculate_priority city bl_combo filter_combo |})
          common_filters)
      business_lines)
    cities.

(* ================================================================= *)
(** ** cache_manager.py: the in-memory cache *)

Record MemEntry : Type := {
  data : Grid;
  last_accessed : Z;
  access_count : Z
}.

Definition MemoryCache : Type := PyDict.t MemEntry.

Definition max_memory_cache_size : nat := 50.

(** One step of [min]: the running minimum is replaced by a strictly
    smaller candidate only. *)
Definition older (best kv : string * MemEntry) : string * MemEntry :=
  if last_accessed (snd kv) <? last_accessed (snd best) then kv else best.

(** [min(d.keys(), key=lambda k: d[k]['last_accessed'])]: the first key, in
    iteration order, whose entry has the least [last_accessed]; [None]
    stands for the [ValueError] of an empty dict. *)
Definition oldest_key (mc : MemoryCache) : option string :=
  match mc with
  | [] => None
  | kv :: rest => Some (fst (fold_left older rest kv))
  end.

(** The key [_add_to_memory_cache] deletes before it inserts, if any. *)
Definition eviction_victim (mc : MemoryCache) : option string :=
  if (max_memory_cache_size <=? List.length mc)%nat then oldest_key mc
  else None.

Definition _add_to_memory_cache (t : Z) (cache_key : string) (grid : Grid)
    (mc : MemoryCache) : MemoryCache :=
  let mc' := match eviction_victim mc with
             | Some oldest => PyDict.del oldest mc
             | None => mc
             end in
  PyDict.set cache_key
             {| data := grid; last_accessed := t; access_count := 1 |} mc'.

Definition _update_memory_cache_access (t : Z) (cache_key : string)
    (mc : MemoryCache) : MemoryCache :=
  match PyDict.get cache_key mc with
  | Some e =>
      PyDict.set cache_key
                 {| data := data e; last_accessed := t;
                    access_count := access_count e + 1 |} mc
  | None => mc
  end.

(* ================================================================= *)
(** ** cache_manager.py: result post-processing *)

Definition TargetLookup : Type := list ((string * string) * Z).

Definition lookup_target (key : string * string) (tl : TargetLookup)
  : option Z :=
  match find (fun e => String.eqb (fst (fst e)) (fst key)
                       && String.eqb (snd (fst e)) (snd key)) tl with
  | Some e => Some (snd e)
  | None => None
  end.

(** Truthiness of [area_id]. *)
Definition area_truthy (area_id : option string) : option string :=
  match area_id with
  | Some EmptyString => None
  | other => other
  end.

(** The block guarded by [if target_lookup and area_id and
    len(business_lines) == 1]. *)
Definition target_analysis (target_lookup : TargetLookup)
    (area_id : option string) (business_lines : list string)
    (coverage : Coverage) : option TargetMetrics :=
  match target_lookup, area_truthy area_id, business_lines with
  | _ :: _, Some aid, [bl] =>
      match lookup_target (aid, bl) target_lookup with
      | Some target =>
          let actual :=
            match PyDict.get bl (by_business_line coverage) with
            | Some n => n
            | None => 0
            end in
          Some {| target_business_line := bl;
                  target_value := target;
                  actual_value := actual;
                  performance_ratio :=
                    if 0 <? target then Qmake actual (Z.to_pos target)
                    else Qmake 2 1 |}
      | None => None
      end
  | _, _, _ => None
  end.

Definition AreaInfo : Type := (option string * option string)%type.

Fixpoint process_from (target_lookup : TargetLookup)
    (point_area_info : list AreaInfo) (business_lines : list string)
    (i : nat) (coverage_results : list Coverage) : Grid :=
  match coverage_results with
  | [] => []
  | coverage :: rest =>
      let tail :=
        process_from target_lookup point_area_info business_lines (S i) rest in
      if 0 <? total_vendors coverage then
        let '(area_id, area_name) := nth i point_area_info (None, None) in
        {| pd_lat := lat coverage;
           pd_lng := lng coverage;
           pd_coverage := coverage;
           pd_marketing_area := area_name;
           pd_target :=
             target_analysis target_lookup area_id business_lines coverage |}
          :: tail
      else tail
  end.

(** The target lookup is never filled: the branch for tehran with one
    business line is [pass]. *)
Definition _process_coverage_results (coverage_results : list Coverage)
    (point_area_info : list AreaInfo) (business_lines : list string)
    (city : string) : Grid :=
  let target_lookup : TargetLookup :=
    if String.eqb city "tehran" && (List.length business_lines =? 1)%nat
    then [] else [] in
  process_from target_lookup point_area_info business_lines 0
               coverage_results.

(* ================================================================= *)
(** ** cache_manager.py: the computation *)

Definition GridPoint : Type := (Q * Q)%type.

(** What [_calculate_coverage_grid] calls and this repository's sources do
    not define: the vendor query of the database manager (over the vendors
    table, which is not modelled), the three functions of [app_optimized]
    and the two constants of [Config].  Each call may raise. *)
Record Engine : Type := {
  vendors_df : Type;
  df_empty : vendors_df -> bool;
  get_vendors :
    string -> list string -> option json -> option json -> option json ->
    option json -> py_result vendors_df;
  generate_coverage_grid : string -> Z -> py_result (list GridPoint);
  find_marketing_area_for_points :
    list GridPoint -> string -> py_result (list AreaInfo);
  calculate_coverage_for_grid_vectorized :
    list GridPoint -> vendors_df -> string -> py_result (list Coverage);
  GRID_SIZE_METERS : Z;
  MAX_GRID_POINTS : Z
}.

Fixpoint every_nth {A : Type} (step skip : nat) (l : list A) : list A :=
  match l with
  | [] => []
  | x :: l' =>
      match skip with
      | O => x :: every_nth step (step - 1) l'
      | S k => every_nth step k l'
      end
  end.

(** [l[::step]]; a zero step is a [ValueError]. *)
Definition slice_step {A : Type} (l : list A) (step : Z)
  : py_result (list A) :=
  if step =? 0 then Raises
  else if 0 <? step then Returns (every_nth (Z.to_nat step) 0 l)
  else Returns (every_nth (Z.to_nat (- step)) 0 (rev l)).

(** The body of the [try] block. *)
Definition calculate_body (E : Engine) (city : string)
    (bls : list string) (filters : dict) : py_result Grid :=
  vendors <- get_vendors E city bls
                 (PyDict.get "status_ids" filters)
                 (PyDict.get "grades" filters)
                 (PyDict.get "visible" filters)
                 (PyDict.get "is_open" filters) ;;
  if df_empty E vendors then Returns []
  else
    grid_points <- generate_coverage_grid E city (GRID_SIZE_METERS E) ;;
    match grid_points with
    | [] => Returns []
    | _ :: _ =>
        let len := Z.of_nat (List.length grid_points) in
        grid_points <-
          (if MAX_GRID_POINTS E <? len then
             if MAX_GRID_POINTS E =? 0 then Raises
             else slice_step grid_points (len / MAX_GRID_POINTS E)
           else Returns grid_points) ;;
        point_area_info <- find_marketing_area_for_points E grid_points city ;;
        coverage_results <-
          calculate_coverage_for_grid_vectorized E grid_points vendors city ;;
        Returns (_process_coverage_results coverage_results point_area_info
                                           bls city)
    end.

(** [except Exception: return None] *)
Definition _calculate_coverage_grid (E : Engine) (city : string)
    (bls : list string) (filters : dict) : option Grid :=
  match calculate_body E city bls filters with
  | Returns grid => Some grid
  | Raises => None
  end.

(* ================================================================= *)
(** ** cache_manager.py: [CoverageGridCacheManager] *)

(** The attributes of a manager.  [executor_shutdown] and
    [workers_submitted] are the state of [preload_executor];
    [engine_calls] counts the calls of [_calculate_coverage_grid]. *)
Record Manager : Type := {
  db_manager : Database;
  executor_shutdown : bool;
  workers_submitted : nat;
  preload_queue : list CoverageGridTask;
  is_preloading : bool;
  memory_cache : MemoryCache;
  engine_calls : nat
}.

Definition common_combinations : list Combination :=
  _define_common_combinations.

(** [__init__] *)
Definition new_manager (db : Database) : Manager :=
  {| db_manager := db; executor_shutdown := false; workers_submitted := 0;
     preload_queue := []; is_preloading := false; memory_cache := [];
     engine_calls := 0 |}.

Definition set_db (db : Database) (m : Manager) : Manager :=
  {| db_manager := db; executor_shutdown := executor_shutdown m;
     workers_submitted := workers_submitted m;
     preload_queue := preload_queue m; is_preloading := is_preloading m;
     memory_cache := memory_cache m; engine_calls := engine_calls m |}.

Definition set_memory_cache (mc : MemoryCache) (m : Manager) : Manager :=
  {| db_manager := db_manager m; executor_shutdown := executor_shutdown m;
     workers_submitted := workers_submitted m;
     preload_queue := preload_queue m; is_preloading := is_preloading m;
     memory_cache := mc; engine_calls := engine_calls m |}.

Definition set_preload_queue (q : list CoverageGridTask) (m : Manager)
  : Manager :=
  {| db_manager := db_manager m; executor_shutdown := executor_shutdown m;
     workers_submitted := workers_submitted m;
     preload_queue := q; is_preloading := is_preloading m;
     memory_cache := memory_cache m; engine_calls := engine_calls m |}.

Definition set_is_preloading (b : bool) (m : Manager) : Manager :=
  {| db_manager := db_manager m; executor_shutdown := executor_shutdown m;
     workers_submitted := workers_submitted m;
     preload_queue := preload_queue m; is_preloading := b;
     memory_cache := memory_cache m; engine_calls := engine_calls m |}.

Definition count_engine_call (m : Manager) : Manager :=
  {| db_manager := db_manager m; executor_shutdown := executor_shutdown m;
     workers_submitted := workers_submitted m;
     preload_queue := preload_queue m; is_preloading := is_preloading m;
     memory_cache := memory_cache m; engine_calls := S (engine_calls m) |}.

Definition task_key (t : CoverageGridTask) : string :=
  generate_cache_key (city_name t) (business_lines t) (vendor_filters t) None.

Definition priority_le (a b : CoverageGridTask) : bool :=
  priority a <=? priority b.

Definition _add_to_preload_queue (t : Z) (city : string) (bls : list string)
    (filters : dict) (m : Manager) : Manager :=
  let task := {| city_name := city; business_lines := bls;
                 vendor_filters := filters;
                 priority := _calculate_priority city bls filters;
                 created_at := t |} in
  let cache_key := generate_cache_key city bls filters None in
  let existing_keys := map task_key (preload_queue m) in
  if negb (existsb (String.eqb cache_key) existing_keys) then
    set_preload_queue (sorted priority_le (preload_queue m ++ [task])) m
  else m.

(** A [CoverageGridTask] built from the keys of a combination. *)
Definition task_of_combination (t : Z) (combo : Combination)
  : CoverageGridTask :=
  {| city_name := combo_city_name combo;
     business_lines := combo_business_lines combo;
     vendor_filters := combo_vendor_filters combo;
     priority := combo_priority combo;
     created_at := t |}.

(** [preload_executor.submit]: a [RuntimeError] once the executor has been
    shut down. *)
Definition executor_submit (m : Manager) : Manager * py_result unit :=
  if executor_shutdown m then (m, Raises)
  else
    ({| db_manager := db_manager m; executor_shutdown := false;
        workers_submitted := S (workers_submitted m);
        preload_queue := preload_queue m; is_preloading := is_preloading m;
        memory_cache := memory_cache m; engine_calls := engine_calls m |},
     Returns tt).

Definition start_preloading (t : Z) (m : Manager) : Manager * py_result unit :=
  if is_preloading m then (m, Returns tt)
  else
    let m := set_is_preloading true m in
    let m :=
      fold_left (fun m combo =>
                   set_preload_queue
                     (preload_queue m ++ [task_of_combination t combo]) m)
                common_combinations m in
    let m := set_preload_queue (sorted priority_le (preload_queue m)) m in
    executor_submit m.

Definition stop_preloading (m : Manager) : Manager :=
  {| db_manager := db_manager m; executor_shutdown := true;
     workers_submitted := workers_submitted m;
     preload_queue := preload_queue m; is_preloading := false;
     memory_cache := memory_cache m; engine_calls := engine_calls m |}.

(** [','.join(business_lines) if business_lines else ''] *)
Definition join_business_lines (bls : list string) : string :=
  String.concat "," bls.

(** The second half of [get_or_calculate_coverage_grid], reached when
    neither cache answered: queue the request, compute, and cache a truthy
    result. *)
Definition calculate_and_cache (E : Engine) (env : Env) (m : Manager)
    (city : string) (bls : list string) (filters : dict)
  : Manager * option Grid :=
  let cache_key := generate_cache_key city bls filters None in
  let m := _add_to_preload_queue (now env) city bls filters m in
  let grid_data := _calculate_coverage_grid E city bls filters in
  let m := count_engine_call m in
  match grid_data with
  | Some ((_ :: _) as grid) =>
      (* if grid_data: *)
      let '(db, _) :=
        cache_coverage_grid env (db_manager m) cache_key city
                            (join_business_lines bls) filters grid in
      let m := set_db db m in
      (set_memory_cache
         (_add_to_memory_cache (now env) cache_key grid (memory_cache m)) m,
       grid_data)
  | _ => (m, grid_data)
  end.

Definition get_or_calculate_coverage_grid (E : Engine) (env : Env)
    (m : Manager) (city : string) (bls : list string) (filters : dict)
    (force_recalculate : bool) : Manager * option Grid :=
  let cache_key := generate_cache_key city bls filters None in
  match (if force_recalculate then None
         else PyDict.get cache_key (memory_cache m)) with
  | Some _ =>
      let mc := _update_memory_cache_access (now env) cache_key
                                            (memory_cache m) in
      (set_memory_cache mc m, option_map data (PyDict.get cache_key mc))
  | None =>
      let '(db, cached_data) :=
        if force_recalculate then (db_manager m, None)
        else get_cached_coverage_grid env (db_manager m) cache_key in
      let m := set_db db m in
      match cached_data with
      | Some ((_ :: _) as grid) =>
          (* if cached_data: *)
          (set_memory_cache
             (_add_to_memory_cache (now env) cache_key grid (memory_cache m))
             m, cached_data)
      | _ => calculate_and_cache E env m city bls filters
      end
  end.

(** One turn of the [while self.is_preloading] loop of [_preload_worker]
    (the sleeps are not modelled). *)
Definition preload_worker_turn (E : Engine) (env : Env) (m : Manager)
  : Manager :=
  match preload_queue m with
  | [] => m
  | task :: rest =>
      let m := set_preload_queue rest m in
      let cache_key := task_key task in
      let '(db, cached) :=
        get_cached_coverage_grid env (db_manager m) cache_key in
      let m := set_db db m in
      if truthy cached then m
      else
        let grid_data :=
          _calculate_coverage_grid E (city_name task) (business_lines task)
                                   (vendor_filters task) in
        let m := count_engine_call m in
        match grid_data with
        | Some (p :: ps) =>
            let '(db, _) :=
              cache_coverage_grid env (db_manager m) cache_key
                                  (city_name task)
                                  (join_business_lines (business_lines task))
                                  (vendor_filters task) (p :: ps) in
            set_db db m
        | _ => m
        end
  end.

(** The operations that change the in-memory cache, and a run of them. *)
Inductive cache_op : Type :=
| Put (t : Z) (cache_key : string) (grid : Grid)
| Touch (t : Z) (cache_key : string).

Definition apply_cache_op (mc : MemoryCache) (op : cache_op) : MemoryCache :=
  match op with
  | Put t k grid => _add_to_memory_cache t k grid mc
  | Touch t k => _update_memory_cache_access t k mc
  end.

Definition run_cache_ops (ops : list cache_op) : MemoryCache :=
  fold_left apply_cache_op ops [].

(** Sample data: fifty keys ["A"], ["B"], ... inserted at times 0..49. *)
Definition sample_key (n : nat) : string :=
  String (ascii_of_nat (65 + n)) EmptyString.

Definition full_cache : MemoryCache :=
  run_cache_ops (map (fun n => Put (Z.of_nat n) (sample_key n) []) (seq 0 50)).

Definition sample_row (key : string) (accessed : Z) : CoverageRow :=
  {| cg_cache_key := key; cg_city_name := "tehran";
     cg_business_line := "restaurant"; cg_vendor_filters := filter_all;
     cg_grid_data := []; cg_point_count := 0;
     cg_created_at := 0; cg_last_accessed := accessed |}.

Definition sample_heatmap (key : string) (created : Z) : HeatmapRow :=
  {| hm_cache_key := key; hm_heatmap_type := "orders";
     hm_city_name := "tehran"; hm_date_range := "";
     hm_business_line := "restaurant"; hm_zoom_level := 11;
     hm_heatmap_data := JList []; hm_created_at := created |}.

(** One row last accessed eight days before the call, one a day before;
    one heatmap of each age. *)
Definition aged_db : Database :=
  {| coverage_grid_cache := [sample_row "old" (2 * day);
                             sample_row "new" (9 * day)];
     heatmap_cache := [sample_heatmap "old" (2 * day);
                       sample_heatmap "new" (9 * day)] |}.

Definition empty_db : Database :=
  {| coverage_grid_cache := []; heatmap_cache := [] |}.

Definition sample_coverage : Coverage :=
  {| lat := 35 # 1; lng := 51 # 1; total_vendors := 3;
     by_business_line := [("restaurant"%string, 3)] |}.

Definition sample_grid : Grid :=
  [{| pd_lat := 35 # 1; pd_lng := 51 # 1; pd_coverage := sample_coverage;
      pd_marketing_area := Some "Area 1"%string; pd_target := None |}].

(** Every row of the coverage table holds a non-empty grid: the manager
    writes no other. *)
Definition rows_truthy (db : Database) : Prop :=
  Forall (fun r => cg_grid_data r <> []) (coverage_grid_cache db).

(** The request is in neither tier. *)
Definition uncached (m : Manager) (cache_key : string) : Prop :=
  PyDict.get cache_key (memory_cache m) = None
  /\ find_row cache_key (coverage_grid_cache (db_manager m)) = None.

(** The calls that change a manager. *)
Inductive manager_step (E : Engine) : Manager -> Manager -> Prop :=
| step_get_or_calculate env m city bls filters force :
    manager_step E m
      (fst (get_or_calculate_coverage_grid E env m city bls filters force))
| step_start_preloading t m :
    manager_step E m (fst (start_preloading t m))
| step_stop_preloading m :
    manager_step E m (stop_preloading m)
| step_preload_worker env m :
    manager_step E m (preload_worker_turn E env m).

(** Stub engines: one finds no vendor, one raises, one scores a single
    point. *)
Definition stub_engine (vendors : py_result bool) : Engine :=
  {| vendors_df := bool;
     df_empty := fun empty => empty;
     get_vendors := fun _ _ _ _ _ _ => vendors;
     generate_coverage_grid := fun _ _ => Returns [(35 # 1, 51 # 1)];
     find_marketing_area_for_points :=
       fun _ _ => Returns [(Some "a1"%string, Some "Area 1"%string)];
     calculate_coverage_for_grid_vectorized :=
       fun _ _ _ => Returns [sample_coverage];
     GRID_SIZE_METERS := 200;
     MAX_GRID_POINTS := 1000 |}.

Definition no_vendor_engine : Engine := stub_engine (Returns true).
Definition failing_engine : Engine := stub_engine Raises.
Definition one_point_engine : Engine := stub_engine (Returns false).

Definition sample_env (t : Z) : Env := {| now := t; sqlite_ok := true |}.

(* ================================================================= *)
(** ** Equality of Python values up to the order of dict items *)

Fixpoint distinct (l : list string) : bool :=
  match l with
  | [] => true
  | x :: l' => negb (existsb (String.eqb x) l') && distinct l'
  end.

(** Every dict inside the value has pairwise distinct keys. *)
Fixpoint wf_json (j : json) : bool :=
  match j with
  | JList l => forallb wf_json l
  | JDict items =>
      distinct (map fst items) && forallb (fun kv => wf_json (snd kv)) items
  | _ => true
  end.

(** Two values are the same data when they differ only in the order in
    which dicts, at any depth, list their items. *)
Inductive same_data : json -> json -> Prop :=
| same_refl j : same_data j j
| same_trans a b c : same_data a b -> same_data b c -> same_data a c
| same_list_elem l1 x y l2 :
    same_data x y -> same_data (JList (l1 ++ x :: l2)) (JList (l1 ++ y :: l2))
| same_dict_value l1 k x y l2 :
    same_data x y ->
    same_data (JDict (l1 ++ (k, x) :: l2)) (JDict (l1 ++ (k, y) :: l2))
| same_dict_order items items' :
    Permutation items items' -> same_data (JDict items) (JDict items').

(* ================================================================= *)
(** ** cache_manager.py: [clear_cache] and [warm_up_cache] *)

(** The memory tier is emptied for ["all"] and ["memory"]; the coverage
    table is emptied for ["all"] and ["database"], and an exception of the
    connection is logged and swallowed.  The heatmap table is not touched. *)
Definition clear_cache (env : Env) (cache_type : string) (m : Manager)
  : Manager :=
  let m :=
    if String.eqb cache_type "all" || String.eqb cache_type "memory"
    then set_memory_cache [] m else m in
  if String.eqb cache_type "all" || String.eqb cache_type "database" then
    if sqlite_ok env then
      set_db {| coverage_grid_cache := [];
                heatmap_cache := heatmap_cache (db_manager m) |} m
    else m
  else m.

(** The combinations [warm_up_cache] selects; [None] stands for the
    default argument, which becomes [["tehran"]]. *)
Definition high_priority_combos (priority_cities : option (list string))
  : list Combination :=
  let priority_cities :=
    match priority_cities with
    | None => ["tehran"%string]
    | Some cities => cities
    end in
  filter (fun combo =>
            existsb (String.eqb (combo_city_name combo)) priority_cities
            && (combo_priority combo <=? 2))
         common_combinations.

(** The loop of [warm_up_cache]; [env i] is the clock and the state of
    SQLite during the call made for the [i]-th combination. *)
Fixpoint warm_up_loop (E : Engine) (env : nat -> Env) (i : nat)
    (combos : list Combination) (m : Manager) : Manager :=
  match combos with
  | [] => m
  | combo :: rest =>
      warm_up_loop E env (S i) rest
        (fst (get_or_calculate_coverage_grid
                E (env i) m (combo_city_name combo)
                (combo_business_lines combo) (combo_vendor_filters combo)
                false))
  end.

Definition warm_up_cache (E : Engine) (env : nat -> Env)
    (priority_cities : option (list string)) (m : Manager) : Manager :=
  warm_up_loop E env 0 (high_priority_combos priority_cities) m.

(* ================================================================= *)
(** ** models.py: the heatmap cache and the metadata table *)

(** An integer SQLite can bind: a signed 64-bit value.  Binding any other
    is an [OverflowError]. *)
Definition sqlite_int64 (n : Z) : bool :=
  (- 2 ^ 63 <=? n) && (n <? 2 ^ 63).

(** The exception of a failing connection and that of a [zoom_level] that
    cannot be bound are both caught: [False] is returned and nothing is
    stored. *)
Definition cache_heatmap (env : Env) (db : Database)
    (cache_key heatmap_type city date_range business_line : string)
    (zoom_level : Z) (heatmap_data : json) : Database * bool :=
  if sqlite_ok env && sqlite_int64 zoom_level then
    ({| coverage_grid_cache := coverage_grid_cache db;
        heatmap_cache :=
          filter (fun r => negb (String.eqb (hm_cache_key r) cache_key))
                 (heatmap_cache db)
          ++ [{| hm_cache_key := cache_key; hm_heatmap_type := heatmap_type;
                 hm_city_name := city; hm_date_range := date_range;
                 hm_business_line := business_line;
                 hm_zoom_level := zoom_level;
                 hm_heatmap_data := heatmap_data;
                 hm_created_at := now env |}] |}, true)
  else (db, false).

(** A read only: the table is left as it is. *)
Definition get_cached_heatmap (env : Env) (db : Database) (cache_key : string)
  : option json :=
  if sqlite_ok env then
    match find (fun r => String.eqb (hm_cache_key r) cache_key)
               (heatmap_cache db) with
    | Some r => Some (hm_heatmap_data r)
    | None => None
    end
  else None.

(** The metadata table ([key] is its primary key).  It is kept apart from
    the two cache tables. *)
Record MetadataRow : Type := {
  md_key : string;
  md_value : string;
  md_updated_at : Z
}.

Definition Metadata : Type := list MetadataRow.

(** No [try]: an exception of the connection reaches the caller. *)
Definition get_metadata (env : Env) (table : Metadata) (key : string)
  : py_result (option string) :=
  if sqlite_ok env then
    Returns (match find (fun r => String.eqb (md_key r) key) table with
             | Some r => Some (md_value r)
             | None => None
             end)
  else Raises.

Definition set_metadata (env : Env) (table : Metadata) (key value : string)
  : py_result Metadata :=
  if sqlite_ok env then
    Returns (filter (fun r => negb (String.eqb (md_key r) key)) table
             ++ [{| md_key := key; md_value := value;
                    md_updated_at := now env |}])
  else Raises.

(* ================================================================= *)
(** ** models.py: the queries of [get_vendors] and [get_orders] *)

(** [where_conditions] and [params] as the two functions build them. *)
Definition Query : Type := (list string * list json)%type.

(** [','.join(['?' for _ in values])] *)
Definition placeholders (n : nat) : string :=
  String.concat "," (repeat "?"%string n).

(** [if values:] followed by the [IN (...)] condition. *)
Definition add_in (column : string) (values : list json) (q : Query)
  : Query :=
  match values with
  | [] => q
  | _ :: _ =>
      (fst q ++ [(column ++ " IN ("
                  ++ placeholders (List.length values) ++ ")")%string],
       snd q ++ values)
  end.

(** A condition with one placeholder, added when the value is there. *)
Definition add_cmp (condition : string) (value : option json) (q : Query)
  : Query :=
  match value with
  | Some v => (fst q ++ [condition], snd q ++ [v])
  | None => q
  end.

(** ["WHERE " + " AND ".join(where_conditions) if where_conditions else ""] *)
Definition where_clause (where_conditions : list string) : string :=
  match where_conditions with
  | [] => EmptyString
  | _ :: _ => ("WHERE " ++ String.concat " AND " where_conditions)%string
  end.

Definition opt_list {A : Type} (l : option (list A)) : list A :=
  match l with
  | Some l => l
  | None => []
  end.

(** [if city_name and city_name != "all"] *)
Definition city_filter (city : option string) : option json :=
  match city with
  | Some c =>
      if String.eqb c "" || String.eqb c "all" then None else Some (JStr c)
  | None => None
  end.

(** The SQL text and the parameters [get_vendors] hands to
    [pd.read_sql_query]. *)
Definition get_vendors_query (city : option string)
    (bls vendor_codes : option (list string)) (status_ids : option (list Z))
    (grades : option (list string)) (visible is_open : option Z)
  : string * list json :=
  let q : Query := ([], []) in
  let q := add_cmp "city_name = ?" (city_filter city) q in
  let q := add_in "business_line" (map JStr (opt_list bls)) q in
  let q := add_in "vendor_code" (map JStr (opt_list vendor_codes)) q in
  let q := add_in "status_id" (map JInt (opt_list status_ids)) q in
  let q := add_in "grade" (map JStr (opt_list grades)) q in
  let q := add_cmp "visible = ?" (option_map JInt visible) q in
  let q := add_cmp "open = ?" (option_map JInt is_open) q in
  (("SELECT * FROM vendors " ++ where_clause (fst q))%string, snd q).

Definition newline : string := String (ascii_of_nat 10) EmptyString.

(** The SQL text and the parameters of [get_orders]; the two dates are
    time stamps. *)
Definition get_orders_query (city : option string)
    (start_date end_date : option Z) (bls vendor_codes : option (list string))
  : string * list json :=
  let q : Query := ([], []) in
  let q := add_cmp "city_name = ?" (city_filter city) q in
  let q := add_cmp "created_at >= ?" (option_map JInt start_date) q in
  let q := add_cmp "created_at <= ?" (option_map JInt end_date) q in
  let q := add_in "business_line" (map JStr (opt_list bls)) q in
  let q := add_in "vendor_code" (map JStr (opt_list vendor_codes)) q in
  ((newline ++ "            SELECT * FROM orders " ++ newline
    ++ "            " ++ where_clause (fst q) ++ newline
    ++ "            ORDER BY created_at DESC" ++ newline
    ++ "        ")%string, snd q).

Fixpoint count_char (c : ascii) (s : string) : nat :=
  match s with
  | EmptyString => 0
  | String c' s' => (if Ascii.eqb c c' then 1 else 0) + count_char c s'
  end.

(** The number of [?] placeholders of an SQL text. *)
Definition placeholder_count (sql : string) : nat :=
  count_char (ascii_of_nat 63) sql.

(* ================================================================= *)
(** ** [INSERT OR REPLACE] on a table with a unique key *)

Section Upsert.

Context {A : Type} (key_of : A -> string).

Definition has_key (key : string) (x : A) : bool := String.eqb (key_of x) key.

(** The row that holds the key of [x], if any, is deleted, and [x] is
    inserted. *)
Definition upsert (x : A) (rows : list A) : list A :=
  filter (fun r => negb (has_key (key_of x) r)) rows ++ [x].

End Upsert.

(** The placeholders of the conditions are as many as the parameters. *)
Definition query_balanced (q : Query) : Prop :=
  list_sum (map placeholder_count (fst q)) = List.length (snd q).

(** What a filter argument contributes to [params]. *)
Definition param_of (value : option json) : list json :=
  match value with
  | Some v => [v]
  | None => []
  end.

(* ================================================================= *)
(** ** cache_manager.py: the grid limit and the key format *)

(** The step "Limit grid size for performance" of
    [_calculate_coverage_grid], as it stands in [calculate_body]. *)
Definition limit_grid_points {A : Type} (max_grid_points : Z)
    (grid_points : list A) : py_result (list A) :=
  let len := Z.of_nat (List.length grid_points) in
  if max_grid_points <? len then
    if max_grid_points =? 0 then Raises
    else slice_step grid_points (len / max_grid_points)
  else Returns grid_points.

(** A lower-case hexadecimal digit. *)
Definition is_hex_char (c : ascii) : bool :=
  let n := Z.of_N (N_of_ascii c) in
  ((48 <=? n) && (n <=? 57)) || ((97 <=? n) && (n <=? 102)).

(** A character of the printable ASCII range [' '..'~'], and a string of
    such characters: its UTF-8 encoding has one byte per character. *)
Definition printable_char (c : ascii) : bool :=
  let n := Z.of_N (N_of_ascii c) in (32 <=? n) && (n <=? 126).

Definition printable (s : string) : bool :=
  forallb printable_char (list_ascii_of_string s).

(* ================================================================= *)
(** ** The states of a manager *)

(** A database as the manager keeps it: non-empty grids, and one row per
    cache key. *)
Definition db_consistent (db : Database) : Prop :=
  rows_truthy db /\ NoDup (map cg_cache_key (coverage_grid_cache db)).

(** All public calls that change a manager. *)
Inductive manager_call (E : Engine) : Manager -> Manager -> Prop :=
| call_step m m' : manager_step E m m' -> manager_call E m m'
| call_clear_cache env cache_type m :
    manager_call E m (clear_cache env cache_type m)
| call_warm_up_cache env priority_cities m :
    manager_call E m (warm_up_cache E env priority_cities m).

(** The states a manager can be in once [stop_preloading] has been
    called. *)
Inductive after_stop (E : Engine) : Manager -> Prop :=
| after_stop_now m : after_stop E (stop_preloading m)
| after_stop_call m m' :
    after_stop E m -> manager_call E m m' -> after_stop E m'.

(** What a worker thread does when it comes to the test of its loop,
    [while self.is_preloading]: one more turn, or the end of the thread
    ([false]). *)
Definition preload_worker_iteration (E : Engine) (env : Env) (m : Manager)
  : Manager * bool :=
  if is_preloading m then (preload_worker_turn E env m, true)
  else (m, false).

Inductive reachable (E : Engine) : Manager -> Prop :=
| reachable_new db : db_consistent db -> reachable E (new_manager db)
| reachable_call m m' :
    reachable E m -> manager_call E m m' -> reachable E m'.

(** The entries of the in-memory cache hold non-empty grids. *)
Definition entries_truthy (mc : MemoryCache) : Prop :=
  Forall (fun kv => data (snd kv) <> []) mc.

Definition queue_ordered (q : list CoverageGridTask) : Prop :=
  StronglySorted (holds priority_le) q.

(** What the manager keeps true of itself from one public call to the
    next. *)
Definition manager_inv (m : Manager) : Prop :=
  PyDict.wf (memory_cache m)
  /\ (List.length (memory_cache m) <= max_memory_cache_size)%nat
  /\ entries_truthy (memory_cache m)
  /\ db_consistent (db_manager m)
  /\ queue_ordered (preload_queue m).

(** Sample states: a manager with one pending request, and a database that
    holds the grid of that request. *)
Definition queued_manager (db : Database) : Manager :=
  _add_to_preload_queue 0 "tehran" ["restaurant"%string] filter_all
                        (new_manager db).

Definition cached_db : Database :=
  fst (cache_coverage_grid
         (sample_env 0) empty_db
         (generate_cache_key "tehran" ["restaurant"%string] filter_all None)
         "tehran" "restaurant" filter_all sample_grid).

(* ================================================================= *)
(** * Properties *)

Example md5_empty :
  MD5.hexdigest "" = "d41d8cd98f00b204e9800998ecf8427e"%string.
Proof. vm_compute. reflexivity. Qed.

Example md5_abc :
  MD5.hexdigest "abc" = "900150983cd24fb0d6963f7d28e17f72"%string.
Proof. vm_compute. reflexivity. Qed.

Example key_tehran_restaurant :
  generate_cache_key "tehran" ["restaurant"%string] filter_all None
  = "02a97ee6394a738e419d77ee3cc346d1"%string.
Proof. vm_compute. reflexivity. Qed.

Example dumps_escapes :
  Json.dumps (JDict [(Json.chars [ascii_of_nat 97; Json.dquote; ascii_of_nat 98; Json.backslash; ascii_of_nat 99; ascii_of_nat 10; ascii_of_nat 127; ascii_of_nat 1; ascii_of_nat 233], JList [JBool true; JBool false; JInt (-3); JDict []]); ("Z"%string, JDict [])])
  = Json.chars (map ascii_of_nat [123;34;90;34;58;32;123;125;44;32;34;97;92;34;98;92;92;99;92;110;92;117;48;48;55;102;92;117;48;48;48;49;92;117;48;48;101;57;34;58;32;91;116;114;117;101;44;32;102;97;108;115;101;44;32;45;51;44;32;123;125;93;125]%nat).
Proof. vm_compute. reflexivity. Qed.

(* ----------------------------------------------------------------- *)
(** *** [sorted] yields the one ordered arrangement of its input *)

Section SortedFacts.

Context {A : Type} (le : A -> A -> bool).
Hypothesis le_total : forall a b, le a b = true \/ le b a = true.
Hypothesis le_trans :
  forall a b c, le a b = true -> le b c = true -> le a c = true.

Lemma insert_sorted_perm x l : Permutation (x :: l) (insert_sorted le x l).
Proof.
  induction l as [|y l IH]; simpl; [reflexivity|].
  destruct (le x y); [reflexivity|].
  rewrite perm_swap. now constructor.
Qed.

Lemma sorted_perm l : Permutation l (sorted le l).
Proof.
  induction l as [|x l IH]; simpl; [constructor|].
  rewrite <- insert_sorted_perm. now constructor.
Qed.

Lemma insert_sorted_ordered x l :
  StronglySorted (holds le) l -> StronglySorted (holds le) (insert_sorted le x l).
Proof.
  induction 1 as [|y l Hs IH Hy]; simpl.
  - repeat constructor.
  - destruct (le x y) eqn:Hxy.
    + constructor; [now constructor|].
      constructor; [exact Hxy|].
      eapply Forall_impl; [|exact Hy].
      intros z Hz. exact (le_trans _ _ _ Hxy Hz).
    + constructor; [exact IH|].
      eapply Permutation_Forall; [apply insert_sorted_perm|].
      constructor; [|exact Hy].
      destruct (le_total x y) as [H|H]; [congruence|exact H].
Qed.

Lemma sorted_ordered l : StronglySorted (holds le) (sorted le l).
Proof.
  induction l; simpl; [constructor|now apply insert_sorted_ordered].
Qed.

(** Two ordered lists with the same elements are the same list, provided
    elements that compare equal are equal. *)
Lemma ordered_perm_eq l1 :
  forall l2,
    StronglySorted (holds le) l1 -> StronglySorted (holds le) l2 -> Permutation l1 l2 ->
    (forall a b, In a l1 -> In b l1 -> (holds le) a b -> (holds le) b a -> a = b) ->
    l1 = l2.
Proof.
  induction l1 as [|a l1 IH]; intros l2 H1 H2 HP Hanti.
  - now apply Permutation_nil in HP.
  - destruct l2 as [|b l2].
    + apply Permutation_sym, Permutation_nil in HP. discriminate.
    + apply StronglySorted_inv in H1 as [H1 Ha].
      apply StronglySorted_inv in H2 as [H2 Hb].
      assert (Hab : a = b).
      { assert (Hin_a : In a (b :: l2))
          by (eapply Permutation_in; [exact HP|now left]).
        assert (Hin_b : In b (a :: l1))
          by (eapply Permutation_in;
              [apply Permutation_sym; exact HP|now left]).
        destruct Hin_a as [->|Hin_a]; [reflexivity|].
        destruct Hin_b as [->|Hin_b]; [reflexivity|].
        rewrite Forall_forall in Ha, Hb.
        apply Hanti; [now left|now right|now apply Ha|now apply Hb]. }
      subst b. f_equal.
      apply IH; auto.
      * now apply Permutation_cons_inv in HP.
      * intros x y Hx Hy. apply Hanti; now right.
Qed.

Lemma sorted_canonical l1 l2 :
  Permutation l1 l2 ->
  (forall a b, In a l1 -> In b l1 ->
               le a b = true -> le b a = true -> a = b) ->
  sorted le l1 = sorted le l2.
Proof.
  intros HP Hanti.
  apply ordered_perm_eq; try apply sorted_ordered.
  - rewrite <- !sorted_perm. exact HP.
  - intros a b Ha Hb. apply Hanti;
      (eapply Permutation_in; [apply Permutation_sym, sorted_perm|]);
      assumption.
Qed.

End SortedFacts.

(** Sorting by a key commutes with a map that keeps the key. *)
Lemma insert_sorted_map {A B : Type} (leA : A -> A -> bool)
    (leB : B -> B -> bool) (f : A -> B)
    (Hf : forall a b, leB (f a) (f b) = leA a b) x l :
  insert_sorted leB (f x) (map f l) = map f (insert_sorted leA x l).
Proof.
  induction l as [|y l IH]; simpl; [reflexivity|].
  rewrite Hf. destruct (leA x y); simpl; [reflexivity|now rewrite IH].
Qed.

Lemma sorted_map {A B : Type} (leA : A -> A -> bool) (leB : B -> B -> bool)
    (f : A -> B) (Hf : forall a b, leB (f a) (f b) = leA a b) l :
  sorted leB (map f l) = map f (sorted leA l).
Proof.
  induction l as [|x l IH]; simpl; [reflexivity|].
  rewrite IH. now apply insert_sorted_map.
Qed.

(** [dumps] sorts the serialised pairs; sorting the items first and
    serialising them afterwards, as the encoder does, is the same. *)
Lemma sorted_items_map (items : list (string * json)) :
  sorted Json.key_le (map (fun kv => (fst kv, Json.dumps (snd kv))) items)
  = map (fun kv => (fst kv, Json.dumps (snd kv))) (sorted Json.key_le items).
Proof. apply sorted_map. reflexivity. Qed.

(* ----------------------------------------------------------------- *)
(** *** The order of strings *)

Lemma ascii_compare_lt_trans a b c :
  Ascii.compare a b = Lt -> Ascii.compare b c = Lt -> Ascii.compare a c = Lt.
Proof.
  unfold Ascii.compare. rewrite !N.compare_lt_iff. lia.
Qed.

Lemma string_compare_lt_trans a :
  forall b c, String.compare a b = Lt -> String.compare b c = Lt ->
              String.compare a c = Lt.
Proof.
  induction a as [|x a IH]; intros [|y b] [|z c]; simpl; try congruence.
  destruct (Ascii.compare x y) eqn:Hxy; try discriminate;
    destruct (Ascii.compare y z) eqn:Hyz; try discriminate; intros H1 H2.
  - apply Ascii.compare_eq_iff in Hxy, Hyz. subst.
    replace (Ascii.compare z z) with Eq
      by (symmetry; apply N.compare_refl).
    now apply (IH b c).
  - apply Ascii.compare_eq_iff in Hxy. subst. now rewrite Hyz.
  - apply Ascii.compare_eq_iff in Hyz. subst. now rewrite Hxy.
  - now rewrite (ascii_compare_lt_trans _ _ _ Hxy Hyz).
Qed.

Lemma string_leb_trans a b c :
  String.leb a b = true -> String.leb b c = true -> String.leb a c = true.
Proof.
  unfold String.leb.
  destruct (String.compare a b) eqn:Hab; try discriminate;
    destruct (String.compare b c) eqn:Hbc; try discriminate; intros _ _.
  - apply String.compare_eq_iff in Hab. subst. now rewrite Hbc.
  - apply String.compare_eq_iff in Hab. subst. now rewrite Hbc.
  - apply String.compare_eq_iff in Hbc. subst. now rewrite Hab.
  - now rewrite (string_compare_lt_trans _ _ _ Hab Hbc).
Qed.

(* ----------------------------------------------------------------- *)
(** *** [json.dumps(sort_keys=True)] does not see the order of dict items *)

Lemma distinct_NoDup l : distinct l = true <-> NoDup l.
Proof.
  induction l as [|x l IH]; simpl.
  - split; [constructor|reflexivity].
  - rewrite andb_true_iff, negb_true_iff, IH, NoDup_cons_iff.
    assert (Hx : existsb (String.eqb x) l = false <-> ~ In x l).
    { rewrite <- not_true_iff_false, existsb_exists.
      split; intros H Hin; apply H.
      - exists x. now rewrite String.eqb_refl.
      - destruct Hin as (y & Hy & Heq). apply String.eqb_eq in Heq. now subst. }
    now rewrite Hx.
Qed.

Lemma distinct_perm l l' : Permutation l l' -> distinct l = distinct l'.
Proof.
  intros HP. apply eq_true_iff_eq. rewrite !distinct_NoDup.
  split; apply Permutation_NoDup; [exact HP|now apply Permutation_sym].
Qed.

Lemma forallb_perm {A : Type} (f : A -> bool) l l' :
  Permutation l l' -> forallb f l = forallb f l'.
Proof.
  induction 1; simpl; try congruence.
  now rewrite !andb_assoc, (andb_comm (f y)).
Qed.

Lemma NoDup_keys_inj {V : Type} (l : list (string * V)) a b :
  NoDup (map fst l) -> In a l -> In b l -> fst a = fst b -> a = b.
Proof.
  induction l as [|x l IH]; simpl; [tauto|].
  rewrite NoDup_cons_iff. intros [Hx Hl] [->|Ha] [->|Hb] Heq; auto.
  - exfalso. apply Hx. rewrite Heq. now apply in_map.
  - exfalso. apply Hx. rewrite <- Heq. now apply in_map.
Qed.

Lemma key_le_total {V : Type} (a b : string * V) :
  Json.key_le a b = true \/ Json.key_le b a = true.
Proof. apply String.leb_total. Qed.

Lemma key_le_trans {V : Type} (a b c : string * V) :
  Json.key_le a b = true -> Json.key_le b c = true -> Json.key_le a c = true.
Proof. apply string_leb_trans. Qed.

Lemma sorted_items_perm {V : Type} (l l' : list (string * V)) :
  Permutation l l' -> distinct (map fst l) = true ->
  sorted Json.key_le l = sorted Json.key_le l'.
Proof.
  intros HP Hd. apply distinct_NoDup in Hd.
  apply sorted_canonical.
  - apply key_le_total.
  - apply key_le_trans.
  - exact HP.
  - intros a b Ha Hb Hab Hba.
    apply (NoDup_keys_inj l); auto.
    now apply String.leb_antisym.
Qed.

Lemma dumps_same_data a b :
  same_data a b ->
  wf_json a = true -> wf_json b = true /\ Json.dumps a = Json.dumps b.
Proof.
  induction 1 as [j|a b c _ IH1 _ IH2|l1 x y l2 _ IH|l1 k x y l2 _ IH
                  |items items' HP]; intros Hwf.
  - now split.
  - destruct (IH1 Hwf) as [Hb E1]. destruct (IH2 Hb) as [Hc E2].
    split; [exact Hc|congruence].
  - simpl in *. rewrite forallb_app in *. simpl in *.
    apply andb_true_iff in Hwf as [H1 Hwf].
    apply andb_true_iff in Hwf as [Hx H2].
    destruct (IH Hx) as [Hy E].
    split; [now rewrite H1, Hy, H2|].
    now rewrite !map_app; simpl; rewrite E.
  - simpl in *. rewrite !map_app, forallb_app in *. simpl in *.
    apply andb_true_iff in Hwf as [Hd Hwf].
    apply andb_true_iff in Hwf as [H1 Hwf].
    apply andb_true_iff in Hwf as [Hx H2].
    destruct (IH Hx) as [Hy E].
    split; [now rewrite Hd, H1, Hy, H2|].
    now rewrite E.
  - simpl in *. apply andb_true_iff in Hwf as [Hd Hf].
    split.
    + rewrite <- (distinct_perm _ _ (Permutation_map fst HP)), Hd.
      now rewrite <- (forallb_perm _ _ _ HP).
    + rewrite (sorted_items_perm
                 _ _ (Permutation_map
                        (fun kv => (fst kv, Json.dumps (snd kv))) HP));
        [reflexivity|].
      now rewrite map_map.
Qed.

Lemma sorted_business_lines_perm bls bls' :
  Permutation bls bls' ->
  match bls with [] => [] | _ => sorted String.leb bls end
  = match bls' with [] => [] | _ => sorted String.leb bls' end.
Proof.
  intros HP.
  assert (E : sorted String.leb bls = sorted String.leb bls').
  { apply sorted_canonical.
    - apply String.leb_total.
    - apply string_leb_trans.
    - exact HP.
    - intros a b _ _. apply String.leb_antisym. }
  destruct bls, bls'; auto.
Qed.

Lemma dumps_dict_ext items items' :
  map fst items = map fst items' ->
  map (fun kv => Json.dumps (snd kv)) items
  = map (fun kv => Json.dumps (snd kv)) items' ->
  Json.dumps (JDict items) = Json.dumps (JDict items').
Proof.
  intros Hk Hv.
  assert (E : map (fun kv => (fst kv, Json.dumps (snd kv))) items
              = map (fun kv => (fst kv, Json.dumps (snd kv))) items').
  { revert items' Hk Hv.
    induction items as [|a items IH]; intros [|b items']; simpl;
      try discriminate; [reflexivity|].
    intros [= Hk1 Hk2] [= Hv1 Hv2]. rewrite Hk1, Hv1. f_equal. now apply IH. }
  simpl. now rewrite E.
Qed.

(** C6. [generate_cache_key] is a function of its arguments that returns the
    same key when [business_lines] is reordered and when the items of
    [vendor_filters] and of [additional_params] are listed in another order
    (dicts nested inside them included); [None] and the empty dict as
    [additional_params] give the same key. *)
Theorem generate_cache_key_order_insensitive
    (city : string) (bls bls' : list string) (filters filters' : dict)
    (extra extra' : dict) :
  Permutation bls bls' ->
  same_data (JDict filters) (JDict filters') ->
  same_data (JDict extra) (JDict extra') ->
  wf_json (JDict filters) = true ->
  wf_json (JDict extra) = true ->
  generate_cache_key city bls filters (Some extra)
  = generate_cache_key city bls' filters' (Some extra')
  /\ generate_cache_key city bls filters None
     = generate_cache_key city bls' filters' None
  /\ generate_cache_key city bls filters None
     = generate_cache_key city bls filters (Some []).
Proof.
  intros Hbls Hf He Hwf Hwe.
  destruct (dumps_same_data _ _ Hf Hwf) as [_ Ef].
  destruct (dumps_same_data _ _ He Hwe) as [Hwe' Ee].
  assert (Eo : Json.dumps (JDict (or_empty (Some extra)))
               = Json.dumps (JDict (or_empty (Some extra')))).
  { replace (or_empty (Some extra)) with extra by now destruct extra.
    replace (or_empty (Some extra')) with extra' by now destruct extra'.
    exact Ee. }
  pose proof (sorted_business_lines_perm _ _ Hbls) as Eb.
  unfold generate_cache_key.
  repeat split.
  - f_equal. apply dumps_dict_ext; [reflexivity|].
    cbn [map snd]. now rewrite Eb, Ef, Eo.
  - f_equal. apply dumps_dict_ext; [reflexivity|].
    cbn [map snd]. now rewrite Eb, Ef.
Qed.

Lemma generate_cache_key_order_insensitive_witness :
  generate_cache_key "tehran" ["restaurant"; "coffee"]%string filter_all
    (Some [("zoom"%string, JDict [("a"%string, JInt 1); ("b"%string, JNull)])])
  = generate_cache_key "tehran" ["coffee"; "restaurant"]%string
      (rev filter_all)
      (Some [("zoom"%string, JDict [("b"%string, JNull); ("a"%string, JInt 1)])]).
Proof.
  apply (generate_cache_key_order_insensitive
           "tehran" ["restaurant"; "coffee"]%string
           ["coffee"; "restaurant"]%string filter_all (rev filter_all)
           [("zoom"%string, JDict [("a"%string, JInt 1); ("b"%string, JNull)])]
           [("zoom"%string, JDict [("b"%string, JNull); ("a"%string, JInt 1)])]).
  - apply perm_swap.
  - apply same_dict_order, Permutation_rev.
  - apply (same_dict_value [] "zoom"%string _ _ []).
    apply same_dict_order, perm_swap.
  - reflexivity.
  - reflexivity.
Defined.

(* ----------------------------------------------------------------- *)
(** *** Dict operations *)

Module PyDictFacts.

Import PyDict.

Section Facts.

Context {V : Type}.
Implicit Types (d : PyDict.t V) (k : string) (v : V).

Lemma get_In k v d : get k d = Some v -> In (k, v) d.
Proof.
  induction d as [|[k' v'] d IH]; simpl; [discriminate|].
  destruct (String.eqb_spec k k') as [->|Hne].
  - intros [= ->]. now left.
  - intros H. right. now apply IH.
Qed.

Lemma get_None k d : get k d = None <-> ~ In k (keys d).
Proof.
  induction d as [|[k' v'] d IH]; simpl; [tauto|].
  destruct (String.eqb_spec k k') as [->|Hne].
  - split; [discriminate|intros H; exfalso; apply H; now left].
  - rewrite IH. split; intros H; [intros [E|Hin]; congruence|tauto].
Qed.

Lemma In_get k v d : wf d -> In (k, v) d -> get k d = Some v.
Proof.
  unfold wf. induction d as [|[k' v'] d IH]; simpl; [tauto|].
  rewrite NoDup_cons_iff. intros [Hk Hd] [[= -> ->]|Hin].
  - now rewrite String.eqb_refl.
  - destruct (String.eqb_spec k k') as [->|Hne]; [|now apply IH].
    exfalso. apply Hk. change k' with (fst (k', v)). now apply in_map.
Qed.

Lemma get_set_same k v d : get k (set k v d) = Some v.
Proof.
  induction d as [|[k' v'] d IH]; simpl.
  - now rewrite String.eqb_refl.
  - destruct (String.eqb_spec k k') as [->|Hne]; simpl.
    + now rewrite String.eqb_refl.
    + destruct (String.eqb_spec k k'); [contradiction|exact IH].
Qed.

Lemma get_set_other k k' v d : k <> k' -> get k' (set k v d) = get k' d.
Proof.
  intros Hne. induction d as [|[k0 v0] d IH]; simpl.
  - destruct (String.eqb_spec k' k); [now subst|reflexivity].
  - destruct (String.eqb_spec k k0) as [->|Hne0]; simpl.
    + destruct (String.eqb_spec k' k0); [now subst|reflexivity].
    + now rewrite IH.
Qed.

Lemma get_del_other k k' d : k <> k' -> get k' (del k d) = get k' d.
Proof.
  intros Hne. induction d as [|[k0 v0] d IH]; simpl; [reflexivity|].
  destruct (String.eqb_spec k k0) as [->|Hne0]; simpl.
  - destruct (String.eqb_spec k' k0); [now subst|reflexivity].
  - now rewrite IH.
Qed.

Lemma keys_del_incl k d : incl (keys (del k d)) (keys d).
Proof.
  induction d as [|[k0 v0] d IH]; simpl; [apply incl_refl|].
  destruct (String.eqb k k0); simpl.
  - apply incl_tl, incl_refl.
  - intros x [->|Hx]; [now left|right; now apply IH].
Qed.

Lemma wf_del k d : wf d -> wf (del k d).
Proof.
  unfold wf. induction d as [|[k0 v0] d IH]; simpl; [auto|].
  rewrite NoDup_cons_iff. intros [Hk Hd].
  destruct (String.eqb k k0); simpl; [exact Hd|].
  constructor; [|now apply IH].
  intros Hin. apply Hk. now apply (keys_del_incl k d).
Qed.

Lemma get_del_same k d : wf d -> get k (del k d) = None.
Proof.
  unfold wf. induction d as [|[k0 v0] d IH]; simpl; [reflexivity|].
  rewrite NoDup_cons_iff. intros [Hk Hd].
  destruct (String.eqb_spec k k0) as [->|Hne]; simpl.
  - now apply get_None.
  - destruct (String.eqb_spec k k0); [contradiction|now apply IH].
Qed.

Lemma keys_set k v d :
  keys (set k v d) = if mem k d then keys d else (keys d ++ [k])%list.
Proof.
  unfold mem. induction d as [|[k0 v0] d IH]; simpl; [reflexivity|].
  destruct (String.eqb_spec k k0) as [->|Hne]; simpl; [reflexivity|].
  rewrite IH. now destruct (get k d).
Qed.

Lemma wf_set k v d : wf d -> wf (set k v d).
Proof.
  unfold wf. rewrite keys_set. unfold mem.
  destruct (get k d) eqn:Hg; [auto|].
  intros Hd. apply get_None in Hg.
  apply (Permutation_NoDup (l := k :: keys d)).
  - apply Permutation_cons_append.
  - now constructor.
Qed.

Lemma length_set k v d :
  List.length (set k v d)
  = if mem k d then List.length d else S (List.length d).
Proof.
  unfold mem. induction d as [|[k0 v0] d IH]; simpl; [reflexivity|].
  destruct (String.eqb_spec k k0) as [->|Hne]; simpl; [reflexivity|].
  rewrite IH. now destruct (get k d).
Qed.

Lemma length_del k d :
  In k (keys d) -> S (List.length (del k d)) = List.length d.
Proof.
  induction d as [|[k0 v0] d IH]; simpl; [tauto|].
  destruct (String.eqb_spec k k0) as [->|Hne]; simpl; [reflexivity|].
  intros [E|Hin]; [congruence|]. now rewrite IH.
Qed.

End Facts.

End PyDictFacts.

(* ----------------------------------------------------------------- *)
(** *** The in-memory cache: bound and eviction *)

Section MemoryCacheFacts.

Import PyDictFacts.

Lemma fold_older_spec rest :
  forall kv,
    let best := fold_left older rest kv in
    In best (kv :: rest)
    /\ Forall (fun x => last_accessed (snd best) <= last_accessed (snd x))
              (kv :: rest).
Proof.
  induction rest as [|x rest IH]; intros kv; simpl.
  - split; [now left|]. constructor; [lia|constructor].
  - assert (Hb : (older kv x = kv \/ older kv x = x)
                 /\ last_accessed (snd (older kv x))
                    <= last_accessed (snd kv)
                 /\ last_accessed (snd (older kv x))
                    <= last_accessed (snd x)).
    { unfold older.
      destruct (last_accessed (snd x) <? last_accessed (snd kv)) eqn:Hlt;
        [apply Z.ltb_lt in Hlt|apply Z.ltb_ge in Hlt];
        (split; [auto|lia]). }
    destruct Hb as (Hor & Hkv & Hx).
    destruct (IH (older kv x)) as [Hin Hall].
    apply Forall_cons_iff in Hall as [Hhd Hall].
    split.
    + destruct Hin as [Hin|Hin]; [|now right; right].
      rewrite <- Hin. destruct Hor as [->| ->]; [now left|now right; left].
    + repeat constructor; try lia. exact Hall.
Qed.

(** The oldest key names an entry of the cache whose [last_accessed] is
    the least of all. *)
Lemma oldest_key_spec (mc : MemoryCache) k :
  PyDict.wf mc -> oldest_key mc = Some k ->
  exists e, PyDict.get k mc = Some e
            /\ forall k' e', PyDict.get k' mc = Some e' ->
                             last_accessed e <= last_accessed e'.
Proof.
  intros Hwf. destruct mc as [|kv rest]; [discriminate|].
  unfold oldest_key. intros [= <-].
  destruct (fold_older_spec rest kv) as [Hin Hall].
  set (best := fold_left older rest kv) in *.
  exists (snd best). split.
  - apply (In_get _ _ (kv :: rest)); [exact Hwf|]. now destruct best.
  - intros k' e' Hget. apply get_In in Hget.
    rewrite Forall_forall in Hall. exact (Hall _ Hget).
Qed.

Lemma oldest_key_nonempty (mc : MemoryCache) :
  mc <> [] -> exists k, oldest_key mc = Some k.
Proof. destruct mc; [congruence|]. intros _. eexists. reflexivity. Qed.

Lemma eviction_victim_full (mc : MemoryCache) :
  (max_memory_cache_size <= List.length mc)%nat ->
  exists k, eviction_victim mc = Some k /\ oldest_key mc = Some k.
Proof.
  intros Hlen. unfold eviction_victim.
  destruct (Nat.leb_spec max_memory_cache_size (List.length mc)); [|lia].
  destruct (oldest_key_nonempty mc) as [k Hk]; [|now exists k].
  intros ->. unfold max_memory_cache_size in Hlen. simpl in Hlen. lia.
Qed.

Lemma eviction_victim_room (mc : MemoryCache) :
  (List.length mc < max_memory_cache_size)%nat -> eviction_victim mc = None.
Proof.
  intros Hlen. unfold eviction_victim.
  now destruct (Nat.leb_spec max_memory_cache_size (List.length mc)); [lia|].
Qed.

Lemma eviction_victim_Some (mc : MemoryCache) k :
  eviction_victim mc = Some k ->
  (max_memory_cache_size <= List.length mc)%nat /\ oldest_key mc = Some k.
Proof.
  unfold eviction_victim.
  destruct (Nat.leb_spec max_memory_cache_size (List.length mc));
    [auto|discriminate].
Qed.

Lemma add_wf t k g (mc : MemoryCache) :
  PyDict.wf mc -> PyDict.wf (_add_to_memory_cache t k g mc).
Proof.
  intros Hwf. unfold _add_to_memory_cache.
  apply wf_set. destruct (eviction_victim mc); [now apply wf_del|exact Hwf].
Qed.

Lemma update_wf t k (mc : MemoryCache) :
  PyDict.wf mc -> PyDict.wf (_update_memory_cache_access t k mc).
Proof.
  intros Hwf. unfold _update_memory_cache_access.
  destruct (PyDict.get k mc); [now apply wf_set|exact Hwf].
Qed.

Lemma update_length t k (mc : MemoryCache) :
  List.length (_update_memory_cache_access t k mc) = List.length mc.
Proof.
  unfold _update_memory_cache_access.
  destruct (PyDict.get k mc) eqn:Hg; [|reflexivity].
  rewrite length_set. unfold PyDict.mem. now rewrite Hg.
Qed.

Lemma add_length t k g (mc : MemoryCache) :
  PyDict.wf mc ->
  (List.length mc <= max_memory_cache_size)%nat ->
  (List.length (_add_to_memory_cache t k g mc) <= max_memory_cache_size)%nat.
Proof.
  intros Hwf Hlen. unfold _add_to_memory_cache.
  destruct (eviction_victim mc) as [victim|] eqn:Hv.
  - apply eviction_victim_Some in Hv as [Hfull Hold].
    destruct (oldest_key_spec mc victim Hwf Hold) as (e & Hget & _).
    assert (Hin : In victim (PyDict.keys mc)).
    { apply get_In in Hget. change victim with (fst (victim, e)).
      now apply in_map. }
    pose proof (length_del _ _ Hin) as Hdel.
    rewrite length_set. destruct (PyDict.mem k _); lia.
  - unfold eviction_victim in Hv.
    destruct (Nat.leb_spec max_memory_cache_size (List.length mc)).
    + destruct (oldest_key_nonempty mc) as [k' Hk']; [|congruence].
      intros ->. unfold max_memory_cache_size in *. simpl in *. lia.
    + rewrite length_set. destruct (PyDict.mem k mc); lia.
Qed.

Lemma run_cache_ops_invariant ops (mc : MemoryCache) :
  PyDict.wf mc -> (List.length mc <= max_memory_cache_size)%nat ->
  let mc' := fold_left apply_cache_op ops mc in
  PyDict.wf mc' /\ (List.length mc' <= max_memory_cache_size)%nat.
Proof.
  revert mc. induction ops as [|op ops IH]; intros mc Hwf Hlen; simpl.
  - now split.
  - apply IH; destruct op; simpl.
    + now apply add_wf.
    + now apply update_wf.
    + now apply add_length.
    + now rewrite update_length.
Qed.

(** C4. After any run of inserts (and access updates) that starts from the
    empty cache the number of entries is at most 50; and when the next
    insert evicts, the entry it deletes is one whose [last_accessed] is the
    least over all entries of the cache at that time, and nothing else is
    deleted. *)
Theorem memory_cache_bounded_and_evicts_oldest
    (ops : list cache_op) (t : Z) (cache_key : string) (grid : Grid) :
  let mc := run_cache_ops ops in
  (List.length mc <= 50)%nat
  /\ (List.length (_add_to_memory_cache t cache_key grid mc) <= 50)%nat
  /\ forall victim,
       eviction_victim mc = Some victim ->
       exists e,
         PyDict.get victim mc = Some e
         /\ (forall k' e', PyDict.get k' mc = Some e' ->
                           last_accessed e <= last_accessed e')
         /\ _add_to_memory_cache t cache_key grid mc
            = PyDict.set cache_key
                {| data := grid; last_accessed := t; access_count := 1 |}
                (PyDict.del victim mc)
         /\ PyDict.get victim (PyDict.del victim mc) = None
         /\ forall k', k' <> victim ->
                       PyDict.get k' (PyDict.del victim mc)
                       = PyDict.get k' mc.
Proof.
  intros mc.
  destruct (run_cache_ops_invariant ops []) as [Hwf Hlen];
    [constructor|simpl; unfold max_memory_cache_size; lia|].
  fold (run_cache_ops ops) in Hwf, Hlen. fold mc in Hwf, Hlen.
  split; [exact Hlen|]. split; [now apply add_length|].
  intros victim Hv.
  pose proof (eviction_victim_Some _ _ Hv) as [_ Hold].
  destruct (oldest_key_spec mc victim Hwf Hold) as (e & Hget & Hmin).
  exists e. repeat split; auto.
  - unfold _add_to_memory_cache. now rewrite Hv.
  - now apply get_del_same.
  - intros k' Hne. apply get_del_other. congruence.
Qed.

Lemma add_frame_room t k g (mc : MemoryCache) k' :
  (List.length mc < max_memory_cache_size)%nat -> k' <> k ->
  PyDict.get k' (_add_to_memory_cache t k g mc) = PyDict.get k' mc.
Proof.
  intros Hroom Hne. unfold _add_to_memory_cache.
  rewrite (eviction_victim_room _ Hroom).
  apply get_set_other. congruence.
Qed.

(** C5, as the code has it.  An insert evicts exactly when the cache holds
    50 entries or more, whether or not the key is already present: below
    the bound no entry of another key changes; at the bound the oldest
    entry is deleted first (it is gone afterwards unless it is the inserted
    key), and the entries of all remaining other keys are unchanged. *)
Theorem memory_cache_put_evicts_at_capacity
    (t : Z) (cache_key : string) (grid : Grid) (mc : MemoryCache) :
  PyDict.wf mc ->
  let mc' := _add_to_memory_cache t cache_key grid mc in
  PyDict.get cache_key mc'
  = Some {| data := grid; last_accessed := t; access_count := 1 |}
  /\ ((List.length mc < 50)%nat ->
      forall k', k' <> cache_key -> PyDict.get k' mc' = PyDict.get k' mc)
  /\ ((50 <= List.length mc)%nat ->
      exists victim,
        oldest_key mc = Some victim
        /\ (victim <> cache_key -> PyDict.get victim mc' = None)
        /\ forall k', k' <> cache_key -> k' <> victim ->
                      PyDict.get k' mc' = PyDict.get k' mc).
Proof.
  intros Hwf mc'. split; [apply get_set_same|]. split.
  - intros Hroom k' Hne. now apply add_frame_room.
  - intros Hfull.
    destruct (eviction_victim_full mc Hfull) as (victim & Hv & Hold).
    exists victim. split; [exact Hold|].
    subst mc'. unfold _add_to_memory_cache. rewrite Hv. split.
    + intros Hne. rewrite get_set_other by congruence.
      now apply get_del_same.
    + intros k' Hk Hk'. rewrite get_set_other by congruence.
      apply get_del_other. congruence.
Qed.

End MemoryCacheFacts.

Lemma full_cache_wf : PyDict.wf full_cache.
Proof. apply distinct_NoDup. vm_compute. reflexivity. Qed.

Lemma memory_cache_put_evicts_at_capacity_witness :
  PyDict.get (sample_key 0)
             (_add_to_memory_cache 100 (sample_key 49) [] full_cache) = None.
Proof.
  destruct (memory_cache_put_evicts_at_capacity
              100 (sample_key 49) [] full_cache full_cache_wf)
    as (_ & _ & Hfull).
  destruct Hfull as (victim & Hold & Hgone & _).
  - apply Nat.leb_le. vm_compute. reflexivity.
  - vm_compute in Hold. injection Hold as <-.
    apply Hgone. intros H. discriminate.
Defined.

(** C5, as stated, fails: with 50 entries in the cache, re-inserting the
    key ["r"], which is present, deletes the entry of another key, ["A"]. *)
Lemma put_of_present_key_evicts_another :
  PyDict.mem (sample_key 49) full_cache = true
  /\ ~ (forall k', k' <> sample_key 49 ->
          PyDict.get k' (_add_to_memory_cache 100 (sample_key 49) []
                                              full_cache)
          = PyDict.get k' full_cache).
Proof.
  split; [vm_compute; reflexivity|].
  intros H. specialize (H (sample_key 0)).
  vm_compute in H. assert (E : "A"%string <> "r"%string) by discriminate.
  specialize (H E). discriminate.
Qed.

(* ----------------------------------------------------------------- *)
(** *** models.py: [cleanup_old_cache] *)

Lemma filter_split_length {A : Type} (p : A -> bool) (l : list A) :
  (List.length (filter p l) + List.length (filter (fun x => negb (p x)) l)
   = List.length l)%nat.
Proof.
  induction l as [|x l IH]; simpl; [reflexivity|].
  destruct (p x); simpl; lia.
Qed.

Lemma filter_not_before {A : Type} (stamp : A -> Z) (cutoff : Z) l r :
  In r (filter (fun x => negb (stamp x <? cutoff)) l)
  <-> In r l /\ cutoff <= stamp r.
Proof.
  rewrite filter_In, negb_true_iff, Z.ltb_ge. tauto.
Qed.

Lemma cleanup_cutoff_in_range env utc_offset days_old :
  - max_timedelta_days <= days_old <= max_timedelta_days ->
  0 <= now env + utc_offset - days_old * day <= datetime_max ->
  cleanup_cutoff env utc_offset days_old
  = Returns (now env + utc_offset - days_old * day).
Proof.
  intros Hd Hc. unfold cleanup_cutoff.
  replace (days_old <? - max_timedelta_days) with false
    by (symmetry; apply Z.ltb_ge; lia).
  replace (max_timedelta_days <? days_old) with false
    by (symmetry; apply Z.ltb_ge; lia).
  cbv zeta. simpl orb.
  replace (now env + utc_offset - days_old * day <? 0) with false
    by (symmetry; apply Z.ltb_ge; lia).
  replace (datetime_max <? now env + utc_offset - days_old * day) with false
    by (symmetry; apply Z.ltb_ge; lia).
  reflexivity.
Qed.

Lemma cleanup_cutoff_returns env utc_offset days_old cutoff :
  cleanup_cutoff env utc_offset days_old = Returns cutoff ->
  cutoff = now env + utc_offset - days_old * day
  /\ - max_timedelta_days <= days_old <= max_timedelta_days
  /\ 0 <= cutoff <= datetime_max.
Proof.
  unfold cleanup_cutoff.
  destruct (days_old <? - max_timedelta_days) eqn:H1; [discriminate|].
  destruct (max_timedelta_days <? days_old) eqn:H2; [discriminate|].
  cbv zeta. simpl orb.
  destruct (now env + utc_offset - days_old * day <? 0) eqn:H3;
    [discriminate|].
  destruct (datetime_max <? now env + utc_offset - days_old * day) eqn:H4;
    [discriminate|].
  intros [= <-]. apply Z.ltb_ge in H1, H2, H3, H4. lia.
Qed.

(** The retention or the cutoff out of range: the [OverflowError] reaches
    the caller, whatever the connection would have done. *)
Lemma cleanup_old_cache_overflow env utc_offset db days_old :
  days_old < - max_timedelta_days \/ max_timedelta_days < days_old
  \/ now env + utc_offset - days_old * day < 0
  \/ datetime_max < now env + utc_offset - days_old * day ->
  cleanup_old_cache env utc_offset db days_old = Raises.
Proof.
  intros H. unfold cleanup_old_cache.
  destruct (cleanup_cutoff env utc_offset days_old) as [c|] eqn:Hc;
    [|reflexivity].
  apply cleanup_cutoff_returns in Hc. lia.
Qed.

Lemma cleanup_old_cache_returns env utc_offset db days_old cutoff :
  sqlite_ok env = true ->
  cleanup_cutoff env utc_offset days_old = Returns cutoff ->
  cleanup_old_cache env utc_offset db days_old
  = Returns
      {| cleaned_db :=
           {| coverage_grid_cache :=
                filter (fun r => negb (whole_seconds (cg_last_accessed r)
                                       <? cutoff))
                       (coverage_grid_cache db);
              heatmap_cache :=
                filter (fun r => negb (whole_seconds (hm_created_at r)
                                       <? cutoff))
                       (heatmap_cache db) |};
         logged_coverage_deleted :=
           Z.of_nat (List.length
                       (filter (fun r => whole_seconds (cg_last_accessed r)
                                         <? cutoff)
                               (coverage_grid_cache db)));
         logged_heatmap_deleted :=
           Z.of_nat (List.length
                       (filter (fun r => whole_seconds (hm_created_at r)
                                         <? cutoff)
                               (heatmap_cache db)));
         returned := None |}.
Proof.
  intros Hok Hc. unfold cleanup_old_cache. rewrite Hc. simpl.
  now rewrite Hok.
Qed.

(** C9, as the code has it.  On a server whose local clock is UTC, and for
    a retention [days_old] whose cutoff, the clock reading less [days_old]
    days, is a [datetime], [cleanup_old_cache(days_old)] deletes exactly
    the coverage rows whose stored [last_accessed] is before the cutoff and
    the heatmap rows whose stored [created_at] is before it, keeps every
    other row, logs the two numbers of deleted rows, and returns [None]. *)
Theorem cleanup_old_cache_deletes_old_rows
    (env : Env) (db : Database) (days_old : Z) :
  sqlite_ok env = true ->
  - max_timedelta_days <= days_old <= max_timedelta_days ->
  0 <= now env - days_old * day <= datetime_max ->
  let cutoff := now env - days_old * day in
  exists out,
    cleanup_old_cache env 0 db days_old = Returns out
    /\ (forall r, In r (coverage_grid_cache (cleaned_db out)) <->
                  In r (coverage_grid_cache db)
                  /\ cutoff <= whole_seconds (cg_last_accessed r))
    /\ (forall r, In r (heatmap_cache (cleaned_db out)) <->
                  In r (heatmap_cache db)
                  /\ cutoff <= whole_seconds (hm_created_at r))
    /\ logged_coverage_deleted out
       = Z.of_nat (List.length (coverage_grid_cache db))
         - Z.of_nat (List.length (coverage_grid_cache (cleaned_db out)))
    /\ logged_heatmap_deleted out
       = Z.of_nat (List.length (heatmap_cache db))
         - Z.of_nat (List.length (heatmap_cache (cleaned_db out)))
    /\ returned out = None.
Proof.
  intros Hok Hd Hc cutoff.
  assert (Hcut : cleanup_cutoff env 0 days_old = Returns cutoff).
  { rewrite cleanup_cutoff_in_range by (rewrite ?Z.add_0_r; assumption).
    unfold cutoff. now rewrite Z.add_0_r. }
  rewrite (cleanup_old_cache_returns env 0 db days_old cutoff Hok Hcut).
  eexists. split; [reflexivity|]. simpl.
  split; [intros r;
          apply (filter_not_before
                   (fun x => whole_seconds (cg_last_accessed x)))|].
  split; [intros r;
          apply (filter_not_before
                   (fun x => whole_seconds (hm_created_at x)))|].
  split; [|split; [|reflexivity]].
  - pose proof (filter_split_length
                  (fun r => whole_seconds (cg_last_accessed r) <? cutoff)
                  (coverage_grid_cache db)). lia.
  - pose proof (filter_split_length
                  (fun r => whole_seconds (hm_created_at r) <? cutoff)
                  (heatmap_cache db)). lia.
Qed.

Lemma cleanup_old_cache_deletes_old_rows_witness :
  exists out,
    cleanup_old_cache {| now := 10 * day; sqlite_ok := true |} 0 aged_db
                      cleanup_default_days = Returns out
    /\ coverage_grid_cache (cleaned_db out) = [sample_row "new" (9 * day)]
    /\ returned out = None.
Proof.
  destruct (cleanup_old_cache_deletes_old_rows
              {| now := 10 * day; sqlite_ok := true |} aged_db
              cleanup_default_days eq_refl)
    as (out & Hout & _ & _ & _ & _ & Hret).
  - vm_compute. split; discriminate.
  - vm_compute. split; discriminate.
  - exists out. split; [exact Hout|]. split; [|exact Hret].
    vm_compute in Hout. injection Hout as <-. reflexivity.
Defined.

(** C9, as stated, fails.  One coverage row and one heatmap row are
    deleted, and the caller receives [None], not a count.  On a server
    three and a half hours east of UTC, a cleanup with a retention of one
    day deletes the row last accessed 21 hours before the call.  With a
    retention beyond the range of [timedelta] the call raises and deletes
    nothing. *)
Lemma cleanup_old_cache_returns_no_count :
  (exists out,
      cleanup_old_cache {| now := 10 * day; sqlite_ok := true |} 0 aged_db
                        cleanup_default_days = Returns out
      /\ logged_coverage_deleted out = 1
      /\ logged_heatmap_deleted out = 1
      /\ returned out = None
      /\ returned out <> Some 2)
  /\ (let call := 9 * day + 21 * 3600 * second in
      exists out,
        cleanup_old_cache {| now := call; sqlite_ok := true |}
                          (12600 * second) aged_db 1 = Returns out
        /\ call - 1 * day <= cg_last_accessed (sample_row "new" (9 * day))
        /\ In (sample_row "new" (9 * day)) (coverage_grid_cache aged_db)
        /\ coverage_grid_cache (cleaned_db out) = [])
  /\ cleanup_old_cache {| now := 10 * day; sqlite_ok := true |} 0 aged_db
                       1000000000 = Raises.
Proof.
  split; [|split].
  - eexists. split; [vm_compute; reflexivity|].
    simpl. repeat split. discriminate.
  - eexists. split; [vm_compute; reflexivity|].
    split; [vm_compute; discriminate|].
    split; [right; left; reflexivity|reflexivity].
  - vm_compute. reflexivity.
Qed.

(* ----------------------------------------------------------------- *)
(** *** cache_manager.py: [_process_coverage_results] *)

Lemma process_from_no_target pai bls cr :
  forall i p, In p (process_from [] pai bls i cr) -> pd_target p = None.
Proof.
  induction cr as [|c cr IH]; intros i p; simpl; [tauto|].
  destruct (0 <? total_vendors c).
  - destruct (nth i pai (None, None)) as [aid aname].
    intros [<-|Hin]; [reflexivity|now apply (IH (S i))].
  - apply IH.
Qed.

(** C8.  The code at a request for tehran and one business line: the one
    point, which has vendors and lies in area ["a1"], comes back with its
    coordinates, coverage and area name only.  The target lookup of
    [_process_coverage_results] is the empty dict on every path, so on no
    input does a point of the result carry target metrics, whatever the
    target data holds.  The analysis block the function goes on to, given
    a lookup with an entry for the area and the business line, sets
    [performance_ratio] to actual/target when the target is positive and to
    2 otherwise. *)
Theorem process_coverage_results_attaches_no_target :
  _process_coverage_results
    [sample_coverage] [(Some "a1", Some "Area 1")]%string
    ["restaurant"%string] "tehran"
  = [{| pd_lat := 35 # 1; pd_lng := 51 # 1;
        pd_coverage := sample_coverage;
        pd_marketing_area := Some "Area 1"%string;
        pd_target := None |}]
  /\ (forall (coverage_results : list Coverage)
             (point_area_info : list AreaInfo) (bls : list string)
             (city : string) p,
         In p (_process_coverage_results coverage_results point_area_info
                                         bls city) ->
         pd_target p = None)
  /\ (forall (lookup : TargetLookup) (a : ascii) (area bl : string)
             (coverage : Coverage) (target : Z),
         lookup_target (String a area, bl) lookup = Some target ->
         exists tm,
           target_analysis lookup (Some (String a area)) [bl] coverage
           = Some tm
           /\ target_value tm = target
           /\ actual_value tm
              = match PyDict.get bl (by_business_line coverage) with
                | Some n => n
                | None => 0
                end
           /\ (0 < target ->
               performance_ratio tm
               = Qmake (actual_value tm) (Z.to_pos target))
           /\ (target <= 0 -> performance_ratio tm = Qmake 2 1)).
Proof.
  split; [reflexivity|]. split.
  - intros coverage_results point_area_info bls city p.
    unfold _process_coverage_results.
    destruct (_ && _); apply process_from_no_target.
  - intros lookup a area bl coverage target Hl.
    unfold target_analysis. simpl area_truthy.
    destruct lookup as [|e lookup]; [discriminate|].
    rewrite Hl. eexists. split; [reflexivity|]. simpl.
    repeat split.
    + intros Hpos. apply Z.ltb_lt in Hpos. now rewrite Hpos.
    + intros Hle. apply Z.ltb_ge in Hle. now rewrite Hle.
Qed.

(* ----------------------------------------------------------------- *)
(** *** cache_manager.py: the preload queue *)

Section QueueFacts.

Lemma existsb_eqb_In k l : existsb (String.eqb k) l = true <-> In k l.
Proof.
  rewrite existsb_exists. split.
  - intros (x & Hx & E). apply String.eqb_eq in E. now subst.
  - intros H. exists k. now rewrite String.eqb_refl.
Qed.

(** A request whose key has a pending task leaves the queue as it is. *)
Lemma add_to_preload_queue_pending t city bls filters m :
  In (generate_cache_key city bls filters None)
     (map task_key (preload_queue m)) ->
  _add_to_preload_queue t city bls filters m = m.
Proof.
  intros Hin. unfold _add_to_preload_queue.
  apply existsb_eqb_In in Hin. now rewrite Hin.
Qed.

Lemma add_to_preload_queue_perm t city bls filters m :
  ~ In (generate_cache_key city bls filters None)
       (map task_key (preload_queue m)) ->
  Permutation
    (preload_queue (_add_to_preload_queue t city bls filters m))
    ({| city_name := city; business_lines := bls;
        vendor_filters := filters;
        priority := _calculate_priority city bls filters;
        created_at := t |} :: preload_queue m).
Proof.
  intros Hnin. unfold _add_to_preload_queue.
  destruct (existsb _ _) eqn:Hex.
  - apply existsb_eqb_In in Hex. contradiction.
  - simpl. rewrite <- sorted_perm. apply Permutation_sym.
    apply Permutation_cons_append.
Qed.

(** [_add_to_preload_queue] keeps the keys of the pending tasks pairwise
    distinct. *)
Lemma add_to_preload_queue_unique t city bls filters m :
  NoDup (map task_key (preload_queue m)) ->
  NoDup (map task_key
             (preload_queue (_add_to_preload_queue t city bls filters m))).
Proof.
  intros Hnd.
  destruct (in_dec string_dec (generate_cache_key city bls filters None)
                   (map task_key (preload_queue m))) as [Hin|Hnin].
  - now rewrite add_to_preload_queue_pending.
  - eapply Permutation_NoDup.
    + apply Permutation_sym, Permutation_map.
      now apply add_to_preload_queue_perm.
    + simpl. now constructor.
Qed.

(** The same request made twice: the second call changes nothing. *)
Lemma add_to_preload_queue_twice t t' city bls filters m :
  _add_to_preload_queue t' city bls filters
                        (_add_to_preload_queue t city bls filters m)
  = _add_to_preload_queue t city bls filters m.
Proof.
  apply add_to_preload_queue_pending.
  destruct (in_dec string_dec (generate_cache_key city bls filters None)
                   (map task_key (preload_queue m))) as [Hin|Hnin].
  - now rewrite add_to_preload_queue_pending.
  - eapply Permutation_in.
    + apply Permutation_sym, Permutation_map.
      now apply add_to_preload_queue_perm.
    + now left.
Qed.

Lemma seed_queue t combos :
  forall m,
    fold_left (fun m combo =>
                 set_preload_queue
                   (preload_queue m ++ [task_of_combination t combo]) m)
              combos m
    = set_preload_queue
        (preload_queue m ++ map (task_of_combination t) combos) m.
Proof.
  induction combos as [|c combos IH]; intros m; simpl.
  - rewrite app_nil_r. now destruct m.
  - rewrite IH. simpl. now rewrite <- app_assoc.
Qed.

(** [start_preloading] when the flag is down: the flag goes up, the 54
    combinations are appended whatever is pending, the queue is sorted,
    and the worker is submitted. *)
Lemma start_preloading_idle t m :
  is_preloading m = false ->
  start_preloading t m
  = executor_submit
      (set_preload_queue
         (sorted priority_le
                 (preload_queue m
                  ++ map (task_of_combination t) common_combinations))
         (set_is_preloading true m)).
Proof.
  intros Hidle. unfold start_preloading. rewrite Hidle.
  rewrite seed_queue. reflexivity.
Qed.

End QueueFacts.

(** C3 fails on the seeding path.  A first request for tehran, restaurant
    and the first common filter misses both caches and is queued by
    [_add_to_preload_queue]; [start_preloading] then appends all 54 common
    combinations without the check that [_add_to_preload_queue] makes, and
    the queue holds two pending tasks with one cache key. *)
Theorem seeding_duplicates_pending_task :
  let key := generate_cache_key "tehran" ["restaurant"%string] filter_all None in
  let m1 := fst (get_or_calculate_coverage_grid
                   one_point_engine (sample_env 0) (new_manager empty_db)
                   "tehran" ["restaurant"%string] filter_all false) in
  let m2 := fst (start_preloading 1 m1) in
  map task_key (preload_queue m1) = [key]
  /\ snd (start_preloading 1 m1) = Returns tt
  /\ List.length (preload_queue m2) = 55%nat
  /\ List.length (filter (fun task => String.eqb (task_key task) key)
                         (preload_queue m2)) = 2%nat
  /\ distinct (map task_key (preload_queue m2)) = false.
Proof. vm_compute. repeat split. Qed.

(* ----------------------------------------------------------------- *)
(** *** cache_manager.py: stopping and starting the preloader *)

Ltac break_match :=
  repeat match goal with
         | |- context [match ?x with _ => _ end] => destruct x eqn:?
         end.

Lemma add_to_preload_queue_frame t city bls filters m :
  let m' := _add_to_preload_queue t city bls filters m in
  executor_shutdown m' = executor_shutdown m
  /\ is_preloading m' = is_preloading m
  /\ workers_submitted m' = workers_submitted m
  /\ memory_cache m' = memory_cache m
  /\ db_manager m' = db_manager m
  /\ engine_calls m' = engine_calls m.
Proof.
  unfold _add_to_preload_queue. destruct (negb _); simpl; repeat split.
Qed.

Lemma calculate_and_cache_executor E env m city bls filters :
  let m' := fst (calculate_and_cache E env m city bls filters) in
  executor_shutdown m' = executor_shutdown m
  /\ is_preloading m' = is_preloading m
  /\ workers_submitted m' = workers_submitted m.
Proof.
  destruct (add_to_preload_queue_frame (now env) city bls filters m)
    as (H1 & H2 & H3 & _).
  unfold calculate_and_cache. break_match; simpl; auto.
Qed.

Lemma get_or_calculate_executor E env m city bls filters force :
  let m' := fst (get_or_calculate_coverage_grid E env m city bls filters
                                                force) in
  executor_shutdown m' = executor_shutdown m
  /\ is_preloading m' = is_preloading m
  /\ workers_submitted m' = workers_submitted m.
Proof.
  unfold get_or_calculate_coverage_grid.
  break_match; simpl; auto;
    apply (calculate_and_cache_executor E env (set_db _ m)).
Qed.

Lemma preload_worker_turn_executor E env m :
  let m' := preload_worker_turn E env m in
  executor_shutdown m' = executor_shutdown m
  /\ is_preloading m' = is_preloading m
  /\ workers_submitted m' = workers_submitted m.
Proof.
  unfold preload_worker_turn. break_match; simpl; auto.
Qed.

Lemma start_preloading_shutdown t m :
  executor_shutdown m = true ->
  executor_shutdown (fst (start_preloading t m)) = true.
Proof.
  intros Hs. destruct (is_preloading m) eqn:Hp.
  - unfold start_preloading. now rewrite Hp.
  - rewrite (start_preloading_idle t m Hp). unfold executor_submit.
    simpl. now rewrite Hs.
Qed.

Lemma clear_cache_executor env cache_type m :
  let m' := clear_cache env cache_type m in
  executor_shutdown m' = executor_shutdown m
  /\ is_preloading m' = is_preloading m
  /\ workers_submitted m' = workers_submitted m.
Proof. unfold clear_cache. break_match; simpl; auto. Qed.

Lemma warm_up_loop_executor E env combos :
  forall i m,
    let m' := warm_up_loop E env i combos m in
    executor_shutdown m' = executor_shutdown m
    /\ is_preloading m' = is_preloading m
    /\ workers_submitted m' = workers_submitted m.
Proof.
  induction combos as [|c combos IH]; intros i m; simpl; [auto|].
  destruct (IH (S i)
               (fst (get_or_calculate_coverage_grid
                       E (env i) m (combo_city_name c)
                       (combo_business_lines c) (combo_vendor_filters c)
                       false))) as (Hs & Hp & Hw).
  destruct (get_or_calculate_executor
              E (env i) m (combo_city_name c) (combo_business_lines c)
              (combo_vendor_filters c) false) as (Hs' & Hp' & Hw').
  simpl in *. repeat split; congruence.
Qed.

(** No public call and no turn of a worker opens a shut executor. *)
Lemma manager_call_shutdown E m m' :
  manager_call E m m' ->
  executor_shutdown m = true -> executor_shutdown m' = true.
Proof.
  intros Hcall Hs. destruct Hcall as [m m' Hstep|env cache_type m|env pc m].
  - destruct Hstep.
    + now rewrite (proj1 (get_or_calculate_executor E env m city bls filters
                                                     force)).
    + now apply start_preloading_shutdown.
    + reflexivity.
    + now rewrite (proj1 (preload_worker_turn_executor E env m)).
  - now rewrite (proj1 (clear_cache_executor env cache_type m)).
  - unfold warm_up_cache.
    now rewrite (proj1 (warm_up_loop_executor E env _ 0%nat m)).
Qed.

Lemma after_stop_shutdown E m : after_stop E m -> executor_shutdown m = true.
Proof.
  induction 1 as [m|m m' _ IH Hcall]; [reflexivity|].
  now apply (manager_call_shutdown E m m').
Qed.

(** A turn of the worker takes the head of the queue away. *)
Lemma preload_worker_turn_pops E env m task rest :
  preload_queue m = task :: rest ->
  preload_queue (preload_worker_turn E env m) = rest.
Proof.
  intros Hq. unfold preload_worker_turn. rewrite Hq.
  break_match; reflexivity.
Qed.

(** The queue a start leaves behind holds a task. *)
Lemma seeded_queue_holds_task t (q : list CoverageGridTask) :
  exists task rest,
    sorted priority_le (q ++ map (task_of_combination t) common_combinations)
    = task :: rest.
Proof.
  pose proof (Permutation_length
                (sorted_perm priority_le
                   (q ++ map (task_of_combination t) common_combinations)))
    as Hlen.
  rewrite length_app, length_map in Hlen.
  destruct (sorted priority_le
              (q ++ map (task_of_combination t) common_combinations))
    as [|task rest]; [|now exists task, rest].
  assert (Hc : List.length common_combinations = 54%nat)
    by (vm_compute; reflexivity).
  simpl in Hlen. lia.
Qed.

(** C10, as the code has it.  In every state reached after
    [stop_preloading], by public calls and turns of workers, a call of
    [start_preloading] that finds the flag down raises, and it raises after
    it has raised the flag and appended the common combinations to the
    queue; a call that finds the flag up (as after such a failed start)
    returns without raising and changes nothing.  In both cases no worker
    is submitted and the executor stays shut down.  A worker submitted
    before the stop that comes to the test of its loop ends when it finds
    the flag down; when it comes to the test after the failed start, it
    finds the flag up and goes on: it takes the first task of the queue
    the failed start has seeded. *)
Theorem start_preloading_after_stop
    (E : Engine) (t : Z) (env : Env) (m : Manager) :
  after_stop E m ->
  let m' := fst (start_preloading t m) in
  let outcome := snd (start_preloading t m) in
  executor_shutdown m' = true
  /\ workers_submitted m' = workers_submitted m
  /\ (is_preloading m = false ->
      outcome = Raises
      /\ is_preloading m' = true
      /\ preload_queue m'
         = sorted priority_le
                  (preload_queue m
                   ++ map (task_of_combination t) common_combinations)
      /\ preload_worker_iteration E env m = (m, false)
      /\ exists task rest,
           preload_queue m' = task :: rest
           /\ preload_worker_iteration E env m'
              = (preload_worker_turn E env m', true)
           /\ preload_queue (preload_worker_turn E env m') = rest)
  /\ (is_preloading m = true -> outcome = Returns tt /\ m' = m).
Proof.
  intros Hafter. pose proof (after_stop_shutdown E m Hafter) as Hs.
  cbv zeta. split; [now apply start_preloading_shutdown|].
  destruct (is_preloading m) eqn:Hp.
  - unfold start_preloading. rewrite Hp. simpl.
    repeat split; discriminate.
  - rewrite (start_preloading_idle t m Hp). unfold executor_submit.
    simpl fst. simpl snd. rewrite Hs.
    split; [reflexivity|]. split; [|intros; discriminate].
    intros _. split; [reflexivity|]. split; [reflexivity|].
    split; [reflexivity|].
    split; [unfold preload_worker_iteration; now rewrite Hp|].
    destruct (seeded_queue_holds_task t (preload_queue m))
      as (task & rest & Hq).
    exists task, rest. split; [exact Hq|].
    split; [reflexivity|].
    apply (preload_worker_turn_pops E env _ task rest). exact Hq.
Qed.

Lemma start_preloading_after_stop_witness :
  snd (start_preloading 1 (stop_preloading (new_manager empty_db))) = Raises.
Proof.
  destruct (start_preloading_after_stop
              no_vendor_engine 1 (sample_env 2)
              (stop_preloading (new_manager empty_db))
              (after_stop_now _ _))
    as (_ & _ & Hdown & _).
  now apply Hdown.
Defined.

(** C10, as stated, fails.  A manager is started and stopped.  The next
    [start_preloading] raises and leaves the flag up, and the one after it
    returns without raising.  The worker of the first start, coming to the
    test of its loop after the failed start, finds the flag up and
    computes the grid of the first task: preloading goes on. *)
Lemma second_start_after_stop_does_not_raise :
  let m0 := stop_preloading (fst (start_preloading 0 (new_manager empty_db))) in
  let m1 := fst (start_preloading 1 m0) in
  let worker := preload_worker_iteration no_vendor_engine (sample_env 3) m1 in
  workers_submitted m0 = 1%nat
  /\ snd (start_preloading 1 m0) = Raises
  /\ is_preloading m1 = true
  /\ snd (start_preloading 2 m1) = Returns tt
  /\ snd (start_preloading 2 m1) <> Raises
  /\ snd worker = true
  /\ engine_calls (fst worker) = S (engine_calls m1).
Proof. vm_compute. repeat split. discriminate. Qed.

(* ----------------------------------------------------------------- *)
(** *** cache_manager.py: [get_or_calculate_coverage_grid] *)

Section CoordinatorFacts.

Import PyDictFacts.

Variable E : Engine.

Lemma update_get t k (mc : MemoryCache) e :
  PyDict.get k mc = Some e ->
  PyDict.get k (_update_memory_cache_access t k mc)
  = Some {| data := data e; last_accessed := t;
            access_count := access_count e + 1 |}.
Proof.
  intros Hg. unfold _update_memory_cache_access. rewrite Hg.
  apply get_set_same.
Qed.

Lemma add_get t k g (mc : MemoryCache) :
  PyDict.get k (_add_to_memory_cache t k g mc)
  = Some {| data := g; last_accessed := t; access_count := 1 |}.
Proof. apply get_set_same. Qed.

(** A memory hit: the entry is refreshed, its grid returned, and nothing
    else happens. *)
Lemma get_or_calculate_memory_hit env m city bls filters e :
  PyDict.get (generate_cache_key city bls filters None) (memory_cache m)
  = Some e ->
  get_or_calculate_coverage_grid E env m city bls filters false
  = (set_memory_cache
       (_update_memory_cache_access
          (now env) (generate_cache_key city bls filters None)
          (memory_cache m)) m,
     Some (data e)).
Proof.
  intros Hg. unfold get_or_calculate_coverage_grid. rewrite Hg.
  now rewrite (update_get _ _ _ _ Hg).
Qed.

Lemma find_row_Some key rows r :
  find_row key rows = Some r -> In r rows.
Proof. intros H. now apply find_some in H. Qed.

Lemma get_cached_miss env db key :
  find_row key (coverage_grid_cache db) = None ->
  get_cached_coverage_grid env db key = (db, None).
Proof.
  intros H. unfold get_cached_coverage_grid. rewrite H.
  now destruct (sqlite_ok env).
Qed.

(** A lookup that does not return a non-empty grid leaves a table of
    non-empty grids as it is. *)
Lemma get_cached_falsy env db key :
  rows_truthy db ->
  (forall p ps, snd (get_cached_coverage_grid env db key)
                <> Some (p :: ps)) ->
  get_cached_coverage_grid env db key = (db, None).
Proof.
  intros Hrows. unfold get_cached_coverage_grid.
  destruct (sqlite_ok env); [|reflexivity].
  destruct (find_row key (coverage_grid_cache db)) as [r|] eqn:Hf;
    [|reflexivity].
  simpl. intros Hfalsy. exfalso.
  apply find_row_Some in Hf. unfold rows_truthy in Hrows.
  rewrite Forall_forall in Hrows. specialize (Hrows r Hf).
  destruct (cg_grid_data r) as [|p ps]; [congruence|].
  now apply (Hfalsy p ps).
Qed.

Lemma calculate_and_cache_calls env m city bls filters :
  engine_calls (fst (calculate_and_cache E env m city bls filters))
  = S (engine_calls m).
Proof.
  destruct (add_to_preload_queue_frame (now env) city bls filters m)
    as (_ & _ & _ & _ & _ & Hc).
  unfold calculate_and_cache. break_match; simpl; now rewrite Hc.
Qed.

(** A falsy computation result, [None] or the empty grid, is returned and
    neither tier is written. *)
Lemma calculate_and_cache_falsy env m city bls filters :
  (forall p ps, _calculate_coverage_grid E city bls filters
                <> Some (p :: ps)) ->
  let '(m', r) := calculate_and_cache E env m city bls filters in
  r = _calculate_coverage_grid E city bls filters
  /\ memory_cache m' = memory_cache m
  /\ db_manager m' = db_manager m.
Proof.
  intros Hfalsy.
  destruct (add_to_preload_queue_frame (now env) city bls filters m)
    as (_ & _ & _ & Hmc & Hdb & _).
  unfold calculate_and_cache.
  destruct (_calculate_coverage_grid E city bls filters) as [[|p ps]|].
  - simpl. auto.
  - now destruct (Hfalsy p ps).
  - simpl. auto.
Qed.

(** A call that returns a non-empty grid leaves it in the in-memory
    cache under the request's key. *)
Lemma get_or_calculate_caches env m city bls filters force m' grid :
  get_or_calculate_coverage_grid E env m city bls filters force
  = (m', Some grid) ->
  grid <> [] ->
  exists e,
    PyDict.get (generate_cache_key city bls filters None) (memory_cache m')
    = Some e
    /\ data e = grid.
Proof.
  unfold get_or_calculate_coverage_grid.
  set (key := generate_cache_key city bls filters None).
  destruct (if force then None else PyDict.get key (memory_cache m))
    as [e|] eqn:Hmem.
  - destruct force; [discriminate|].
    rewrite (update_get _ _ _ _ Hmem). simpl.
    intros [= <- <-] _. simpl. rewrite (update_get _ _ _ _ Hmem).
    eexists. split; reflexivity.
  - destruct (if force then (db_manager m, None)
              else get_cached_coverage_grid env (db_manager m) key)
      as [db cached].
    assert (Hcc : forall m0,
               calculate_and_cache E env m0 city bls filters
               = (m', Some grid) -> grid <> [] ->
               exists e, PyDict.get key (memory_cache m') = Some e
                         /\ data e = grid).
    { intros m0. unfold calculate_and_cache. fold key.
      destruct (_calculate_coverage_grid E city bls filters)
        as [[|p ps]|].
      - intros [= _ <-] Hne. congruence.
      - destruct (cache_coverage_grid _ _ _ _ _ _ _) as [db' ok].
        intros [= <- <-] _. simpl. rewrite add_get.
        eexists. split; reflexivity.
      - discriminate. }
    destruct cached as [[|p ps]|]; try apply Hcc.
    intros [= <- <-] _. simpl. rewrite add_get.
    eexists. split; reflexivity.
Qed.

(** C1, as the code has it.  When a call with [force_recalculate] false
    returns a non-empty grid, a second call with the same arguments and
    [force_recalculate] false is answered from the in-memory cache: it
    returns the same grid and the computation is not run again. *)
Theorem second_call_served_from_cache
    (env env' : Env) (m m1 : Manager) (city : string) (bls : list string)
    (filters : dict) (grid : Grid) :
  get_or_calculate_coverage_grid E env m city bls filters false
  = (m1, Some grid) ->
  grid <> [] ->
  let '(m2, r2) :=
    get_or_calculate_coverage_grid E env' m1 city bls filters false in
  r2 = Some grid /\ engine_calls m2 = engine_calls m1.
Proof.
  intros Hfirst Hne.
  destruct (get_or_calculate_caches _ _ _ _ _ _ _ _ Hfirst Hne)
    as (e & Hget & Hdata).
  rewrite (get_or_calculate_memory_hit env' m1 city bls filters e Hget).
  simpl. now rewrite Hdata.
Qed.

(** C2, as the code has it.  For a request in neither tier whose
    computation returns the empty grid, the call returns the empty grid
    (not [None]) and writes neither the database nor the in-memory cache;
    a repeated identical call runs the computation a second time. *)
Theorem empty_result_returned_but_not_cached
    (env env' : Env) (m : Manager) (city : string) (bls : list string)
    (filters : dict) (force : bool) :
  uncached m (generate_cache_key city bls filters None) ->
  _calculate_coverage_grid E city bls filters = Some [] ->
  let '(m1, r1) :=
    get_or_calculate_coverage_grid E env m city bls filters force in
  let '(m2, r2) :=
    get_or_calculate_coverage_grid E env' m1 city bls filters force in
  r1 = Some [] /\ r2 = Some []
  /\ memory_cache m1 = memory_cache m /\ db_manager m1 = db_manager m
  /\ memory_cache m2 = memory_cache m /\ db_manager m2 = db_manager m
  /\ engine_calls m1 = S (engine_calls m)
  /\ engine_calls m2 = S (S (engine_calls m)).
Proof.
  intros Hun Hempty.
  assert (Hstep : forall env0 m0,
             uncached m0 (generate_cache_key city bls filters None) ->
             let '(m', r) :=
               get_or_calculate_coverage_grid E env0 m0 city bls filters
                                              force in
             r = Some [] /\ memory_cache m' = memory_cache m0
             /\ db_manager m' = db_manager m0
             /\ engine_calls m' = S (engine_calls m0)).
  { intros env0 m0 [Hmem Hrow].
    unfold get_or_calculate_coverage_grid. rewrite Hmem.
    rewrite (get_cached_miss env0 _ _ Hrow).
    replace (if force then None else None) with (@None MemEntry)
      by now destruct force.
    replace (if force then (db_manager m0, None)
             else (db_manager m0, @None Grid))
      with (db_manager m0, @None Grid) by now destruct force.
    pose proof (calculate_and_cache_calls
                  env0 (set_db (db_manager m0) m0) city bls filters) as Hc.
    pose proof (calculate_and_cache_falsy
                  env0 (set_db (db_manager m0) m0) city bls filters) as Hf.
    destruct (calculate_and_cache E env0 (set_db (db_manager m0) m0)
                                  city bls filters) as [m' r].
    destruct Hf as (Hr & Hmc & Hdb);
      [intros p ps; rewrite Hempty; discriminate|].
    simpl in *. repeat split; congruence. }
  pose proof (Hstep env m Hun) as H1.
  destruct (get_or_calculate_coverage_grid E env m city bls filters force)
    as [m1 r1].
  destruct H1 as (Hr1 & Hmc1 & Hdb1 & Hc1).
  assert (Hun1 : uncached m1 (generate_cache_key city bls filters None)).
  { destruct Hun as [Hmem Hrow]. split; congruence. }
  pose proof (Hstep env' m1 Hun1) as H2.
  destruct (get_or_calculate_coverage_grid E env' m1 city bls filters force)
    as [m2 r2].
  destruct H2 as (Hr2 & Hmc2 & Hdb2 & Hc2).
  repeat split; congruence.
Qed.

(** C7.  When a call runs the computation and the computation fails, the
    call returns [None] to its caller, and the in-memory cache and the
    database are exactly as before the call. *)
Theorem computation_failure_returned_and_not_cached
    (env : Env) (m : Manager) (city : string) (bls : list string)
    (filters : dict) (force : bool) :
  rows_truthy (db_manager m) ->
  _calculate_coverage_grid E city bls filters = None ->
  let '(m', r) :=
    get_or_calculate_coverage_grid E env m city bls filters force in
  engine_calls m' = S (engine_calls m) ->
  r = None
  /\ memory_cache m' = memory_cache m
  /\ db_manager m' = db_manager m.
Proof.
  intros Hrows Hfail.
  unfold get_or_calculate_coverage_grid.
  set (key := generate_cache_key city bls filters None).
  destruct (if force then None else PyDict.get key (memory_cache m))
    as [e|] eqn:Hmem.
  - simpl. lia.
  - assert (Hcc : forall m0,
               memory_cache m0 = memory_cache m ->
               db_manager m0 = db_manager m ->
               let '(m', r) :=
                 calculate_and_cache E env m0 city bls filters in
               r = None /\ memory_cache m' = memory_cache m
               /\ db_manager m' = db_manager m).
    { intros m0 Hmc Hdb.
      pose proof (calculate_and_cache_falsy env m0 city bls filters) as Hf.
      destruct (calculate_and_cache E env m0 city bls filters) as [m' r].
      destruct Hf as (Hr & Hmc' & Hdb');
        [intros p ps; rewrite Hfail; discriminate|].
      repeat split; congruence. }
    destruct force.
    + specialize (Hcc (set_db (db_manager m) m) eq_refl eq_refl).
      destruct (calculate_and_cache _ _ _ _ _ _) as [m' r]. tauto.
    + destruct (get_cached_coverage_grid env (db_manager m) key)
        as [db cached] eqn:Hlook.
      destruct cached as [[|p ps]|].
      * rewrite get_cached_falsy in Hlook;
          [|exact Hrows|rewrite Hlook; discriminate].
        discriminate.
      * simpl. lia.
      * rewrite get_cached_falsy in Hlook;
          [|exact Hrows|rewrite Hlook; discriminate].
        injection Hlook as <-.
        specialize (Hcc (set_db (db_manager m) m) eq_refl eq_refl).
        destruct (calculate_and_cache _ _ _ _ _ _) as [m' r]. tauto.
Qed.

End CoordinatorFacts.

Lemma second_call_served_from_cache_witness :
  let m1 := fst (get_or_calculate_coverage_grid
                   one_point_engine (sample_env 0) (new_manager empty_db)
                   "tehran" ["restaurant"%string] filter_all false) in
  let second := get_or_calculate_coverage_grid
                  one_point_engine (sample_env 1) m1
                  "tehran" ["restaurant"%string] filter_all false in
  snd second = Some sample_grid /\ engine_calls (fst second) = 1%nat.
Proof.
  intros m1 second.
  assert (Hfirst : get_or_calculate_coverage_grid
                     one_point_engine (sample_env 0) (new_manager empty_db)
                     "tehran" ["restaurant"%string] filter_all false
                   = (m1, Some sample_grid)) by (vm_compute; reflexivity).
  assert (Hne : sample_grid <> []) by discriminate.
  pose proof (second_call_served_from_cache
                one_point_engine (sample_env 0) (sample_env 1)
                (new_manager empty_db) m1 "tehran" ["restaurant"%string]
                filter_all sample_grid Hfirst Hne) as H.
  fold second in H. destruct second as [m2 r2]. simpl.
  destruct H as [Hr Hc]. split; [exact Hr|]. rewrite Hc.
  vm_compute. reflexivity.
Defined.

(** C1, as stated, fails: the engine finds no vendor, the first call
    returns the empty grid, and the second identical call runs the
    computation again. *)
Lemma second_call_recomputes_empty_result :
  let m1 := fst (get_or_calculate_coverage_grid
                   no_vendor_engine (sample_env 0) (new_manager empty_db)
                   "tehran" ["restaurant"%string] filter_all false) in
  let m2 := fst (get_or_calculate_coverage_grid
                   no_vendor_engine (sample_env 1) m1
                   "tehran" ["restaurant"%string] filter_all false) in
  engine_calls m1 = 1%nat /\ engine_calls m2 = 2%nat
  /\ engine_calls m2 <> engine_calls m1.
Proof. vm_compute. repeat split. discriminate. Qed.

Lemma new_manager_uncached db key :
  coverage_grid_cache db = [] -> uncached (new_manager db) key.
Proof. intros H. split; [reflexivity|]. simpl. now rewrite H. Qed.

Lemma empty_result_returned_but_not_cached_witness :
  let first := get_or_calculate_coverage_grid
                 no_vendor_engine (sample_env 0) (new_manager empty_db)
                 "tehran" ["restaurant"%string] filter_all false in
  let second := get_or_calculate_coverage_grid
                  no_vendor_engine (sample_env 1) (fst first)
                  "tehran" ["restaurant"%string] filter_all false in
  snd first = Some [] /\ engine_calls (fst second) = 2%nat.
Proof.
  intros first second.
  pose proof (empty_result_returned_but_not_cached
                no_vendor_engine (sample_env 0) (sample_env 1)
                (new_manager empty_db) "tehran" ["restaurant"%string]
                filter_all false
                (new_manager_uncached empty_db _ eq_refl) eq_refl) as H.
  fold first in H. destruct first as [m1 r1].
  simpl fst in second. fold second in H. destruct second as [m2 r2].
  simpl. tauto.
Defined.

(** C2, as stated, fails: the empty result is returned, but no row is
    written, the in-memory cache stays empty, and the repeated query makes
    the second call of the computation. *)
Lemma empty_result_is_not_written :
  let first := get_or_calculate_coverage_grid
                 no_vendor_engine (sample_env 0) (new_manager empty_db)
                 "tehran" ["restaurant"%string] filter_all false in
  let second := get_or_calculate_coverage_grid
                  no_vendor_engine (sample_env 1) (fst first)
                  "tehran" ["restaurant"%string] filter_all false in
  snd first = Some []
  /\ memory_cache (fst first) = []
  /\ coverage_grid_cache (db_manager (fst first)) = []
  /\ engine_calls (fst second) = 2%nat
  /\ engine_calls (fst second) <> 1%nat.
Proof. vm_compute. repeat split. discriminate. Qed.

Lemma computation_failure_returned_and_not_cached_witness :
  let call := get_or_calculate_coverage_grid
                failing_engine (sample_env 0) (new_manager empty_db)
                "tehran" ["restaurant"%string] filter_all false in
  snd call = None
  /\ memory_cache (fst call) = []
  /\ db_manager (fst call) = empty_db.
Proof.
  intros call.
  pose proof (computation_failure_returned_and_not_cached
                failing_engine (sample_env 0) (new_manager empty_db)
                "tehran" ["restaurant"%string] filter_all false
                (Forall_nil _) eq_refl) as H.
  fold call in H.
  assert (Hc : engine_calls (fst call)
               = S (engine_calls (new_manager empty_db)))
    by (vm_compute; reflexivity).
  destruct call as [m' r]. simpl in *. apply H. exact Hc.
Defined.

(* ----------------------------------------------------------------- *)
(** *** The manager writes non-empty grids only *)

Lemma touch_row_grid key t r :
  cg_grid_data (touch_row key t r) = cg_grid_data r.
Proof. unfold touch_row. now destruct (String.eqb _ _). Qed.

Lemma get_cached_rows_truthy env db key :
  rows_truthy db -> rows_truthy (fst (get_cached_coverage_grid env db key)).
Proof.
  unfold rows_truthy, get_cached_coverage_grid. intros H.
  destruct (sqlite_ok env); [|exact H].
  destruct (find_row key (coverage_grid_cache db)); [|exact H].
  simpl. rewrite Forall_map.
  eapply Forall_impl; [|exact H]. intros r. now rewrite touch_row_grid.
Qed.

Lemma cache_coverage_grid_rows_truthy env db key city bl filters p ps :
  rows_truthy db ->
  rows_truthy
    (fst (cache_coverage_grid env db key city bl filters (p :: ps))).
Proof.
  unfold rows_truthy, cache_coverage_grid. intros H.
  destruct (sqlite_ok env); [|exact H].
  simpl. apply Forall_app. split.
  - rewrite Forall_forall in *. intros r Hr.
    apply filter_In in Hr. now apply H.
  - constructor; [discriminate|constructor].
Qed.

Lemma calculate_and_cache_rows_truthy E env m city bls filters :
  rows_truthy (db_manager m) ->
  rows_truthy (db_manager (fst (calculate_and_cache E env m city bls
                                                    filters))).
Proof.
  intros H.
  destruct (add_to_preload_queue_frame (now env) city bls filters m)
    as (_ & _ & _ & _ & Hdb & _).
  unfold calculate_and_cache.
  destruct (_calculate_coverage_grid E city bls filters) as [[|p ps]|];
    simpl; try now rewrite Hdb.
  pose proof (cache_coverage_grid_rows_truthy
                env (db_manager m)
                (generate_cache_key city bls filters None) city
                (join_business_lines bls) filters p ps H) as Hw.
  simpl. rewrite Hdb.
  destruct (cache_coverage_grid _ _ _ _ _ _ _) as [db' ok]. exact Hw.
Qed.

Lemma manager_step_rows_truthy E m m' :
  manager_step E m m' ->
  rows_truthy (db_manager m) -> rows_truthy (db_manager m').
Proof.
  intros Hstep H. destruct Hstep.
  - unfold get_or_calculate_coverage_grid.
    destruct (if force then None else PyDict.get _ (memory_cache m));
      [exact H|].
    destruct force.
    + now apply (calculate_and_cache_rows_truthy E env (set_db _ m)).
    + pose proof (get_cached_rows_truthy
                    env (db_manager m)
                    (generate_cache_key city bls filters None) H) as Hl.
      destruct (get_cached_coverage_grid _ _ _) as [db cached].
      destruct cached as [[|p ps]|]; try exact Hl;
        now apply (calculate_and_cache_rows_truthy E env (set_db db m)).
  - destruct (is_preloading m) eqn:Hp.
    + unfold start_preloading. now rewrite Hp.
    + rewrite (start_preloading_idle t m Hp). unfold executor_submit.
      simpl. now destruct (executor_shutdown m).
  - exact H.
  - unfold preload_worker_turn.
    destruct (preload_queue m) as [|task rest]; [exact H|].
    pose proof (get_cached_rows_truthy
                  env (db_manager m) (task_key task) H) as Hl.
    simpl. destruct (get_cached_coverage_grid _ _ _) as [db cached].
    destruct (truthy cached); [exact Hl|].
    destruct (_calculate_coverage_grid _ _ _ _) as [[|p ps]|];
      try exact Hl.
    pose proof (cache_coverage_grid_rows_truthy
                  env db (task_key task) (city_name task)
                  (join_business_lines (business_lines task))
                  (vendor_filters task) p ps Hl) as Hw.
    simpl. destruct (cache_coverage_grid _ _ _ _ _ _ _) as [db' ok].
    exact Hw.
Qed.

(* ================================================================= *)
(** * Further properties of the cache manager *)

(* ----------------------------------------------------------------- *)
(** *** Priorities and the preload queue *)

Lemma priority_le_total a b :
  priority_le a b = true \/ priority_le b a = true.
Proof. unfold priority_le. rewrite !Z.leb_le. lia. Qed.

Lemma priority_le_trans a b c :
  priority_le a b = true -> priority_le b c = true -> priority_le a c = true.
Proof. unfold priority_le. rewrite !Z.leb_le. lia. Qed.

Lemma sorted_queue_ordered q : queue_ordered (sorted priority_le q).
Proof.
  apply sorted_ordered; [apply priority_le_total|apply priority_le_trans].
Qed.

(** X1. [_calculate_priority] only ever yields 1, 2 or 3: each of the four
    bonuses brings the result to 2 or below, and 3 is the result exactly
    when none applies, so the levels 4 and 5 are never assigned. *)
Theorem calculate_priority_range
    (city : string) (bls : list string) (filters : dict) :
  let p := _calculate_priority city bls filters in
  1 <= p <= 3
  /\ (city = "tehran"%string -> p <= 2)
  /\ (In "restaurant"%string bls -> p <= 2)
  /\ (List.length bls = 1%nat -> p <= 2)
  /\ (grades_premium filters = true -> p <= 2)
  /\ (p = 3 <->
      city <> "tehran"%string /\ ~ In "restaurant"%string bls
      /\ List.length bls <> 1%nat /\ grades_premium filters = false).
Proof.
  unfold _calculate_priority.
  pose proof (existsb_eqb_In "restaurant" bls) as Hin.
  destruct (String.eqb_spec city "tehran") as [Hc|Hc];
    destruct (existsb (String.eqb "restaurant") bls);
    destruct (Nat.eqb_spec (List.length bls) 1) as [Hl|Hl];
    destruct (grades_premium filters);
    cbn -[In List.length];
    intuition (try lia; try congruence; try discriminate).
Qed.

(** X2. Every common combination has priority 1 or 2, so the priority test
    of [warm_up_cache] excludes nothing: the combinations it warms up are
    exactly the common combinations of the given cities, in their order. *)
Theorem warm_up_selects_by_city_only (priority_cities : list string) :
  Forall (fun combo => 1 <= combo_priority combo <= 2) common_combinations
  /\ high_priority_combos (Some priority_cities)
     = filter (fun combo =>
                 existsb (String.eqb (combo_city_name combo)) priority_cities)
              common_combinations.
Proof.
  assert (Hall : Forall (fun combo => 1 <= combo_priority combo <= 2)
                        common_combinations).
  { apply Forall_forall. intros combo Hin.
    assert (Hb : forallb (fun c => (1 <=? combo_priority c)
                                   && (combo_priority c <=? 2))
                         common_combinations = true)
      by (vm_compute; reflexivity).
    rewrite forallb_forall in Hb. specialize (Hb combo Hin).
    apply andb_true_iff in Hb as [H1 H2].
    apply Z.leb_le in H1, H2. lia. }
  split; [exact Hall|].
  unfold high_priority_combos. apply filter_ext_in.
  intros combo Hin. rewrite Forall_forall in Hall.
  destruct (Hall combo Hin) as [_ H2]. apply Z.leb_le in H2.
  rewrite H2. apply andb_true_r.
Qed.

Lemma insert_sorted_front {A : Type} (le : A -> A -> bool) a h l :
  le a h = true -> insert_sorted le a (h :: l) = a :: h :: l.
Proof. intros H. simpl. now rewrite H. Qed.

Lemma insert_sorted_least {A : Type} (le : A -> A -> bool) a l :
  Forall (fun y => le a y = true) l -> insert_sorted le a l = a :: l.
Proof.
  destruct l as [|h l]; [reflexivity|].
  intros H. apply insert_sorted_front. now inversion H.
Qed.

(** Sorting an ordered queue with one task appended puts the task behind
    the tasks that are at least as urgent and before all others. *)
Lemma sorted_snoc_ordered q task :
  queue_ordered q ->
  sorted priority_le (q ++ [task])
  = filter (fun x => priority x <=? priority task) q
    ++ task :: filter (fun x => negb (priority x <=? priority task)) q.
Proof.
  induction 1 as [|a q Hq IH Ha]; [reflexivity|].
  simpl. rewrite IH.
  destruct (priority a <=? priority task) eqn:Hat; simpl.
  - destruct (filter (fun x => priority x <=? priority task) q)
      as [|h rest] eqn:Hf.
    + simpl. unfold priority_le at 1. now rewrite Hat.
    + simpl. assert (Hh : In h q).
      { assert (Hin : In h (h :: rest)) by now left.
        rewrite <- Hf in Hin. now apply filter_In in Hin. }
      rewrite Forall_forall in Ha. rewrite (Ha h Hh). reflexivity.
  - assert (Hgt : forall y, In y q ->
                            (priority y <=? priority task) = false).
    { intros y Hy. rewrite Forall_forall in Ha. specialize (Ha y Hy).
      unfold holds, priority_le in Ha. apply Z.leb_le in Ha.
      apply Z.leb_gt in Hat. apply Z.leb_gt. lia. }
    assert (E1 : filter (fun x => priority x <=? priority task) q = []).
    { clear -Hgt. induction q as [|y q IHq]; [reflexivity|].
      simpl. rewrite (Hgt y) by now left. apply IHq.
      intros z Hz. apply Hgt. now right. }
    assert (E2 : filter (fun x => negb (priority x <=? priority task)) q = q).
    { clear -Hgt. induction q as [|y q IHq]; [reflexivity|].
      simpl. rewrite (Hgt y) by now left. simpl. f_equal. apply IHq.
      intros z Hz. apply Hgt. now right. }
    rewrite E1, E2. simpl. unfold priority_le at 1. rewrite Hat.
    f_equal. now apply insert_sorted_least.
Qed.

(** X3. When the queue is ordered by priority and holds no task with the
    request's key, [_add_to_preload_queue] inserts the new task behind every
    pending task of the same or a smaller priority number and before all
    others; the pending tasks keep their order (first in, first out within
    a priority). *)
Theorem add_to_preload_queue_position
    (t : Z) (city : string) (bls : list string) (filters : dict)
    (m : Manager) :
  queue_ordered (preload_queue m) ->
  ~ In (generate_cache_key city bls filters None)
       (map task_key (preload_queue m)) ->
  let p := _calculate_priority city bls filters in
  preload_queue (_add_to_preload_queue t city bls filters m)
  = filter (fun x => priority x <=? p) (preload_queue m)
    ++ {| city_name := city; business_lines := bls;
          vendor_filters := filters; priority := p; created_at := t |}
    :: filter (fun x => negb (priority x <=? p)) (preload_queue m).
Proof.
  intros Hord Hnew p. unfold _add_to_preload_queue.
  destruct (existsb _ _) eqn:Hex.
  - apply existsb_eqb_In in Hex. contradiction.
  - simpl. now rewrite sorted_snoc_ordered.
Qed.

Lemma add_to_preload_queue_position_witness :
  map priority
      (preload_queue
         (_add_to_preload_queue 1 "mashhad" ["coffee"%string] filter_all
            (_add_to_preload_queue 0 "tehran" ["restaurant"%string]
                                   filter_premium (new_manager empty_db))))
  = [1; 2].
Proof.
  rewrite add_to_preload_queue_position.
  - vm_compute. reflexivity.
  - apply sorted_queue_ordered.
  - vm_compute. intros [H|[]]. discriminate.
Defined.

(** X4. [_add_to_preload_queue] never makes two pending tasks share a cache
    key; a request whose key is already pending leaves the whole manager
    unchanged (the pending task keeps its priority and its place), so
    making the same request twice is the same as making it once. *)
Theorem add_to_preload_queue_deduplicates
    (t t' : Z) (city : string) (bls : list string) (filters : dict)
    (m : Manager) :
  NoDup (map task_key (preload_queue m)) ->
  NoDup (map task_key
             (preload_queue (_add_to_preload_queue t city bls filters m)))
  /\ (In (generate_cache_key city bls filters None)
         (map task_key (preload_queue m)) ->
      _add_to_preload_queue t city bls filters m = m)
  /\ _add_to_preload_queue t' city bls filters
                           (_add_to_preload_queue t city bls filters m)
     = _add_to_preload_queue t city bls filters m.
Proof.
  intros Hnd. split; [now apply add_to_preload_queue_unique|].
  split; [apply add_to_preload_queue_pending|apply add_to_preload_queue_twice].
Qed.

Lemma add_to_preload_queue_deduplicates_witness :
  _add_to_preload_queue 1 "tehran" ["restaurant"%string] filter_all
    (_add_to_preload_queue 0 "tehran" ["restaurant"%string] filter_all
                           (new_manager empty_db))
  = _add_to_preload_queue 0 "tehran" ["restaurant"%string] filter_all
                          (new_manager empty_db).
Proof.
  apply (add_to_preload_queue_deduplicates
           0 1 "tehran" ["restaurant"%string] filter_all
           (new_manager empty_db)).
  constructor.
Defined.

(** X5. With the flag down and the executor alive, [start_preloading]
    returns normally, raises the flag, submits one worker, and leaves the
    queue ordered by priority, holding the tasks that were pending and one
    task per common combination (54 more); a second call is then a no-op. *)
Theorem start_preloading_seeds_and_submits (t t' : Z) (m : Manager) :
  is_preloading m = false ->
  executor_shutdown m = false ->
  let m' := fst (start_preloading t m) in
  snd (start_preloading t m) = Returns tt
  /\ is_preloading m' = true
  /\ workers_submitted m' = S (workers_submitted m)
  /\ Permutation (preload_queue m')
                 (preload_queue m
                  ++ map (task_of_combination t) common_combinations)
  /\ List.length (preload_queue m') = (List.length (preload_queue m) + 54)%nat
  /\ queue_ordered (preload_queue m')
  /\ start_preloading t' m' = (m', Returns tt).
Proof.
  intros Hidle Halive m'. subst m'.
  rewrite (start_preloading_idle t m Hidle).
  set (tasks := map (task_of_combination t) common_combinations).
  assert (Hlen : List.length tasks = 54%nat)
    by (unfold tasks; rewrite length_map; reflexivity).
  clearbody tasks.
  assert (HP : Permutation (sorted priority_le (preload_queue m ++ tasks))
                           (preload_queue m ++ tasks))
    by apply Permutation_sym, sorted_perm.
  pose proof (Permutation_length HP) as HL. rewrite length_app, Hlen in HL.
  pose proof (sorted_queue_ordered (preload_queue m ++ tasks)) as Hord.
  set (q' := sorted priority_le (preload_queue m ++ tasks)) in *.
  clearbody q'.
  unfold executor_submit. simpl. rewrite Halive. simpl.
  repeat split; auto.
Qed.

Lemma start_preloading_seeds_and_submits_witness :
  List.length (preload_queue (fst (start_preloading 0 (new_manager empty_db))))
  = 54%nat.
Proof.
  apply (start_preloading_seeds_and_submits 0 1 (new_manager empty_db));
    reflexivity.
Defined.

(* ----------------------------------------------------------------- *)
(** *** Tables with a unique key: [INSERT OR REPLACE] and lookups *)

Section UpsertFacts.

Context {A : Type} (key_of : A -> string).

Lemma NoDup_map_filter (q : A -> bool) l :
  NoDup (map key_of l) -> NoDup (map key_of (filter q l)).
Proof.
  induction l as [|a l IH]; simpl; [constructor|].
  rewrite NoDup_cons_iff. intros [Ha Hnd].
  destruct (q a); [|now apply IH].
  simpl. constructor; [|now apply IH].
  rewrite in_map_iff. intros (y & Hy & Hin).
  apply filter_In in Hin as [Hin _]. apply Ha.
  rewrite <- Hy. now apply in_map.
Qed.

Lemma find_app_cases (p : A -> bool) l1 l2 :
  find p (l1 ++ l2)
  = match find p l1 with Some x => Some x | None => find p l2 end.
Proof.
  induction l1 as [|a l1 IH]; simpl; [reflexivity|].
  now destruct (p a).
Qed.

Lemma find_filter_none (p q : A -> bool) l :
  (forall y, p y = true -> q y = false) -> find p (filter q l) = None.
Proof.
  intros H. induction l as [|a l IH]; simpl; [reflexivity|].
  destruct (q a) eqn:Hq; [|exact IH].
  simpl. destruct (p a) eqn:Hp; [|exact IH].
  rewrite (H a Hp) in Hq. discriminate.
Qed.

Lemma find_filter_same (p q : A -> bool) l :
  (forall y, p y = true -> q y = true) -> find p (filter q l) = find p l.
Proof.
  intros H. induction l as [|a l IH]; simpl; [reflexivity|].
  destruct (p a) eqn:Hp.
  - rewrite (H a Hp). simpl. now rewrite Hp.
  - destruct (q a); simpl; [now rewrite Hp|exact IH].
Qed.

Lemma find_filter_found (p q : A -> bool) l x :
  find p l = Some x -> q x = true -> find p (filter q l) = Some x.
Proof.
  induction l as [|a l IH]; simpl; [discriminate|].
  destruct (p a) eqn:Hp.
  - intros [= ->] Hq. rewrite Hq. simpl. now rewrite Hp.
  - intros Hf Hq. destruct (q a); simpl; [rewrite Hp|]; now apply IH.
Qed.

Lemma upsert_find_same x rows :
  find (has_key key_of (key_of x)) (upsert key_of x rows) = Some x.
Proof.
  unfold upsert. rewrite find_app_cases, find_filter_none.
  - simpl. unfold has_key. now rewrite String.eqb_refl.
  - intros y Hy. now rewrite Hy.
Qed.

Lemma upsert_find_other x rows key :
  key <> key_of x ->
  find (has_key key_of key) (upsert key_of x rows) = find (has_key key_of key) rows.
Proof.
  intros Hne. unfold upsert. rewrite find_app_cases, find_filter_same.
  - destruct (find (has_key key_of key) rows); [reflexivity|].
    simpl. unfold has_key.
    destruct (String.eqb_spec (key_of x) key); [congruence|reflexivity].
  - intros y Hy. unfold has_key in *. apply String.eqb_eq in Hy.
    apply negb_true_iff.
    destruct (String.eqb_spec (key_of y) (key_of x)); congruence.
Qed.

Lemma upsert_keys_unique x rows :
  NoDup (map key_of rows) -> NoDup (map key_of (upsert key_of x rows)).
Proof.
  intros Hnd. unfold upsert. rewrite map_app. simpl.
  apply (Permutation_NoDup
           (l := key_of x
                 :: map key_of
                        (filter (fun r => negb (has_key key_of (key_of x) r)) rows))).
  - apply Permutation_cons_append.
  - constructor.
    + rewrite in_map_iff. intros (y & Hy & Hin).
      apply filter_In in Hin as [_ Hin]. unfold has_key in Hin.
      rewrite Hy, String.eqb_refl in Hin. discriminate.
    + now apply NoDup_map_filter.
Qed.

End UpsertFacts.

Lemma cache_coverage_grid_upsert env db key city bl filters grid :
  sqlite_ok env = true ->
  coverage_grid_cache
    (fst (cache_coverage_grid env db key city bl filters grid))
  = upsert cg_cache_key
      {| cg_cache_key := key; cg_city_name := city;
         cg_business_line := bl; cg_vendor_filters := filters;
         cg_grid_data := grid;
         cg_point_count := Z.of_nat (List.length grid);
         cg_created_at := now env; cg_last_accessed := now env |}
      (coverage_grid_cache db).
Proof. intros Hok. unfold cache_coverage_grid. now rewrite Hok. Qed.

Lemma get_cached_result env db key :
  sqlite_ok env = true ->
  snd (get_cached_coverage_grid env db key)
  = option_map cg_grid_data (find_row key (coverage_grid_cache db)).
Proof.
  intros Hok. unfold get_cached_coverage_grid. rewrite Hok.
  now destruct (find_row key (coverage_grid_cache db)).
Qed.

Lemma find_row_upsert_same key row rows :
  cg_cache_key row = key ->
  find_row key (upsert cg_cache_key row rows) = Some row.
Proof. intros <-. exact (upsert_find_same cg_cache_key row rows). Qed.

Lemma find_row_upsert_other key row rows :
  key <> cg_cache_key row ->
  find_row key (upsert cg_cache_key row rows) = find_row key rows.
Proof. exact (upsert_find_other cg_cache_key row rows key). Qed.

(** X6. A grid stored with [cache_coverage_grid] is what
    [get_cached_coverage_grid] returns for its key afterwards, whatever the
    table held for the key before; lookups of every other key answer as
    before the write.  When the connection fails, the write reports [False]
    and leaves the database as it was, and a lookup answers [None]. *)
Theorem cache_then_get_cached_coverage_grid
    (env env' : Env) (db : Database) (key city bl : string) (filters : dict)
    (grid : Grid) :
  sqlite_ok env' = true ->
  (sqlite_ok env = true ->
   let db' := fst (cache_coverage_grid env db key city bl filters grid) in
   snd (cache_coverage_grid env db key city bl filters grid) = true
   /\ snd (get_cached_coverage_grid env' db' key) = Some grid
   /\ forall key', key' <> key ->
        snd (get_cached_coverage_grid env' db' key')
        = snd (get_cached_coverage_grid env' db key'))
  /\ (sqlite_ok env = false ->
      cache_coverage_grid env db key city bl filters grid = (db, false)
      /\ get_cached_coverage_grid env db key = (db, None)).
Proof.
  intros Hok'. split.
  - intros Hok db'. subst db'.
    split; [unfold cache_coverage_grid; now rewrite Hok|].
    rewrite !get_cached_result by assumption.
    rewrite cache_coverage_grid_upsert by assumption.
    split.
    + now rewrite find_row_upsert_same.
    + intros key' Hne. rewrite !get_cached_result by assumption.
      rewrite cache_coverage_grid_upsert by assumption.
      now rewrite find_row_upsert_other.
  - intros Hdown. unfold cache_coverage_grid, get_cached_coverage_grid.
    now rewrite Hdown.
Qed.

Lemma cache_then_get_cached_coverage_grid_witness :
  snd (get_cached_coverage_grid
         (sample_env 1)
         (fst (cache_coverage_grid (sample_env 0) aged_db "old" "tehran"
                                   "restaurant" filter_all sample_grid))
         "old")
  = Some sample_grid.
Proof.
  apply (cache_then_get_cached_coverage_grid
           (sample_env 0) (sample_env 1) aged_db "old" "tehran" "restaurant"
           filter_all sample_grid eq_refl); reflexivity.
Defined.

Lemma touch_row_key key t r : cg_cache_key (touch_row key t r) = cg_cache_key r.
Proof. unfold touch_row. now destruct (String.eqb _ _). Qed.

Lemma get_cached_keys env db key :
  map cg_cache_key
      (coverage_grid_cache (fst (get_cached_coverage_grid env db key)))
  = map cg_cache_key (coverage_grid_cache db).
Proof.
  unfold get_cached_coverage_grid.
  destruct (sqlite_ok env); [|reflexivity].
  destruct (find_row key (coverage_grid_cache db)); [|reflexivity].
  simpl. rewrite map_map. apply map_ext. intros r. apply touch_row_key.
Qed.

Lemma cache_coverage_grid_keys_unique env db key city bl filters grid :
  NoDup (map cg_cache_key (coverage_grid_cache db)) ->
  NoDup (map cg_cache_key
             (coverage_grid_cache
                (fst (cache_coverage_grid env db key city bl filters grid)))).
Proof.
  intros Hnd. destruct (sqlite_ok env) eqn:Hok.
  - rewrite cache_coverage_grid_upsert by assumption.
    now apply upsert_keys_unique.
  - unfold cache_coverage_grid. now rewrite Hok.
Qed.

(** X7. The coverage table keeps one row per cache key: a write replaces
    the row of its key and a lookup changes no key, so neither creates a
    second row for a key; a write adds at most one row to the table and
    never touches the heatmap table. *)
Theorem coverage_table_one_row_per_key
    (env : Env) (db : Database) (key city bl : string) (filters : dict)
    (grid : Grid) :
  NoDup (map cg_cache_key (coverage_grid_cache db)) ->
  let written := fst (cache_coverage_grid env db key city bl filters grid) in
  let read := fst (get_cached_coverage_grid env db key) in
  NoDup (map cg_cache_key (coverage_grid_cache written))
  /\ NoDup (map cg_cache_key (coverage_grid_cache read))
  /\ (List.length (coverage_grid_cache written)
      <= S (List.length (coverage_grid_cache db)))%nat
  /\ List.length (coverage_grid_cache read)
     = List.length (coverage_grid_cache db)
  /\ heatmap_cache written = heatmap_cache db
  /\ heatmap_cache read = heatmap_cache db.
Proof.
  intros Hnd written read. subst written read.
  split; [now apply cache_coverage_grid_keys_unique|].
  split; [now rewrite get_cached_keys|].
  split; [|split; [|split]].
  - unfold cache_coverage_grid. destruct (sqlite_ok env); simpl; [|lia].
    rewrite length_app. simpl.
    pose proof (filter_length_le
                  (fun r => negb (String.eqb (cg_cache_key r) key))
                  (coverage_grid_cache db)). lia.
  - rewrite <- (length_map cg_cache_key), get_cached_keys.
    apply length_map.
  - unfold cache_coverage_grid. now destruct (sqlite_ok env).
  - unfold get_cached_coverage_grid. destruct (sqlite_ok env); [|reflexivity].
    now destruct (find_row key (coverage_grid_cache db)).
Qed.

Lemma coverage_table_one_row_per_key_witness :
  NoDup
    (map cg_cache_key
         (coverage_grid_cache
            (fst (cache_coverage_grid (sample_env 0) aged_db "old" "tehran"
                                      "restaurant" filter_all sample_grid)))).
Proof.
  apply (coverage_table_one_row_per_key
           (sample_env 0) aged_db "old" "tehran" "restaurant"
           filter_all sample_grid).
  apply distinct_NoDup. reflexivity.
Defined.

Lemma find_row_touch key t rows :
  find_row key (map (touch_row key t) rows)
  = option_map (touch_row key t) (find_row key rows).
Proof.
  unfold find_row. induction rows as [|r rows IH]; simpl; [reflexivity|].
  rewrite touch_row_key. now destruct (String.eqb (cg_cache_key r) key).
Qed.

Lemma touch_row_accessed key t r :
  cg_cache_key r = key -> cg_last_accessed (touch_row key t r) = t.
Proof. intros <-. unfold touch_row. now rewrite String.eqb_refl. Qed.

Lemma find_filter_none_in {A : Type} (p q : A -> bool) l :
  (forall y, In y l -> p y = true -> q y = false) ->
  find p (filter q l) = None.
Proof.
  induction l as [|a l IH]; intros H; simpl; [reflexivity|].
  assert (IH' : find p (filter q l) = None)
    by (apply IH; intros y Hy; apply H; now right).
  destruct (q a) eqn:Hq; [|exact IH'].
  simpl. destruct (p a) eqn:Hp; [|exact IH'].
  rewrite (H a (or_introl eq_refl) Hp) in Hq. discriminate.
Qed.

(** X8. A lookup renews the lease of a row.  A coverage row returned by
    [get_cached_coverage_grid] carries the second of the lookup, however
    old it was before.  A later [cleanup_old_cache] whose cutoff, the local
    clock reading less [days_old] days, is a [datetime] keeps the row, which
    is then still served, when the cutoff is not after that second, and
    deletes it, so that the key is no longer served, when the cutoff is
    after it. *)
Theorem lookup_protects_row_from_cleanup
    (env env' env'' : Env) (utc_offset : Z) (db : Database) (key : string)
    (days_old cutoff : Z) (r : CoverageRow) :
  sqlite_ok env = true -> sqlite_ok env' = true -> sqlite_ok env'' = true ->
  find_row key (coverage_grid_cache db) = Some r ->
  cleanup_cutoff env' utc_offset days_old = Returns cutoff ->
  exists out,
    cleanup_old_cache env' utc_offset
                      (fst (get_cached_coverage_grid env db key))
                      days_old = Returns out
    /\ (cutoff <= whole_seconds (now env) ->
        snd (get_cached_coverage_grid env'' (cleaned_db out) key)
        = Some (cg_grid_data r))
    /\ (whole_seconds (now env) < cutoff ->
        snd (get_cached_coverage_grid env'' (cleaned_db out) key) = None).
Proof.
  intros Hok Hok' Hok'' Hfind Hcut.
  rewrite (cleanup_old_cache_returns env' utc_offset _ days_old cutoff
                                     Hok' Hcut).
  eexists. split; [reflexivity|].
  rewrite get_cached_result by assumption. simpl.
  unfold get_cached_coverage_grid. rewrite Hok, Hfind. simpl.
  assert (Hkey : cg_cache_key r = key).
  { apply find_some in Hfind as [_ Hk]. now apply String.eqb_eq in Hk. }
  split.
  - intros Hfresh. unfold find_row at 1.
    erewrite find_filter_found.
    + simpl. apply f_equal. apply touch_row_grid.
    + fold (find_row key (map (touch_row key (now env))
                              (coverage_grid_cache db))).
      rewrite find_row_touch, Hfind. reflexivity.
    + apply negb_true_iff, Z.ltb_ge.
      rewrite touch_row_accessed by exact Hkey. exact Hfresh.
  - intros Hstale. unfold find_row.
    rewrite find_filter_none_in; [reflexivity|].
    intros y Hy Hk. apply in_map_iff in Hy as (x & <- & _).
    rewrite touch_row_key in Hk. apply String.eqb_eq in Hk.
    apply negb_false_iff, Z.ltb_lt.
    rewrite touch_row_accessed by exact Hk. exact Hstale.
Qed.

Lemma lookup_protects_row_from_cleanup_witness :
  exists out,
    cleanup_old_cache (sample_env (10 * day)) 0
                      (fst (get_cached_coverage_grid (sample_env (9 * day))
                                                     aged_db "old"))
                      cleanup_default_days = Returns out
    /\ snd (get_cached_coverage_grid (sample_env (10 * day))
                                     (cleaned_db out) "old")
       = Some [].
Proof.
  destruct (lookup_protects_row_from_cleanup
              (sample_env (9 * day)) (sample_env (10 * day))
              (sample_env (10 * day)) 0 aged_db "old" cleanup_default_days
              (3 * day) (sample_row "old" (2 * day))
              eq_refl eq_refl eq_refl eq_refl eq_refl)
    as (out & Hout & Hkept & _).
  exists out. split; [exact Hout|].
  apply Hkept. vm_compute. discriminate.
Defined.

(** On a server three and a half hours east of UTC, a row looked up 21
    hours before a cleanup with a retention of one day is deleted: the
    cutoff is read from the local clock and the stamp from UTC. *)
Lemma cleanup_east_of_utc_deletes_fresh_row :
  let hour := 3600 * second in
  let looked_up :=
    fst (get_cached_coverage_grid (sample_env (9 * day)) aged_db "old") in
  exists out,
    cleanup_old_cache (sample_env (9 * day + 21 * hour))
                      (3 * hour + 1800 * second) looked_up 1 = Returns out
    /\ snd (get_cached_coverage_grid (sample_env (10 * day))
                                     (cleaned_db out) "old") = None
    /\ exists out',
         cleanup_old_cache (sample_env (9 * day + 21 * hour)) 0 looked_up 1
         = Returns out'
         /\ snd (get_cached_coverage_grid (sample_env (10 * day))
                                          (cleaned_db out') "old")
            = Some [].
Proof.
  eexists. split; [vm_compute; reflexivity|].
  split; [vm_compute; reflexivity|].
  eexists. split; vm_compute; reflexivity.
Qed.

Lemma filter_idempotent {A : Type} (p : A -> bool) l :
  filter p (filter p l) = filter p l.
Proof.
  induction l as [|a l IH]; simpl; [reflexivity|].
  destruct (p a) eqn:Hp; simpl; [rewrite Hp; now f_equal|exact IH].
Qed.

Lemma filter_excluded {A : Type} (p : A -> bool) l :
  filter p (filter (fun x => negb (p x)) l) = [].
Proof.
  induction l as [|a l IH]; simpl; [reflexivity|].
  destruct (p a) eqn:Hp; simpl; [exact IH|now rewrite Hp].
Qed.

(** X9. [cleanup_old_cache] finishes its job in one pass: a second call
    with the same clock reading and retention deletes nothing, logs zero
    for both tables and leaves the database as the first call left it.
    When the connection fails the exception reaches the caller. *)
Theorem cleanup_old_cache_idempotent
    (env : Env) (utc_offset : Z) (db : Database) (days_old : Z)
    (out : CleanupOutcome) :
  cleanup_old_cache env utc_offset db days_old = Returns out ->
  cleanup_old_cache env utc_offset (cleaned_db out) days_old
  = Returns {| cleaned_db := cleaned_db out;
               logged_coverage_deleted := 0;
               logged_heatmap_deleted := 0;
               returned := None |}
  /\ forall db', cleanup_old_cache
                   {| now := now env; sqlite_ok := false |} utc_offset db'
                   days_old
                 = Raises.
Proof.
  unfold cleanup_old_cache, cleanup_cutoff. simpl now.
  destruct ((days_old <? - max_timedelta_days)
            || (max_timedelta_days <? days_old)); [discriminate|].
  cbv zeta.
  destruct ((now env + utc_offset - days_old * day <? 0)
            || (datetime_max <? now env + utc_offset - days_old * day));
    [discriminate|].
  simpl py_bind. destruct (sqlite_ok env); [|discriminate].
  intros [= <-]. simpl. split; [|reflexivity].
  rewrite !filter_idempotent, !filter_excluded. reflexivity.
Qed.

Lemma cleanup_old_cache_idempotent_witness :
  exists out,
    cleanup_old_cache (sample_env (10 * day)) 0 aged_db 7 = Returns out
    /\ cleanup_old_cache (sample_env (10 * day)) 0 (cleaned_db out) 7
       = Returns {| cleaned_db := cleaned_db out;
                    logged_coverage_deleted := 0;
                    logged_heatmap_deleted := 0;
                    returned := None |}.
Proof.
  eexists. split; [reflexivity|].
  apply (cleanup_old_cache_idempotent (sample_env (10 * day)) 0 aged_db 7).
  reflexivity.
Defined.

(* ----------------------------------------------------------------- *)
(** *** models.py: the heatmap cache and the metadata table *)

(** X10. A heatmap stored with [cache_heatmap], at a zoom level SQLite
    can bind, is what [get_cached_heatmap] returns for its key, whatever
    was stored for the key before; other keys answer as before and the
    coverage table is not touched.  A write that fails, because the
    connection does or because the zoom level is outside the signed 64-bit
    range, reports [False] and changes nothing. *)
Theorem cache_then_get_cached_heatmap
    (env env' : Env) (db : Database)
    (key heatmap_type city date_range bl : string) (zoom : Z)
    (heatmap : json) :
  sqlite_ok env' = true ->
  let written := cache_heatmap env db key heatmap_type city date_range bl
                               zoom heatmap in
  (sqlite_ok env = true -> - 2 ^ 63 <= zoom < 2 ^ 63 ->
   snd written = true
   /\ get_cached_heatmap env' (fst written) key = Some heatmap
   /\ (forall key', key' <> key ->
         get_cached_heatmap env' (fst written) key'
         = get_cached_heatmap env' db key')
   /\ coverage_grid_cache (fst written) = coverage_grid_cache db)
  /\ (sqlite_ok env = false \/ zoom < - 2 ^ 63 \/ 2 ^ 63 <= zoom ->
      written = (db, false)).
Proof.
  intros Hok' written. subst written. unfold cache_heatmap, sqlite_int64.
  split.
  - intros Hok Hzoom. rewrite Hok.
    replace (- 2 ^ 63 <=? zoom) with true by (symmetry; apply Z.leb_le; lia).
    replace (zoom <? 2 ^ 63) with true by (symmetry; apply Z.ltb_lt; lia).
    simpl andb. cbv iota. simpl fst. simpl snd.
    unfold get_cached_heatmap. rewrite Hok'. simpl heatmap_cache.
    set (row := {| hm_cache_key := key; hm_heatmap_type := heatmap_type;
                   hm_city_name := city; hm_date_range := date_range;
                   hm_business_line := bl; hm_zoom_level := zoom;
                   hm_heatmap_data := heatmap; hm_created_at := now env |}).
    repeat split.
    + pose proof (upsert_find_same hm_cache_key row (heatmap_cache db)) as Hf.
      unfold upsert, has_key in Hf. simpl in Hf. now rewrite Hf.
    + intros key' Hne.
      pose proof (upsert_find_other hm_cache_key row (heatmap_cache db) key'
                                    Hne) as Hf.
      unfold upsert, has_key in Hf. simpl in Hf. now rewrite Hf.
  - intros [Hfail|Hzoom].
    + now rewrite Hfail.
    + replace ((- 2 ^ 63 <=? zoom) && (zoom <? 2 ^ 63)) with false.
      * now rewrite andb_false_r.
      * symmetry. apply andb_false_iff.
        destruct Hzoom; [left; apply Z.leb_gt|right; apply Z.ltb_ge]; lia.
Qed.

Lemma cache_then_get_cached_heatmap_witness :
  get_cached_heatmap
    (sample_env 1)
    (fst (cache_heatmap (sample_env 0) aged_db "old" "orders" "tehran" ""
                        "restaurant" 11 (JList [JInt 1])))
    "old"
  = Some (JList [JInt 1]).
Proof.
  apply (cache_then_get_cached_heatmap
           (sample_env 0) (sample_env 1) aged_db "old" "orders" "tehran" ""
           "restaurant" 11 (JList [JInt 1]) eq_refl).
  - reflexivity.
  - vm_compute. split; [discriminate|reflexivity].
Defined.

(** X11. [set_metadata] followed by [get_metadata] of the same key returns
    the value just set, replacing any earlier value; other keys read as
    before; and both functions let an exception of the connection reach the
    caller instead of returning. *)
Theorem set_then_get_metadata
    (env env' : Env) (table : Metadata) (key value : string) :
  sqlite_ok env' = true ->
  (sqlite_ok env = true ->
   exists table',
     set_metadata env table key value = Returns table'
     /\ get_metadata env' table' key = Returns (Some value)
     /\ forall key', key' <> key ->
          get_metadata env' table' key' = get_metadata env' table key')
  /\ (sqlite_ok env = false ->
      set_metadata env table key value = Raises
      /\ get_metadata env table key = Raises).
Proof.
  intros Hok'. unfold set_metadata, get_metadata.
  split; intros Hok; rewrite Hok; [|now split].
  rewrite Hok'. eexists. split; [reflexivity|].
  set (row := {| md_key := key; md_value := value;
                 md_updated_at := now env |}).
  split.
  - pose proof (upsert_find_same md_key row table) as Hf.
    unfold upsert, has_key in Hf. simpl in Hf. now rewrite Hf.
  - intros key' Hne.
    pose proof (upsert_find_other md_key row table key' Hne) as Hf.
    unfold upsert, has_key in Hf. simpl in Hf. now rewrite Hf.
Qed.

Lemma set_then_get_metadata_witness :
  exists table',
    set_metadata (sample_env 0) [] "orders_last_update" "2024-01-01"
    = Returns table'
    /\ get_metadata (sample_env 1) table' "orders_last_update"
       = Returns (Some "2024-01-01"%string).
Proof.
  destruct (set_then_get_metadata
              (sample_env 0) (sample_env 1) [] "orders_last_update"
              "2024-01-01" eq_refl) as [Hup _].
  destruct (Hup eq_refl) as (table' & Hset & Hget & _).
  exists table'. now split.
Defined.

(* ----------------------------------------------------------------- *)
(** *** cache_manager.py: a turn of the preload worker *)

Lemma cache_coverage_grid_heatmap env db key city bl filters grid :
  heatmap_cache (fst (cache_coverage_grid env db key city bl filters grid))
  = heatmap_cache db.
Proof. unfold cache_coverage_grid. now destruct (sqlite_ok env). Qed.

Lemma get_cached_heatmap_frame env db key :
  heatmap_cache (fst (get_cached_coverage_grid env db key)) = heatmap_cache db.
Proof.
  unfold get_cached_coverage_grid. destruct (sqlite_ok env); [|reflexivity].
  now destruct (find_row key (coverage_grid_cache db)).
Qed.

(** X12. A turn of the preload worker takes the task at the head of the
    queue and nothing else off it, runs the computation at most once, and
    never touches the in-memory cache, the flags, the executor or the
    heatmap table; on an empty queue it changes nothing. *)
Theorem preload_worker_turn_frame (E : Engine) (env : Env) (m : Manager) :
  let m' := preload_worker_turn E env m in
  preload_queue m' = tl (preload_queue m)
  /\ memory_cache m' = memory_cache m
  /\ is_preloading m' = is_preloading m
  /\ executor_shutdown m' = executor_shutdown m
  /\ workers_submitted m' = workers_submitted m
  /\ heatmap_cache (db_manager m') = heatmap_cache (db_manager m)
  /\ (engine_calls m <= engine_calls m' <= S (engine_calls m))%nat
  /\ (preload_queue m = [] -> m' = m).
Proof.
  unfold preload_worker_turn.
  destruct (preload_queue m) as [|task rest] eqn:Hq.
  - simpl. repeat split; auto; lia.
  - pose proof (get_cached_heatmap_frame env (db_manager m) (task_key task))
      as Hh.
    cbv zeta. simpl tl.
    destruct (get_cached_coverage_grid env _ (task_key task))
      as [db cached] eqn:Hlook.
    simpl in Hh.
    destruct (truthy cached);
      [simpl; repeat split; auto; try lia; discriminate|].
    destruct (_calculate_coverage_grid _ _ _ _) as [[|p ps]|];
      try (simpl; repeat split; auto; try lia; discriminate).
    match goal with
    | |- context [cache_coverage_grid ?e ?d ?k ?c ?b ?f ?g] =>
        pose proof (cache_coverage_grid_heatmap e d k c b f g) as Hc;
        destruct (cache_coverage_grid e d k c b f g) as [db' ok]
    end.
    simpl in *. repeat split; auto; try lia; try congruence; discriminate.
Qed.

(** X13. When the database already holds a non-empty grid for the task at
    the head of the queue, the worker skips the computation: the task is
    taken off the queue, the computation is not run, and the only change to
    the table is the [last_accessed] of that row. *)
Theorem preload_worker_skips_cached_task
    (E : Engine) (env : Env) (m : Manager) (task : CoverageGridTask)
    (rest : list CoverageGridTask) (r : CoverageRow) :
  preload_queue m = task :: rest ->
  sqlite_ok env = true ->
  find_row (task_key task) (coverage_grid_cache (db_manager m)) = Some r ->
  cg_grid_data r <> [] ->
  let m' := preload_worker_turn E env m in
  engine_calls m' = engine_calls m
  /\ preload_queue m' = rest
  /\ coverage_grid_cache (db_manager m')
     = map (touch_row (task_key task) (now env))
           (coverage_grid_cache (db_manager m)).
Proof.
  intros Hq Hok Hfind Hne. unfold preload_worker_turn. rewrite Hq. simpl.
  unfold get_cached_coverage_grid. rewrite Hok, Hfind. simpl.
  destruct (cg_grid_data r) as [|p ps]; [congruence|]. simpl.
  repeat split.
Qed.

Lemma preload_worker_skips_cached_task_witness :
  engine_calls (preload_worker_turn failing_engine (sample_env 1)
                                    (queued_manager cached_db)) = 0%nat.
Proof.
  refine (proj1 (preload_worker_skips_cached_task
                   failing_engine (sample_env 1) (queued_manager cached_db)
                   _ [] _ _ eq_refl _ _)).
  - vm_compute. reflexivity.
  - vm_compute. reflexivity.
  - vm_compute. discriminate.
Defined.

(** X14. A grid computed by the worker is served to the next request: when
    the head task is in neither tier and its computation returns a non-empty
    grid, the turn runs the computation once and stores the grid, and a
    following [get_or_calculate_coverage_grid] for the task's parameters
    returns that grid from the database without running the computation,
    and puts it into the in-memory cache. *)
Theorem preloaded_grid_is_served
    (E E' : Engine) (env env' : Env) (m : Manager) (task : CoverageGridTask)
    (rest : list CoverageGridTask) (grid : Grid) :
  preload_queue m = task :: rest ->
  sqlite_ok env = true -> sqlite_ok env' = true ->
  uncached m (task_key task) ->
  _calculate_coverage_grid E (city_name task) (business_lines task)
                           (vendor_filters task) = Some grid ->
  grid <> [] ->
  let m1 := preload_worker_turn E env m in
  let second := get_or_calculate_coverage_grid
                  E' env' m1 (city_name task) (business_lines task)
                  (vendor_filters task) false in
  engine_calls m1 = S (engine_calls m)
  /\ snd second = Some grid
  /\ engine_calls (fst second) = engine_calls m1
  /\ option_map data (PyDict.get (task_key task) (memory_cache (fst second)))
     = Some grid.
Proof.
  intros Hq Hok Hok' [Hmem Hrow] Hcalc Hne m1 second.
  assert (Hm1 : m1 = set_db
                       (fst (cache_coverage_grid
                               env (db_manager m) (task_key task)
                               (city_name task)
                               (join_business_lines (business_lines task))
                               (vendor_filters task) grid))
                       (count_engine_call (set_preload_queue rest m))).
  { subst m1. unfold preload_worker_turn. rewrite Hq.
    cbv zeta. cbn [db_manager set_preload_queue].
    rewrite (get_cached_miss env _ _ Hrow). simpl. rewrite Hcalc.
    destruct grid as [|p ps]; [congruence|].
    now destruct (cache_coverage_grid _ _ _ _ _ _ _). }
  split; [rewrite Hm1; reflexivity|].
  assert (Hlook : get_cached_coverage_grid env' (db_manager m1)
                                           (task_key task)
                  = (fst (get_cached_coverage_grid env' (db_manager m1)
                                                   (task_key task)),
                     Some grid)).
  { rewrite (surjective_pairing (get_cached_coverage_grid _ _ _)) at 1.
    f_equal. rewrite get_cached_result by assumption.
    rewrite Hm1. simpl. rewrite cache_coverage_grid_upsert by assumption.
    now rewrite find_row_upsert_same. }
  subst second. unfold get_or_calculate_coverage_grid.
  fold (task_key task).
  replace (memory_cache m1) with (memory_cache m) by now rewrite Hm1.
  rewrite Hmem, Hlook.
  destruct grid as [|p ps]; [congruence|]. simpl.
  rewrite add_get. repeat split.
Qed.

Lemma preloaded_grid_is_served_witness :
  snd (get_or_calculate_coverage_grid
         failing_engine (sample_env 2)
         (preload_worker_turn one_point_engine (sample_env 1)
                              (queued_manager empty_db))
         "tehran" ["restaurant"%string] filter_all false)
  = Some sample_grid.
Proof.
  pose proof (preloaded_grid_is_served
                one_point_engine failing_engine
                (sample_env 1) (sample_env 2)
                (queued_manager empty_db)) as H.
  specialize (H _ [] sample_grid eq_refl eq_refl eq_refl).
  destruct H as (H1 & _).
  - split; reflexivity.
  - vm_compute. reflexivity.
  - discriminate.
  - vm_compute. reflexivity.
Defined.

(* ----------------------------------------------------------------- *)
(** *** cache_manager.py: the paths of [get_or_calculate_coverage_grid] *)

Lemma add_to_preload_queue_has_key t city bls filters m :
  In (generate_cache_key city bls filters None)
     (map task_key
          (preload_queue (_add_to_preload_queue t city bls filters m))).
Proof.
  destruct (in_dec string_dec (generate_cache_key city bls filters None)
                   (map task_key (preload_queue m))) as [Hin|Hnin].
  - now rewrite add_to_preload_queue_pending.
  - eapply Permutation_in.
    + apply Permutation_sym, Permutation_map.
      now apply add_to_preload_queue_perm.
    + now left.
Qed.

Lemma calculate_and_cache_queue E env m city bls filters :
  preload_queue (fst (calculate_and_cache E env m city bls filters))
  = preload_queue (_add_to_preload_queue (now env) city bls filters m).
Proof.
  unfold calculate_and_cache.
  destruct (_calculate_coverage_grid E city bls filters) as [[|p ps]|];
    try reflexivity.
  now destruct (cache_coverage_grid _ _ _ _ _ _ _).
Qed.

(** X15. With [force_recalculate] the caches are not consulted: the
    computation is run exactly once whatever the tiers hold, its result is
    what the call returns, and a non-empty result replaces the entry of the
    key in the in-memory cache by a fresh one (access count 1) and, when the
    connection works, the row of the key in the database. *)
Theorem force_recalculate_always_computes
    (E : Engine) (env env' : Env) (m : Manager) (city : string)
    (bls : list string) (filters : dict) :
  let key := generate_cache_key city bls filters None in
  let m' := fst (get_or_calculate_coverage_grid E env m city bls filters
                                                true) in
  let r := snd (get_or_calculate_coverage_grid E env m city bls filters
                                               true) in
  engine_calls m' = S (engine_calls m)
  /\ r = _calculate_coverage_grid E city bls filters
  /\ forall p ps,
       r = Some (p :: ps) ->
       PyDict.get key (memory_cache m')
       = Some {| data := p :: ps; last_accessed := now env;
                 access_count := 1 |}
       /\ (sqlite_ok env = true -> sqlite_ok env' = true ->
           snd (get_cached_coverage_grid env' (db_manager m') key)
           = Some (p :: ps)).
Proof.
  intros key m' r. subst m' r.
  unfold get_or_calculate_coverage_grid. fold key. cbv zeta.
  split;
    [exact (calculate_and_cache_calls E env (set_db (db_manager m) m)
                                      city bls filters)|].
  unfold calculate_and_cache. fold key.
  destruct (_calculate_coverage_grid E city bls filters) as [[|p ps]|];
    simpl; try (split; [reflexivity|intros; discriminate]).
  pose proof (cache_coverage_grid_upsert
                env (db_manager m) key city (join_business_lines bls) filters
                (p :: ps)) as Hup.
  destruct (add_to_preload_queue_frame (now env) city bls filters
                                       (set_db (db_manager m) m))
    as (_ & _ & _ & _ & Hdb & _).
  simpl in Hdb. rewrite Hdb.
  destruct (cache_coverage_grid _ _ _ _ _ _ _) as [db' ok]. simpl in *.
  split; [reflexivity|]. intros p' ps' [= <- <-]. split.
  - apply add_get.
  - intros Hok Hok'. rewrite get_cached_result by assumption.
    rewrite (Hup Hok). now rewrite find_row_upsert_same.
Qed.

(** X16. A request that misses the in-memory cache and finds a non-empty
    grid in the database is answered with that grid without the computation
    and without a new task in the queue; the grid is put into the in-memory
    cache with access count 1, and the row's [last_accessed] is the only
    thing that changes in the database. *)
Theorem database_hit_fills_memory_cache
    (E : Engine) (env : Env) (m : Manager) (city : string)
    (bls : list string) (filters : dict) (r : CoverageRow) :
  let key := generate_cache_key city bls filters None in
  PyDict.get key (memory_cache m) = None ->
  sqlite_ok env = true ->
  find_row key (coverage_grid_cache (db_manager m)) = Some r ->
  cg_grid_data r <> [] ->
  let m' := fst (get_or_calculate_coverage_grid E env m city bls filters
                                                false) in
  snd (get_or_calculate_coverage_grid E env m city bls filters false)
  = Some (cg_grid_data r)
  /\ engine_calls m' = engine_calls m
  /\ preload_queue m' = preload_queue m
  /\ PyDict.get key (memory_cache m')
     = Some {| data := cg_grid_data r; last_accessed := now env;
               access_count := 1 |}
  /\ coverage_grid_cache (db_manager m')
     = map (touch_row key (now env)) (coverage_grid_cache (db_manager m)).
Proof.
  intros key Hmem Hok Hfind Hne m'. subst m'.
  unfold get_or_calculate_coverage_grid. fold key. rewrite Hmem.
  unfold get_cached_coverage_grid. rewrite Hok, Hfind.
  destruct (cg_grid_data r) as [|p ps]; [congruence|]. simpl.
  rewrite add_get. repeat split.
Qed.

Lemma database_hit_fills_memory_cache_witness :
  snd (get_or_calculate_coverage_grid
         failing_engine (sample_env 1) (new_manager cached_db)
         "tehran" ["restaurant"%string] filter_all false)
  = Some sample_grid.
Proof.
  destruct (find_row
              (generate_cache_key "tehran" ["restaurant"%string] filter_all
                                  None)
              (coverage_grid_cache (db_manager (new_manager cached_db))))
    as [r|] eqn:Hfind; [|vm_compute in Hfind; discriminate].
  assert (Hgrid : cg_grid_data r = sample_grid)
    by (vm_compute in Hfind; injection Hfind as <-; reflexivity).
  rewrite <- Hgrid.
  apply (database_hit_fills_memory_cache
           failing_engine (sample_env 1) (new_manager cached_db)
           "tehran" ["restaurant"%string] filter_all r eq_refl eq_refl Hfind).
  rewrite Hgrid. discriminate.
Defined.

(** X17. A hit in the in-memory cache touches nothing but the entry it
    serves: the entry's grid is returned, its access count grows by one and
    its [last_accessed] becomes the time of the call; every other entry,
    the number of entries, the database, the queue and the count of
    computations stay as they were. *)
Theorem memory_hit_touches_one_entry
    (E : Engine) (env : Env) (m : Manager) (city : string)
    (bls : list string) (filters : dict) (e : MemEntry) :
  let key := generate_cache_key city bls filters None in
  PyDict.get key (memory_cache m) = Some e ->
  let m' := fst (get_or_calculate_coverage_grid E env m city bls filters
                                                false) in
  snd (get_or_calculate_coverage_grid E env m city bls filters false)
  = Some (data e)
  /\ PyDict.get key (memory_cache m')
     = Some {| data := data e; last_accessed := now env;
               access_count := access_count e + 1 |}
  /\ (forall k', k' <> key ->
        PyDict.get k' (memory_cache m') = PyDict.get k' (memory_cache m))
  /\ List.length (memory_cache m') = List.length (memory_cache m)
  /\ db_manager m' = db_manager m
  /\ preload_queue m' = preload_queue m
  /\ engine_calls m' = engine_calls m.
Proof.
  intros key Hget m'. subst m'.
  rewrite (get_or_calculate_memory_hit E env m city bls filters e Hget).
  fold key. simpl. repeat split.
  - now apply update_get.
  - intros k' Hne. unfold _update_memory_cache_access. rewrite Hget.
    apply PyDictFacts.get_set_other. congruence.
  - apply update_length.
Qed.

Lemma memory_hit_touches_one_entry_witness :
  let m1 := fst (get_or_calculate_coverage_grid
                   one_point_engine (sample_env 0) (new_manager empty_db)
                   "tehran" ["restaurant"%string] filter_all false) in
  snd (get_or_calculate_coverage_grid
         failing_engine (sample_env 1) m1
         "tehran" ["restaurant"%string] filter_all false)
  = Some sample_grid.
Proof.
  intros m1.
  refine (proj1 (memory_hit_touches_one_entry
                   failing_engine (sample_env 1) m1
                   "tehran" ["restaurant"%string] filter_all
                   {| data := sample_grid; last_accessed := 0;
                      access_count := 1 |} _)).
  vm_compute. reflexivity.
Defined.

(** X18. Whenever a call runs the computation, the request is pending in
    the preload queue afterwards, whether the computation succeeded, found
    nothing or failed, and also when the result has just been cached. *)
Theorem computed_request_stays_queued
    (E : Engine) (env : Env) (m : Manager) (city : string)
    (bls : list string) (filters : dict) (force : bool) :
  let m' := fst (get_or_calculate_coverage_grid E env m city bls filters
                                                force) in
  engine_calls m' = S (engine_calls m) ->
  In (generate_cache_key city bls filters None)
     (map task_key (preload_queue m')).
Proof.
  unfold get_or_calculate_coverage_grid.
  set (key := generate_cache_key city bls filters None).
  destruct (if force then None else PyDict.get key (memory_cache m)).
  - simpl. lia.
  - destruct (if force then (db_manager m, None)
              else get_cached_coverage_grid env (db_manager m) key)
      as [db cached].
    assert (Hq : In key (map task_key
                             (preload_queue
                                (fst (calculate_and_cache
                                        E env (set_db db m) city bls
                                        filters))))).
    { rewrite calculate_and_cache_queue.
      apply add_to_preload_queue_has_key. }
    destruct cached as [[|p ps]|]; try (intros _; exact Hq).
    simpl. lia.
Qed.

(* ----------------------------------------------------------------- *)
(** *** What every reachable manager satisfies *)

Section Invariants.

Variable E : Engine.

Lemma set_entries_truthy k v (mc : MemoryCache) :
  data v <> [] -> entries_truthy mc -> entries_truthy (PyDict.set k v mc).
Proof.
  intros Hv. unfold entries_truthy.
  induction mc as [|[k' v'] mc IH]; simpl; intros H.
  - now repeat constructor.
  - apply Forall_cons_iff in H as [H1 H2].
    destruct (String.eqb k k'); constructor; auto.
Qed.

Lemma del_entries_truthy k (mc : MemoryCache) :
  entries_truthy mc -> entries_truthy (PyDict.del k mc).
Proof.
  unfold entries_truthy.
  induction mc as [|[k' v'] mc IH]; simpl; intros H; [constructor|].
  apply Forall_cons_iff in H as [H1 H2].
  destruct (String.eqb k k'); [exact H2|constructor; auto].
Qed.

Lemma add_entries_truthy t k p ps (mc : MemoryCache) :
  entries_truthy mc ->
  entries_truthy (_add_to_memory_cache t k (p :: ps) mc).
Proof.
  intros H. unfold _add_to_memory_cache.
  apply set_entries_truthy; [discriminate|].
  destruct (eviction_victim mc); [now apply del_entries_truthy|exact H].
Qed.

Lemma update_entries_truthy t k (mc : MemoryCache) :
  entries_truthy mc -> entries_truthy (_update_memory_cache_access t k mc).
Proof.
  intros H. unfold _update_memory_cache_access.
  destruct (PyDict.get k mc) as [e|] eqn:Hg; [|exact H].
  apply set_entries_truthy; [|exact H]. simpl.
  apply PyDictFacts.get_In in Hg. unfold entries_truthy in H.
  rewrite Forall_forall in H. exact (H _ Hg).
Qed.

Lemma add_to_preload_queue_ordered t city bls filters m :
  queue_ordered (preload_queue m) ->
  queue_ordered (preload_queue (_add_to_preload_queue t city bls filters m)).
Proof.
  intros H. unfold _add_to_preload_queue.
  destruct (negb _); [apply sorted_queue_ordered|exact H].
Qed.

Lemma get_cached_consistent env db key :
  db_consistent db ->
  db_consistent (fst (get_cached_coverage_grid env db key)).
Proof.
  intros [H1 H2]. split; [now apply get_cached_rows_truthy|].
  now rewrite get_cached_keys.
Qed.

Lemma cache_coverage_grid_consistent env db key city bl filters p ps :
  db_consistent db ->
  db_consistent
    (fst (cache_coverage_grid env db key city bl filters (p :: ps))).
Proof.
  intros [H1 H2]. split; [now apply cache_coverage_grid_rows_truthy|].
  now apply cache_coverage_grid_keys_unique.
Qed.

Lemma calculate_and_cache_inv env m city bls filters :
  manager_inv m ->
  manager_inv (fst (calculate_and_cache E env m city bls filters)).
Proof.
  intros (Hwf & Hlen & Htr & Hdb & Hq).
  destruct (add_to_preload_queue_frame (now env) city bls filters m)
    as (_ & _ & _ & Hmc & Hdbq & _).
  pose proof (add_to_preload_queue_ordered (now env) city bls filters m Hq)
    as Hq'.
  unfold calculate_and_cache.
  destruct (_calculate_coverage_grid E city bls filters) as [[|p ps]|];
    try (unfold manager_inv; simpl; rewrite Hmc, Hdbq; now auto).
  pose proof (cache_coverage_grid_consistent
                env (db_manager m)
                (generate_cache_key city bls filters None) city
                (join_business_lines bls) filters p ps Hdb) as Hw.
  simpl. rewrite Hdbq.
  destruct (cache_coverage_grid _ _ _ _ _ _ _) as [db' ok].
  unfold manager_inv. simpl. rewrite Hmc.
  repeat split; auto.
  - now apply add_wf.
  - now apply add_length.
  - now apply add_entries_truthy.
  - apply Hw.
  - apply Hw.
Qed.

Lemma get_or_calculate_inv env m city bls filters force :
  manager_inv m ->
  manager_inv (fst (get_or_calculate_coverage_grid E env m city bls filters
                                                   force)).
Proof.
  intros Hinv. pose proof Hinv as (Hwf & Hlen & Htr & Hdb & Hq).
  unfold get_or_calculate_coverage_grid.
  destruct (if force then None else PyDict.get _ (memory_cache m)).
  - unfold manager_inv. simpl. repeat split; auto; try apply Hdb.
    + now apply update_wf.
    + now rewrite update_length.
    + now apply update_entries_truthy.
  - assert (Hset : forall db, db_consistent db -> manager_inv (set_db db m))
      by (intros db Hc; unfold manager_inv; simpl; auto).
    destruct force.
    + apply calculate_and_cache_inv. now apply Hset.
    + pose proof (get_cached_consistent
                    env (db_manager m)
                    (generate_cache_key city bls filters None) Hdb) as Hl.
      destruct (get_cached_coverage_grid _ _ _) as [db cached].
      simpl in Hl.
      destruct cached as [[|p ps]|];
        try (apply calculate_and_cache_inv; now apply Hset).
      unfold manager_inv. simpl. repeat split; auto; try apply Hl.
      * now apply add_wf.
      * now apply add_length.
      * now apply add_entries_truthy.
Qed.

Lemma warm_up_loop_inv env combos :
  forall i m, manager_inv m -> manager_inv (warm_up_loop E env i combos m).
Proof.
  induction combos as [|c combos IH]; intros i m H; simpl; [exact H|].
  apply IH. now apply get_or_calculate_inv.
Qed.

Lemma ordered_tail q :
  queue_ordered q -> queue_ordered (tl q).
Proof.
  destruct q; simpl; [auto|]. intros H. now inversion H.
Qed.

Lemma manager_call_inv m m' :
  manager_call E m m' -> manager_inv m -> manager_inv m'.
Proof.
  intros Hcall Hinv. pose proof Hinv as (Hwf & Hlen & Htr & Hdb & Hq).
  destruct Hcall as [m m' Hstep|env cache_type m|env cities m].
  - destruct Hstep.
    + now apply get_or_calculate_inv.
    + destruct (is_preloading m) eqn:Hp.
      * unfold start_preloading. now rewrite Hp.
      * rewrite (start_preloading_idle t m Hp). unfold executor_submit.
        simpl. destruct (executor_shutdown m); unfold manager_inv; simpl;
          repeat split; auto; try apply Hdb; apply sorted_queue_ordered.
    + unfold manager_inv. simpl. repeat split; auto; apply Hdb.
    + destruct (preload_worker_turn_frame E env m)
        as (Hq' & Hmc & _).
      unfold manager_inv. rewrite Hq', Hmc.
      repeat split; auto; [| |now apply ordered_tail];
        unfold preload_worker_turn;
        destruct (preload_queue m) as [|task rest]; try apply Hdb;
        pose proof (get_cached_consistent
                      env (db_manager m) (task_key task) Hdb) as Hl;
        simpl; destruct (get_cached_coverage_grid _ _ _) as [db cached];
        simpl in Hl; destruct (truthy cached); try apply Hl;
        destruct (_calculate_coverage_grid _ _ _ _) as [[|p ps]|];
        try apply Hl;
        pose proof (cache_coverage_grid_consistent
                      env db (task_key task) (city_name task)
                      (join_business_lines (business_lines task))
                      (vendor_filters task) p ps Hl) as Hw;
        simpl; destruct (cache_coverage_grid _ _ _ _ _ _ _) as [db' ok];
        apply Hw.
  - unfold clear_cache.
    destruct (_ || _); destruct (_ || _); destruct (sqlite_ok env);
      unfold manager_inv, db_consistent, rows_truthy, entries_truthy; simpl;
      repeat split; auto; try apply Hdb; try constructor;
      unfold max_memory_cache_size; lia.
  - now apply warm_up_loop_inv.
Qed.

Lemma reachable_inv m : reachable E m -> manager_inv m.
Proof.
  induction 1 as [db Hdb|m m' _ IH Hcall].
  - unfold manager_inv. simpl.
    repeat split; try apply Hdb; try constructor.
    unfold max_memory_cache_size. lia.
  - now apply (manager_call_inv m m').
Qed.

End Invariants.

(** X19. Whatever public calls are made on a manager created over a
    consistent database (lookups and computations, forced or not, starting
    and stopping the preloader, worker turns, clearing, warming up), the
    in-memory cache never holds more than 50 entries nor two entries for one
    key, and the coverage table never holds two rows for one key nor a row
    with an empty grid. *)
Theorem reachable_manager_is_consistent (E : Engine) (m : Manager) :
  reachable E m ->
  (List.length (memory_cache m) <= 50)%nat
  /\ PyDict.wf (memory_cache m)
  /\ db_consistent (db_manager m).
Proof.
  intros Hr. destruct (reachable_inv E m Hr) as (Hwf & Hlen & _ & Hdb & _).
  auto.
Qed.

Lemma reachable_manager_is_consistent_witness :
  (List.length
     (memory_cache
        (warm_up_cache one_point_engine
                       (fun i => sample_env (Z.of_nat i)) None
                       (new_manager empty_db))) <= 50)%nat.
Proof.
  apply (reachable_manager_is_consistent one_point_engine).
  eapply reachable_call; [|apply call_warm_up_cache].
  apply reachable_new. split; constructor.
Defined.

(** X20. A reachable manager never answers from a cache with an empty or
    missing grid: if a call of [get_or_calculate_coverage_grid] returns
    without running the computation, what it returns is a non-empty grid. *)
Theorem cache_answers_are_non_empty
    (E : Engine) (env : Env) (m : Manager) (city : string)
    (bls : list string) (filters : dict) (force : bool) :
  reachable E m ->
  let call := get_or_calculate_coverage_grid E env m city bls filters
                                             force in
  engine_calls (fst call) = engine_calls m ->
  exists p ps, snd call = Some (p :: ps).
Proof.
  intros Hr. destruct (reachable_inv E m Hr) as (_ & _ & Htr & _ & _).
  unfold get_or_calculate_coverage_grid.
  set (key := generate_cache_key city bls filters None).
  destruct (if force then None else PyDict.get key (memory_cache m))
    as [e|] eqn:Hmem.
  - destruct force; [discriminate|]. simpl. intros _.
    rewrite (update_get _ _ _ _ Hmem). simpl.
    apply PyDictFacts.get_In in Hmem. unfold entries_truthy in Htr.
    rewrite Forall_forall in Htr. specialize (Htr _ Hmem). simpl in Htr.
    destruct (data e) as [|p ps]; [congruence|]. now exists p, ps.
  - destruct (if force then (db_manager m, None)
              else get_cached_coverage_grid env (db_manager m) key)
      as [db cached].
    assert (Hcalc : engine_calls
                      (fst (calculate_and_cache E env (set_db db m) city bls
                                                filters))
                    = engine_calls m -> False).
    { rewrite calculate_and_cache_calls. simpl. lia. }
    destruct cached as [[|p ps]|]; try (intros H; now destruct (Hcalc H)).
    simpl. intros _. now exists p, ps.
Qed.

Lemma cache_answers_are_non_empty_witness :
  exists p ps,
    snd (get_or_calculate_coverage_grid
           failing_engine (sample_env 1) (new_manager cached_db)
           "tehran" ["restaurant"%string] filter_all false)
    = Some (p :: ps).
Proof.
  apply (cache_answers_are_non_empty
           failing_engine (sample_env 1) (new_manager cached_db)
           "tehran" ["restaurant"%string] filter_all false).
  - apply reachable_new. split.
    + repeat constructor. discriminate.
    + apply distinct_NoDup. vm_compute. reflexivity.
  - vm_compute. reflexivity.
Defined.

(** X21. The preload queue of a reachable manager is always ordered by
    priority, so the task a worker turn takes is one that no pending task
    precedes in urgency, and the turn leaves the remaining tasks in their
    order. *)
Theorem worker_takes_most_urgent_task
    (E : Engine) (env : Env) (m : Manager) (task : CoverageGridTask)
    (rest : list CoverageGridTask) :
  reachable E m ->
  preload_queue m = task :: rest ->
  queue_ordered (preload_queue m)
  /\ Forall (fun other => priority task <= priority other) rest
  /\ preload_queue (preload_worker_turn E env m) = rest.
Proof.
  intros Hr Hq. destruct (reachable_inv E m Hr) as (_ & _ & _ & _ & Hord).
  split; [exact Hord|]. split.
  - rewrite Hq in Hord. inversion Hord as [|a l _ Hall]. subst.
    eapply Forall_impl; [|exact Hall].
    intros other H. unfold holds, priority_le in H. now apply Z.leb_le in H.
  - destruct (preload_worker_turn_frame E env m) as [Htl _].
    rewrite Htl, Hq. reflexivity.
Qed.

Lemma worker_takes_most_urgent_task_witness :
  exists task rest,
    preload_queue (fst (start_preloading 0 (new_manager empty_db)))
    = task :: rest
    /\ Forall (fun other => priority task <= priority other) rest.
Proof.
  assert (Hr : reachable no_vendor_engine
                         (fst (start_preloading 0 (new_manager empty_db)))).
  { eapply reachable_call; [|apply call_step, step_start_preloading].
    apply reachable_new. split; constructor. }
  destruct (preload_queue (fst (start_preloading 0 (new_manager empty_db))))
    as [|task rest] eqn:Hq; [vm_compute in Hq; discriminate|].
  exists task, rest. split; [reflexivity|].
  apply (worker_takes_most_urgent_task
           no_vendor_engine (sample_env 1) _ task rest Hr Hq).
Defined.

(* ----------------------------------------------------------------- *)
(** *** cache_manager.py: [clear_cache] and [warm_up_cache] *)

(** X22. After [clear_cache("all")] over a working connection the next
    request for any parameters runs the computation; after
    [clear_cache("memory")] a request whose non-empty grid is in the
    database is answered from there without the computation.  A cache type
    other than the three known ones changes nothing, and no cache type
    touches the queue or the heatmap table. *)
Theorem clear_cache_then_request
    (E : Engine) (env env' : Env) (m : Manager) (cache_type : string)
    (city : string) (bls : list string) (filters : dict) :
  let key := generate_cache_key city bls filters None in
  let request m0 :=
    get_or_calculate_coverage_grid E env' m0 city bls filters false in
  (sqlite_ok env = true ->
   engine_calls (fst (request (clear_cache env "all" m)))
   = S (engine_calls m))
  /\ (forall r,
        sqlite_ok env' = true ->
        find_row key (coverage_grid_cache (db_manager m)) = Some r ->
        cg_grid_data r <> [] ->
        snd (request (clear_cache env "memory" m)) = Some (cg_grid_data r)
        /\ engine_calls (fst (request (clear_cache env "memory" m)))
           = engine_calls m)
  /\ (cache_type <> "all"%string -> cache_type <> "memory"%string ->
      cache_type <> "database"%string -> clear_cache env cache_type m = m)
  /\ preload_queue (clear_cache env cache_type m) = preload_queue m
  /\ heatmap_cache (db_manager (clear_cache env cache_type m))
     = heatmap_cache (db_manager m).
Proof.
  intros key request. split; [|split; [|split; [|split]]].
  - intros Hok. subst request. cbv beta.
    unfold clear_cache. simpl. rewrite Hok.
    unfold get_or_calculate_coverage_grid. simpl.
    unfold get_cached_coverage_grid. simpl.
    destruct (sqlite_ok env'); simpl;
      now rewrite calculate_and_cache_calls.
  - intros r Hok' Hfind Hne. subst request. cbv beta.
    assert (Hc : clear_cache env "memory" m = set_memory_cache [] m)
      by reflexivity.
    rewrite Hc.
    destruct (database_hit_fills_memory_cache
                E env' (set_memory_cache [] m) city bls filters r
                eq_refl Hok' Hfind Hne) as (H1 & H2 & _).
    split; [exact H1|exact H2].
  - intros H1 H2 H3. unfold clear_cache.
    destruct (String.eqb_spec cache_type "all"); [contradiction|].
    destruct (String.eqb_spec cache_type "memory"); [contradiction|].
    destruct (String.eqb_spec cache_type "database"); [contradiction|].
    reflexivity.
  - unfold clear_cache.
    destruct (_ || _); destruct (_ || _); destruct (sqlite_ok env);
      reflexivity.
  - unfold clear_cache.
    destruct (_ || _); destruct (_ || _); destruct (sqlite_ok env);
      reflexivity.
Qed.

Lemma get_or_calculate_calls_le E env m city bls filters force :
  let m' := fst (get_or_calculate_coverage_grid E env m city bls filters
                                                force) in
  (engine_calls m <= engine_calls m' <= S (engine_calls m))%nat.
Proof.
  unfold get_or_calculate_coverage_grid.
  destruct (if force then None else PyDict.get _ (memory_cache m));
    [simpl; lia|].
  destruct (if force then (db_manager m, None)
            else get_cached_coverage_grid env (db_manager m) _)
    as [db cached].
  destruct cached as [[|p ps]|];
    try (rewrite calculate_and_cache_calls; simpl; lia).
  simpl. lia.
Qed.

Lemma warm_up_loop_frame E env combos :
  forall i m,
    let m' := warm_up_loop E env i combos m in
    (engine_calls m <= engine_calls m'
     <= engine_calls m + List.length combos)%nat
    /\ is_preloading m' = is_preloading m
    /\ executor_shutdown m' = executor_shutdown m
    /\ workers_submitted m' = workers_submitted m.
Proof.
  induction combos as [|c combos IH]; intros i m; simpl.
  - repeat split; lia.
  - destruct (IH (S i)
                 (fst (get_or_calculate_coverage_grid
                         E (env i) m (combo_city_name c)
                         (combo_business_lines c) (combo_vendor_filters c)
                         false))) as (Hc & Hp & Hs & Hw).
    pose proof (get_or_calculate_calls_le
                  E (env i) m (combo_city_name c) (combo_business_lines c)
                  (combo_vendor_filters c) false) as Hle.
    destruct (get_or_calculate_executor
                E (env i) m (combo_city_name c) (combo_business_lines c)
                (combo_vendor_filters c) false) as (Hs' & Hp' & Hw').
    simpl in *. repeat split; try lia; congruence.
Qed.

(** X23. [warm_up_cache] is synchronous and bounded: it runs the
    computation at most once per selected combination (so at most 54 times,
    and 18 times for the default city), it neither starts nor stops the
    preloader, and a list of cities that names none of the three common
    cities leaves the manager as it is. *)
Theorem warm_up_cache_is_bounded
    (E : Engine) (env : nat -> Env) (priority_cities : option (list string))
    (m : Manager) :
  let m' := warm_up_cache E env priority_cities m in
  (engine_calls m <= engine_calls m'
   <= engine_calls m + List.length (high_priority_combos priority_cities))%nat
  /\ (List.length (high_priority_combos priority_cities) <= 54)%nat
  /\ List.length (high_priority_combos None) = 18%nat
  /\ is_preloading m' = is_preloading m
  /\ executor_shutdown m' = executor_shutdown m
  /\ workers_submitted m' = workers_submitted m
  /\ (forall cities,
        priority_cities = Some cities ->
        ~ In "tehran"%string cities -> ~ In "mashhad"%string cities ->
        ~ In "shiraz"%string cities -> m' = m).
Proof.
  intros m'. subst m'. unfold warm_up_cache.
  destruct (warm_up_loop_frame E env (high_priority_combos priority_cities)
                               0 m) as (Hc & Hp & Hs & Hw).
  split; [exact Hc|]. split.
  { unfold high_priority_combos.
    etransitivity; [apply filter_length_le|]. apply Nat.leb_le.
    vm_compute. reflexivity. }
  split; [vm_compute; reflexivity|].
  repeat split; auto.
  intros cities -> Ht Hm Hs'.
  assert (Hnone : high_priority_combos (Some cities) = []).
  { destruct (warm_up_selects_by_city_only cities) as [_ ->].
    assert (Hcity : forall combo,
               In combo common_combinations ->
               In (combo_city_name combo)
                  ["tehran"; "mashhad"; "shiraz"]%string).
    { intros combo Hin.
      assert (Hb : forallb
                     (fun c => existsb (String.eqb (combo_city_name c))
                                       ["tehran"; "mashhad"; "shiraz"]%string)
                     common_combinations = true)
        by (vm_compute; reflexivity).
      rewrite forallb_forall in Hb. specialize (Hb combo Hin).
      apply existsb_eqb_In in Hb. exact Hb. }
    generalize Hcity. generalize common_combinations.
    induction l as [|c l IH]; intros Hc'; [reflexivity|]. simpl.
    destruct (existsb (String.eqb (combo_city_name c)) cities) eqn:Hex.
    - apply existsb_eqb_In in Hex.
      destruct (Hc' c (or_introl eq_refl)) as [H|[H|[H|[]]]];
        rewrite <- H in *; contradiction.
    - apply IH. intros combo Hin. apply Hc'. now right. }
  now rewrite Hnone.
Qed.

(* ----------------------------------------------------------------- *)
(** *** models.py: the queries of [get_vendors] and [get_orders] *)

Local Open Scope string_scope.

Lemma count_char_app c s1 s2 :
  count_char c (s1 ++ s2) = (count_char c s1 + count_char c s2)%nat.
Proof. induction s1 as [|a s1 IH]; simpl; [reflexivity|]. rewrite IH. lia. Qed.

Lemma placeholder_count_app s1 s2 :
  placeholder_count (s1 ++ s2)
  = (placeholder_count s1 + placeholder_count s2)%nat.
Proof. apply count_char_app. Qed.

Lemma count_char_concat c sep l :
  count_char c sep = 0%nat ->
  count_char c (String.concat sep l) = list_sum (map (count_char c) l).
Proof.
  intros Hsep. induction l as [|x l IH]; [reflexivity|].
  destruct l as [|y l]; [simpl; lia|].
  change (String.concat sep (x :: y :: l))
    with (x ++ sep ++ String.concat sep (y :: l)).
  rewrite !count_char_app, IH, Hsep. simpl. lia.
Qed.

Lemma placeholders_count n : placeholder_count (placeholders n) = n.
Proof.
  unfold placeholder_count, placeholders.
  rewrite count_char_concat by reflexivity.
  induction n as [|n IH]; simpl; [reflexivity|]. now rewrite IH.
Qed.

Lemma where_clause_count conds :
  placeholder_count (where_clause conds)
  = list_sum (map placeholder_count conds).
Proof.
  unfold where_clause. destruct conds as [|c conds]; [reflexivity|].
  unfold placeholder_count. rewrite count_char_app.
  now rewrite count_char_concat by reflexivity.
Qed.

Lemma add_in_balanced column values q :
  placeholder_count column = 0%nat ->
  query_balanced q -> query_balanced (add_in column values q).
Proof.
  unfold query_balanced, add_in. intros Hc Hq.
  destruct values as [|v values]; [exact Hq|].
  cbn [fst snd]. rewrite map_app, list_sum_app, !length_app, Hq.
  cbn [map list_sum]. unfold placeholder_count in *.
  rewrite !count_char_app, Hc.
  fold (placeholder_count (placeholders (List.length (v :: values)))).
  rewrite placeholders_count. simpl. lia.
Qed.

Lemma add_cmp_balanced condition value q :
  placeholder_count condition = 1%nat ->
  query_balanced q -> query_balanced (add_cmp condition value q).
Proof.
  unfold query_balanced, add_cmp. intros Hc Hq.
  destruct value as [v|]; [|exact Hq].
  cbn [fst snd]. rewrite map_app, list_sum_app, !length_app, Hq.
  simpl. rewrite Hc. lia.
Qed.

Lemma add_in_params column values q :
  snd (add_in column values q) = (snd q ++ values)%list.
Proof.
  unfold add_in. destruct values; [now rewrite app_nil_r|reflexivity].
Qed.

Lemma add_cmp_params condition value q :
  snd (add_cmp condition value q) = (snd q ++ param_of value)%list.
Proof.
  unfold add_cmp. destruct value; [reflexivity|now rewrite app_nil_r].
Qed.

(** X24. The SQL text that [get_vendors] and [get_orders] build has exactly
    as many [?] placeholders as there are parameters, for every combination
    of filters, and the parameters are the values of the active filters in
    the order of the conditions.  A filter is inactive when it is [None],
    an empty list, or a city that is empty or ["all"]; [visible] and
    [is_open] count as soon as they are not [None], zero included.  With no
    active filter the vendor query has no [WHERE] clause. *)
Theorem queries_bind_every_placeholder
    (city : option string) (bls vendor_codes : option (list string))
    (status_ids : option (list Z)) (grades : option (list string))
    (visible is_open start_date end_date : option Z) :
  let vendors := get_vendors_query city bls vendor_codes status_ids grades
                                   visible is_open in
  let orders := get_orders_query city start_date end_date bls vendor_codes in
  placeholder_count (fst vendors) = List.length (snd vendors)
  /\ snd vendors
     = (param_of (city_filter city) ++ map JStr (opt_list bls)
        ++ map JStr (opt_list vendor_codes) ++ map JInt (opt_list status_ids)
        ++ map JStr (opt_list grades) ++ param_of (option_map JInt visible)
        ++ param_of (option_map JInt is_open))%list
  /\ (snd vendors = [] -> fst vendors = "SELECT * FROM vendors ")
  /\ placeholder_count (fst orders) = List.length (snd orders)
  /\ snd orders
     = (param_of (city_filter city) ++ param_of (option_map JInt start_date)
        ++ param_of (option_map JInt end_date) ++ map JStr (opt_list bls)
        ++ map JStr (opt_list vendor_codes))%list.
Proof.
  intros vendors orders. subst vendors orders.
  unfold get_vendors_query, get_orders_query. cbv zeta. cbn [fst snd].
  assert (H0 : query_balanced ([], [])) by reflexivity.
  split; [|split; [|split; [|split]]].
  - rewrite placeholder_count_app, where_clause_count.
    change (placeholder_count "SELECT * FROM vendors ") with 0%nat.
    rewrite Nat.add_0_l.
    repeat first [apply add_cmp_balanced; [reflexivity|]
                 |apply add_in_balanced; [reflexivity|]].
    exact H0.
  - rewrite !add_cmp_params, !add_in_params, !add_cmp_params.
    simpl. now rewrite <- !app_assoc.
  - rewrite !add_cmp_params, !add_in_params, !add_cmp_params. simpl.
    intros Hnil.
    repeat match goal with
           | H : (_ ++ _)%list = [] |- _ =>
               apply app_eq_nil in H; destruct H
           end.
    destruct (city_filter city); [discriminate|].
    destruct (opt_list bls); [|discriminate].
    destruct (opt_list vendor_codes); [|discriminate].
    destruct (opt_list status_ids); [|discriminate].
    destruct (opt_list grades); [|discriminate].
    destruct visible; [discriminate|].
    destruct is_open; [discriminate|]. reflexivity.
  - rewrite !placeholder_count_app, where_clause_count.
    change (placeholder_count newline) with 0%nat.
    change (placeholder_count "            SELECT * FROM orders ")
      with 0%nat.
    change (placeholder_count "            ") with 0%nat.
    change (placeholder_count "            ORDER BY created_at DESC")
      with 0%nat.
    change (placeholder_count "        ") with 0%nat.
    rewrite !Nat.add_0_l, !Nat.add_0_r.
    repeat first [apply add_cmp_balanced; [reflexivity|]
                 |apply add_in_balanced; [reflexivity|]].
    exact H0.
  - rewrite !add_in_params, !add_cmp_params.
    simpl. now rewrite <- !app_assoc.
Qed.

Local Close Scope string_scope.

(* ----------------------------------------------------------------- *)
(** *** cache_manager.py: post-processing and the grid limit *)

Lemma process_from_coverages tl pai bls cr :
  forall i,
    map pd_coverage (process_from tl pai bls i cr)
    = filter (fun c => 0 <? total_vendors c) cr.
Proof.
  induction cr as [|c cr IH]; intros i; simpl; [reflexivity|].
  destruct (0 <? total_vendors c); [|apply IH].
  destruct (nth i pai (None, None)) as [aid aname]. simpl.
  f_equal. apply IH.
Qed.

Lemma process_from_area tl pai bls cr :
  forall i k c,
    nth_error cr k = Some c -> 0 < total_vendors c ->
    exists p,
      In p (process_from tl pai bls i cr)
      /\ pd_coverage p = c
      /\ pd_marketing_area p = snd (nth (i + k) pai (None, None)).
Proof.
  induction cr as [|c0 cr IH]; intros i k c Hk Hpos;
    [destruct k; discriminate|].
  destruct k as [|k]; simpl in Hk.
  - injection Hk as ->. simpl.
    apply Z.ltb_lt in Hpos. rewrite Hpos, Nat.add_0_r.
    destruct (nth i pai (None, None)) as [aid aname].
    eexists. split; [now left|]. split; reflexivity.
  - destruct (IH (S i) k c Hk Hpos) as (p & Hin & Hc & Ha).
    exists p. simpl. rewrite <- Nat.add_succ_comm.
    split; [|now split].
    destruct (0 <? total_vendors c0); [|exact Hin].
    destruct (nth i pai (None, None)) as [aid aname]. now right.
Qed.

(** X25. [_process_coverage_results] keeps exactly the scored points with
    at least one vendor, in their order, each with its own coordinates; a
    kept point gets the area name found at the point's position in the
    original list (not its position among the kept points), and no area
    name when the area list is too short. *)
Theorem process_coverage_results_keeps_covered_points
    (coverage_results : list Coverage) (point_area_info : list AreaInfo)
    (bls : list string) (city : string) :
  let result := _process_coverage_results coverage_results point_area_info
                                          bls city in
  map pd_coverage result
  = filter (fun c => 0 <? total_vendors c) coverage_results
  /\ Forall (fun p => pd_lat p = lat (pd_coverage p)
                      /\ pd_lng p = lng (pd_coverage p)
                      /\ 0 < total_vendors (pd_coverage p)) result
  /\ forall k c,
       nth_error coverage_results k = Some c -> 0 < total_vendors c ->
       exists p,
         In p result /\ pd_coverage p = c
         /\ pd_marketing_area p = snd (nth k point_area_info (None, None))
         /\ ((List.length point_area_info <= k)%nat ->
             pd_marketing_area p = None).
Proof.
  intros result. subst result. unfold _process_coverage_results.
  match goal with
  | |- context [process_from ?t] => generalize t; intros tl
  end.
  split; [apply process_from_coverages|]. split.
  - generalize 0%nat.
    induction coverage_results as [|c cr IH]; intros i; simpl;
      [constructor|].
    destruct (0 <? total_vendors c) eqn:Hpos; [|apply IH].
    destruct (nth i point_area_info (None, None)) as [aid aname].
    constructor; [|apply IH]. simpl. apply Z.ltb_lt in Hpos. auto.
  - intros k c Hk Hpos.
    destruct (process_from_area tl point_area_info bls coverage_results
                                0 k c Hk Hpos) as (p & Hin & Hc & Ha).
    exists p. simpl in Ha. repeat split; auto.
    intros Hshort. rewrite Ha. now rewrite nth_overflow.
Qed.

Lemma every_nth_length {A : Type} (step : nat) (l : list A) :
  (1 <= step)%nat ->
  forall skip,
    let k := List.length (every_nth step skip l) in
    let n := List.length l in
    ((n <= skip -> k = 0)
     /\ (skip < n ->
         1 <= k /\ skip + step * k <= n + step - 1 /\ n <= skip + step * k))%nat.
Proof.
  intros Hstep. induction l as [|x l IH]; intros skip; cbv zeta.
  - cbn [every_nth List.length]. split; [reflexivity|lia].
  - destruct skip as [|s]; cbn [every_nth List.length].
    + pose proof (IH (step - 1)%nat) as [Hz Hp]. cbv zeta in Hz, Hp.
      split; [lia|]. intros _.
      rewrite Nat.mul_succ_r.
      destruct (Nat.le_gt_cases (List.length l) (step - 1)) as [Hle|Hgt].
      * rewrite (Hz Hle). lia.
      * destruct (Hp Hgt) as (H1 & H2 & H3). lia.
    + pose proof (IH s) as [Hz Hp]. cbv zeta in Hz, Hp.
      split; [intros H; apply Hz; lia|].
      intros H. destruct Hp as (H1 & H2 & H3); [lia|]. lia.
Qed.

Lemma every_nth_head {A : Type} (step : nat) (l : list A) :
  hd_error (every_nth step 0 l) = hd_error l.
Proof. now destruct l. Qed.

(** X26. The grid limit of [_calculate_coverage_grid] does not enforce its
    bound: when the grid has more than [MAX_GRID_POINTS] points (and the
    bound is positive), sampling every [len // MAX_GRID_POINTS]-th point
    keeps the first point and leaves at least [MAX_GRID_POINTS] and up to
    [2 * MAX_GRID_POINTS - 1] points.  A grid within the bound passes
    unchanged, and a bound of zero makes the step raise for every non-empty
    grid. *)
Theorem grid_limit_keeps_up_to_twice_the_bound
    {A : Type} (max_grid_points : Z) (grid_points : list A) :
  let len := Z.of_nat (List.length grid_points) in
  (len <= max_grid_points ->
   limit_grid_points max_grid_points grid_points = Returns grid_points)
  /\ (max_grid_points = 0 -> 0 < len ->
      limit_grid_points max_grid_points grid_points = Raises)
  /\ (0 < max_grid_points < len ->
      exists sampled,
        limit_grid_points max_grid_points grid_points = Returns sampled
        /\ max_grid_points <= Z.of_nat (List.length sampled)
           <= 2 * max_grid_points - 1
        /\ hd_error sampled = hd_error grid_points).
Proof.
  intros len. unfold limit_grid_points. fold len.
  split; [|split].
  - intros Hle. apply Z.ltb_ge in Hle. now rewrite Hle.
  - intros -> Hpos. apply Z.ltb_lt in Hpos. now rewrite Hpos.
  - intros [Hpos Hlt].
    assert (Hstep : 1 <= len / max_grid_points).
    { apply Z.div_le_lower_bound; lia. }
    destruct (Z.ltb_spec max_grid_points len); [|lia].
    destruct (Z.eqb_spec max_grid_points 0); [lia|].
    unfold slice_step.
    destruct (Z.eqb_spec (len / max_grid_points) 0); [lia|].
    destruct (Z.ltb_spec 0 (len / max_grid_points)); [|lia].
    eexists. split; [reflexivity|]. split; [|apply every_nth_head].
    set (step := Z.to_nat (len / max_grid_points)).
    assert (Hs : (1 <= step)%nat) by (unfold step; lia).
    destruct (every_nth_length step grid_points Hs 0%nat) as [_ Hk].
    simpl in Hk. destruct Hk as (H1 & H2 & H3); [unfold len in *; lia|].
    set (k := List.length (every_nth step 0 grid_points)) in *.
    assert (Hsz : Z.of_nat step = len / max_grid_points)
      by (unfold step; lia).
    pose proof (Z.mul_div_le len max_grid_points Hpos) as Hlow.
    pose proof (Z.mul_succ_div_gt len max_grid_points Hpos) as Hhigh.
    rewrite <- Hsz in Hlow, Hhigh.
    assert (Hn : Z.of_nat (List.length grid_points) = len) by reflexivity.
    split; nia.
Qed.

Lemma calculate_body_uses_limit E city bls filters :
  calculate_body E city bls filters
  = (vendors <- get_vendors E city bls
                  (PyDict.get "status_ids" filters)
                  (PyDict.get "grades" filters)
                  (PyDict.get "visible" filters)
                  (PyDict.get "is_open" filters) ;;
     if df_empty E vendors then Returns []
     else
       grid_points <- generate_coverage_grid E city (GRID_SIZE_METERS E) ;;
       match grid_points with
       | [] => Returns []
       | _ :: _ =>
           grid_points <- limit_grid_points (MAX_GRID_POINTS E) grid_points ;;
           point_area_info <-
             find_marketing_area_for_points E grid_points city ;;
           coverage_results <-
             calculate_coverage_for_grid_vectorized E grid_points vendors
                                                    city ;;
           Returns (_process_coverage_results coverage_results
                                              point_area_info bls city)
       end).
Proof. reflexivity. Qed.

Lemma grid_limit_keeps_up_to_twice_the_bound_witness :
  limit_grid_points 3 [1; 2; 3; 4; 5] = Returns [1; 2; 3; 4; 5].
Proof.
  destruct (grid_limit_keeps_up_to_twice_the_bound 3 [1; 2; 3; 4; 5])
    as (_ & _ & H).
  destruct H as (sampled & Hs & Hlen & _); [simpl; lia|].
  rewrite Hs. vm_compute in Hs. now injection Hs as <-.
Defined.

(* ----------------------------------------------------------------- *)
(** *** models.py: the format of a cache key *)

Lemma le_bytes_bounds n x :
  Forall (fun b => 0 <= b <= 255) (MD5.le_bytes n x).
Proof.
  unfold MD5.le_bytes. apply Forall_forall. intros b Hin.
  apply in_map_iff in Hin as (i & <- & _).
  change 255 with (Z.ones 8). rewrite Z.land_ones by lia.
  pose proof (Z.mod_pos_bound (Z.shiftr x (8 * Z.of_nat i)) (2 ^ 8)).
  cbn in *. lia.
Qed.

Lemma le_bytes_length n x : List.length (MD5.le_bytes n x) = n.
Proof. unfold MD5.le_bytes. now rewrite length_map, length_seq. Qed.

Lemma hex_digit_is_hex n :
  0 <= n < 16 -> is_hex_char (MD5.hex_digit n) = true.
Proof.
  intros H.
  assert (Hall : forallb (fun k => is_hex_char (MD5.hex_digit (Z.of_nat k)))
                         (seq 0 16) = true) by reflexivity.
  rewrite forallb_forall in Hall. specialize (Hall (Z.to_nat n)).
  rewrite Z2Nat.id in Hall by lia. apply Hall. apply in_seq. lia.
Qed.

Lemma hex_of_bytes_format bs :
  Forall (fun b => 0 <= b <= 255) bs ->
  String.length (MD5.hex_of_bytes bs) = (2 * List.length bs)%nat
  /\ forallb is_hex_char (list_ascii_of_string (MD5.hex_of_bytes bs)) = true.
Proof.
  induction 1 as [|b bs Hb _ IH]; [split; reflexivity|].
  destruct IH as [IH1 IH2]. cbn [MD5.hex_of_bytes String.length List.length].
  split; [rewrite IH1; lia|].
  cbn [list_ascii_of_string forallb]. rewrite IH2.
  rewrite !hex_digit_is_hex; [reflexivity| |].
  - apply Z.mod_pos_bound. lia.
  - split; [apply Z.div_pos; lia|apply Z.div_lt_upper_bound; lia].
Qed.

(** X27. Every cache key is a string of exactly 32 lower-case hexadecimal
    digits, whatever the city, the business lines and the filters are. *)
Theorem generate_cache_key_format
    (city : string) (bls : list string) (filters : dict)
    (extra : option dict) :
  let key := generate_cache_key city bls filters extra in
  String.length key = 32%nat
  /\ forallb is_hex_char (list_ascii_of_string key) = true.
Proof.
  intros key. subst key. unfold generate_cache_key, MD5.hexdigest. cbv zeta.
  set (msg := MD5.bytes_of_string _). clearbody msg.
  assert (Hd : Forall (fun b => 0 <= b <= 255) (MD5.digest msg)
               /\ List.length (MD5.digest msg) = 16%nat).
  { unfold MD5.digest.
    destruct (fold_left MD5.compress _ MD5.init) as [[[a b] c] d].
    split.
    - repeat (apply Forall_app; split); apply le_bytes_bounds.
    - rewrite !length_app, !le_bytes_length. reflexivity. }
  destruct Hd as [Hb Hl].
  destruct (hex_of_bytes_format _ Hb) as [H1 H2].
  split; [now rewrite H1, Hl|exact H2].
Qed.

(* ----------------------------------------------------------------- *)
(** *** Recency, and tasks whose computation fails *)

(** X28. A hit keeps an entry out of the next eviction: once an entry has
    been accessed at a time later than every [last_accessed] in the cache,
    and the cache holds another entry, the next insert of any key, evicting
    or not, leaves that entry in the cache. *)
Theorem memory_hit_protects_entry
    (t t' : Z) (key other inserted : string) (grid : Grid)
    (mc : MemoryCache) (e e' : MemEntry) :
  PyDict.wf mc ->
  PyDict.get key mc = Some e ->
  PyDict.get other mc = Some e' ->
  other <> key ->
  (forall k0 e0, PyDict.get k0 mc = Some e0 -> last_accessed e0 < t) ->
  let touched := _update_memory_cache_access t key mc in
  eviction_victim touched <> Some key
  /\ PyDict.get key (_add_to_memory_cache t' inserted grid touched) <> None.
Proof.
  intros Hwf Hkey Hother Hne Hold touched.
  assert (Hwf' : PyDict.wf touched) by now apply update_wf.
  assert (Hk : PyDict.get key touched
               = Some {| data := data e; last_accessed := t;
                         access_count := access_count e + 1 |})
    by now apply update_get.
  assert (Ho : PyDict.get other touched = Some e').
  { unfold touched, _update_memory_cache_access. rewrite Hkey.
    rewrite PyDictFacts.get_set_other by congruence. exact Hother. }
  assert (Hvictim : eviction_victim touched <> Some key).
  { intros Hv. apply eviction_victim_Some in Hv as [_ Hv].
    destruct (oldest_key_spec touched key Hwf' Hv) as (ev & Hev & Hmin).
    rewrite Hk in Hev. injection Hev as <-.
    specialize (Hmin other e' Ho). simpl in Hmin.
    specialize (Hold other e' Hother). lia. }
  split; [exact Hvictim|].
  unfold _add_to_memory_cache.
  destruct (String.eqb_spec inserted key) as [->|Hins].
  - now rewrite PyDictFacts.get_set_same.
  - rewrite PyDictFacts.get_set_other by exact Hins.
    destruct (eviction_victim touched) as [v|] eqn:Hv.
    + rewrite PyDictFacts.get_del_other by congruence. now rewrite Hk.
    + now rewrite Hk.
Qed.

Lemma memory_hit_protects_entry_witness :
  PyDict.get (sample_key 0)
             (_add_to_memory_cache
                101 "new" []
                (_update_memory_cache_access 100 (sample_key 0) full_cache))
  <> None.
Proof.
  refine (proj2 (memory_hit_protects_entry
                   100 101 (sample_key 0) (sample_key 1) "new" [] full_cache
                   {| data := []; last_accessed := 0; access_count := 1 |}
                   {| data := []; last_accessed := 1; access_count := 1 |}
                   full_cache_wf _ _ _ _)).
  - vm_compute. reflexivity.
  - vm_compute. reflexivity.
  - discriminate.
  - intros k0 e0 Hget. apply PyDictFacts.get_In in Hget.
    assert (Hall : forallb (fun kv => last_accessed (snd kv) <? 100)
                           full_cache = true) by (vm_compute; reflexivity).
    rewrite forallb_forall in Hall. apply Hall in Hget. simpl in Hget.
    now apply Z.ltb_lt.
Defined.

(** X29. A task whose computation fails or finds nothing is dropped: the
    worker takes it off the queue, runs the computation once, writes
    nothing to the database or the in-memory cache, and does not put the
    task back, so with pairwise distinct keys the queue no longer holds a
    task for that key. *)
Theorem preload_worker_drops_failed_task
    (E : Engine) (env : Env) (m : Manager) (task : CoverageGridTask)
    (rest : list CoverageGridTask) :
  preload_queue m = task :: rest ->
  find_row (task_key task) (coverage_grid_cache (db_manager m)) = None ->
  (forall p ps,
      _calculate_coverage_grid E (city_name task) (business_lines task)
                               (vendor_filters task) <> Some (p :: ps)) ->
  let m' := preload_worker_turn E env m in
  preload_queue m' = rest
  /\ db_manager m' = db_manager m
  /\ memory_cache m' = memory_cache m
  /\ engine_calls m' = S (engine_calls m)
  /\ (NoDup (map task_key (preload_queue m)) ->
      ~ In (task_key task) (map task_key (preload_queue m'))).
Proof.
  intros Hq Hrow Hfalsy m'.
  assert (Hm : m' = count_engine_call (set_preload_queue rest m)).
  { subst m'. unfold preload_worker_turn. rewrite Hq.
    cbv zeta. cbn [db_manager set_preload_queue].
    rewrite (get_cached_miss env _ _ Hrow). simpl.
    destruct (_calculate_coverage_grid E _ _ _) as [[|p ps]|] eqn:Hc.
    - now destruct m.
    - now destruct (Hfalsy p ps).
    - now destruct m. }
  rewrite Hm. simpl. repeat split.
  rewrite Hq. simpl. intros Hnd. now apply NoDup_cons_iff in Hnd.
Qed.

Lemma preload_worker_drops_failed_task_witness :
  preload_queue (preload_worker_turn failing_engine (sample_env 1)
                                     (queued_manager empty_db)) = [].
Proof.
  refine (proj1 (preload_worker_drops_failed_task
                   failing_engine (sample_env 1) (queued_manager empty_db)
                   _ [] _ _ _)).
  - vm_compute. reflexivity.
  - reflexivity.
  - intros p ps. vm_compute. discriminate.
Defined.

(* ----------------------------------------------------------------- *)
(** *** models.py: the text that is hashed *)

Lemma json_nested_ind (P : json -> Prop) :
  P JNull -> (forall b, P (JBool b)) -> (forall n, P (JInt n)) ->
  (forall s, P (JStr s)) ->
  (forall l, Forall P l -> P (JList l)) ->
  (forall items, Forall (fun kv => P (snd kv)) items -> P (JDict items)) ->
  forall j, P j.
Proof.
  intros H1 H2 H3 H4 H5 H6. fix IH 1.
  intros [ |b|n|s|l|items].
  - exact H1.
  - apply H2.
  - apply H3.
  - apply H4.
  - apply H5. induction l as [|x l IHl]; constructor; [apply IH|exact IHl].
  - apply H6. induction items as [|kv items IHl]; constructor;
      [apply IH|exact IHl].
Qed.

Lemma printable_app s1 s2 :
  printable (s1 ++ s2) = printable s1 && printable s2.
Proof.
  unfold printable. induction s1 as [|c s1 IH]; simpl; [reflexivity|].
  now rewrite IH, andb_assoc.
Qed.

Lemma printable_concat sep l :
  printable sep = true -> Forall (fun s => printable s = true) l ->
  printable (String.concat sep l) = true.
Proof.
  intros Hsep. induction 1 as [|x l Hx Hl IH]; [reflexivity|].
  destruct l as [|y l]; [exact Hx|].
  change (String.concat sep (x :: y :: l))
    with (x ++ sep ++ String.concat sep (y :: l))%string.
  now rewrite !printable_app, Hx, Hsep, IH.
Qed.

Lemma escape_char_printable c : printable (Json.escape_char c) = true.
Proof. destruct c as [[] [] [] [] [] [] [] []]; reflexivity. Qed.

Lemma quote_printable s : printable (Json.quote s) = true.
Proof.
  unfold Json.quote. rewrite !printable_app.
  rewrite printable_concat; [reflexivity|reflexivity|].
  apply Forall_forall. intros x Hin.
  apply in_map_iff in Hin as (c & <- & _). apply escape_char_printable.
Qed.

Lemma string_of_uint_printable d :
  printable (NilEmpty.string_of_uint d) = true.
Proof.
  induction d; simpl; try reflexivity; unfold printable in *; simpl;
    exact IHd.
Qed.

Lemma string_of_Z_printable n : printable (Json.string_of_Z n) = true.
Proof.
  unfold Json.string_of_Z, NilZero.string_of_int, NilZero.string_of_uint.
  destruct (Z.to_int n) as [d|d]; destruct d; try reflexivity;
    try apply string_of_uint_printable;
    unfold printable; simpl;
    apply (string_of_uint_printable d).
Qed.

Lemma render_item_printable kv :
  printable (snd kv) = true -> printable (Json.render_item kv) = true.
Proof.
  intros H. unfold Json.render_item.
  now rewrite !printable_app, quote_printable, H.
Qed.

(** X30. The text [json.dumps] produces for any value, and so the text
    that [generate_cache_key] hashes, consists of printable ASCII
    characters only (every other character of a string is escaped), so its
    encoding has one byte per character, each between 32 and 126. *)
Theorem dumps_is_printable_ascii (j : json) :
  printable (Json.dumps j) = true
  /\ Forall (fun b => 32 <= b <= 126)
            (MD5.bytes_of_string (Json.dumps j))
  /\ List.length (MD5.bytes_of_string (Json.dumps j))
     = String.length (Json.dumps j).
Proof.
  assert (Hp : printable (Json.dumps j) = true).
  { induction j as [ |b|n|s|l IH|items IH] using json_nested_ind.
    - reflexivity.
    - now destruct b.
    - apply string_of_Z_printable.
    - apply quote_printable.
    - cbn [Json.dumps]. rewrite !printable_app.
      rewrite printable_concat; [reflexivity|reflexivity|].
      apply Forall_forall. intros x Hin.
      apply in_map_iff in Hin as (y & <- & Hy).
      rewrite Forall_forall in IH. now apply IH.
    - cbn [Json.dumps]. rewrite !printable_app.
      rewrite printable_concat; [reflexivity|reflexivity|].
      apply Forall_forall. intros x Hin.
      apply in_map_iff in Hin as (kv & <- & Hkv).
      apply render_item_printable.
      apply (Permutation_in _ (Permutation_sym (sorted_perm _ _))) in Hkv.
      apply in_map_iff in Hkv as (kv0 & <- & H0).
      rewrite Forall_forall in IH. simpl. now apply IH. }
  split; [exact Hp|].
  unfold MD5.bytes_of_string, printable in *.
  generalize dependent (Json.dumps j). intros s.
  induction s as [|c s IH]; simpl; intros H.
  - split; [constructor|reflexivity].
  - apply andb_true_iff in H as [Hc Hs]. destruct (IH Hs) as [IH1 IH2].
    split; [|now rewrite IH2]. constructor; [|exact IH1].
    unfold printable_char in Hc. apply andb_true_iff in Hc as [H1 H2].
    apply Z.leb_le in H1, H2. lia.
Qed.

Lemma computed_request_stays_queued_witness :
  In (generate_cache_key "tehran" ["restaurant"%string] filter_all None)
     (map task_key
          (preload_queue
             (fst (get_or_calculate_coverage_grid
                     failing_engine (sample_env 0) (new_manager empty_db)
                     "tehran" ["restaurant"%string] filter_all false)))).
Proof.
  apply (computed_request_stays_queued
           failing_engine (sample_env 0) (new_manager empty_db)
           "tehran" ["restaurant"%string] filter_all false).
  vm_compute. reflexivity.
Defined.
